(** * MaaLogAnalyzer: the log parser and the node statistics, verified

    A shallow embedding of [utils/logParser.ts] (class [LogParser]) and of
    [utils/nodeStatistics.ts] (class [NodeStatisticsAnalyzer]), followed by
    the properties of the task/node reconstruction and of the aggregation
    passes.  The line decoder of the parser, the derived views of the
    analyzer, the task filters of [App.vue] and the summary of the
    statistics view are embedded after them, with their properties in the
    second part.

    Conventions of the embedding.
    - A JavaScript [number] that holds a time in milliseconds, a duration or
      a sum of durations is an [option Z]: [None] is [NaN] (what
      [new Date(s).getTime()] gives for an unreadable timestamp), and every
      arithmetic operation propagates it.  Quotients (averages, rates) are
      exact rationals, [option Q], [None] standing for the non-finite result
      of a division by zero; the rounding of IEEE doubles is not modelled.
    - [undefined] is [None].  The fields of [details] are typed as the
      framework emits them ([task_id], [node_id] integers, [uuid], [entry],
      [name] strings); detail blobs are [JValue]s passed through verbatim.
    - A [Map] or [Set] on which only membership is asked is a [gset]/[gmap];
      the two owner maps, whose values are enumerated, are association lists
      in insertion order.
    - [Date] is a host object: the reading of a timestamp is the parameter
      [getTime] of the functions that subtract times. *)

From Stdlib Require Import ZArith QArith Lqa Lia Sorted Ascii.
From stdpp Require Import base option list strings gmap pretty.

Local Open Scope string_scope.
Local Open Scope list_scope.
Local Open Scope Z_scope.

(** ** JavaScript values and coercions *)

Module JS.

(** A value produced by [JSON.parse]. *)
#[local] Unset Elimination Schemes.
Inductive JValue : Type :=
| JNull
| JBool (b : bool)
| JNum (z : Z)
| JStr (s : string)
| JArr (xs : list JValue)
| JObj (fields : list (string * JValue)).
#[local] Set Elimination Schemes.

(** [ToBoolean]. *)
Definition truthy (v : JValue) : bool :=
  match v with
  | JNull => false
  | JBool b => b
  | JNum z => negb (Z.eqb z 0)
  | JStr s => negb (String.eqb s "")
  | JArr _ | JObj _ => true
  end.

Definition truthy_str (s : string) : bool := negb (String.eqb s "").
Definition truthy_num (z : Z) : bool := negb (Z.eqb z 0).

(** [o ? o : undefined] on an optional blob. *)
Definition keep_truthy (o : option JValue) : option JValue :=
  match o with
  | Some v => if truthy v then Some v else None
  | None => None
  end.

(** [o?.k]: the property [k] of an optional blob. *)
Definition jfield (k : string) (o : option JValue) : option JValue :=
  match o with
  | Some (JObj fs) => snd <$> List.find (λ p, String.eqb (fst p) k) fs
  | _ => None
  end.

(** [a || b] on optional values. *)
Definition jor (a b : option JValue) : option JValue :=
  match keep_truthy a with
  | Some v => Some v
  | None => b
  end.

(** [s || d] where [s] is an optional string. *)
Definition or_str (o : option string) (d : string) : string :=
  match o with
  | Some s => if truthy_str s then s else d
  | None => d
  end.

(** [b || false] where [b] is an optional boolean. *)
Definition or_false (o : option bool) : bool := default false o.

(** [o?.name], a node name being a string. *)
Definition jname (o : option JValue) : option string :=
  match jfield "name" o with
  | Some (JStr s) => Some s
  | _ => None
  end.

(** [String.prototype.includes]. *)
Definition includes (s sub : string) : bool :=
  match String.index 0 sub s with
  | Some _ => true
  | None => false
  end.

Definition is_space (c : Ascii.ascii) : bool :=
  let n := Ascii.nat_of_ascii c in
  ((9 <=? n)%nat && (n <=? 13)%nat) || (n =? 32)%nat.

Fixpoint trim_start (s : string) : string :=
  match s with
  | String c s' => if is_space c then trim_start s' else s
  | EmptyString => EmptyString
  end.

(** [String.prototype.trim] (on the ASCII white space). *)
Definition trim (s : string) : string :=
  String.rev (trim_start (String.rev (trim_start s))).

(** [`${n}`] for an optional integer. *)
Definition show_num (o : option Z) : string :=
  match o with
  | Some z => pretty z
  | None => "undefined"
  end.

(** Subtraction of two times, [NaN] absorbing. *)
Definition sub_ms (a b : option Z) : option Z :=
  match a, b with
  | Some x, Some y => Some (x - y)
  | _, _ => None
  end.

Definition add_ms (a b : option Z) : option Z :=
  match a, b with
  | Some x, Some y => Some (x + y)
  | _, _ => None
  end.

(** [a < b], [a > b], [a >= b] on numbers: false as soon as one is [NaN]. *)
Definition num_lt (a : option Z) (b : Z) : bool :=
  match a with Some x => x <? b | None => false end.
Definition num_gt (a : option Z) (b : Z) : bool :=
  match a with Some x => b <? x | None => false end.
Definition num_ge (a : option Z) (b : Z) : bool :=
  match a with Some x => b <=? x | None => false end.

(** [xs.reduce((sum, d) => sum + d, 0)]. *)
Definition sum_ms (xs : list (option Z)) : option Z :=
  fold_left add_ms xs (Some 0).

(** [Math.min(...xs)] and [Math.max(...xs)]; [None] is also the
    non-finite result on the empty list. *)
Definition min_ms (xs : list (option Z)) : option Z :=
  match xs with
  | [] => None
  | x :: xs' =>
      fold_left (λ a b, match a, b with
                        | Some u, Some v => Some (Z.min u v)
                        | _, _ => None
                        end) xs' x
  end.
Definition max_ms (xs : list (option Z)) : option Z :=
  match xs with
  | [] => None
  | x :: xs' =>
      fold_left (λ a b, match a, b with
                        | Some u, Some v => Some (Z.max u v)
                        | _, _ => None
                        end) xs' x
  end.

(** [a / b] on exact rationals. *)
Definition div_q (a b : option Q) : option Q :=
  match a, b with
  | Some x, Some y => if Qeq_bool y 0 then None else Some (x / y)%Q
  | _, _ => None
  end.

Definition mul_q (a b : option Q) : option Q :=
  match a, b with
  | Some x, Some y => Some (x * y)%Q
  | _, _ => None
  end.

Definition sub_q (a b : option Q) : option Q :=
  match a, b with
  | Some x, Some y => Some (x - y)%Q
  | _, _ => None
  end.

Definition of_ms (a : option Z) : option Q := inject_Z <$> a.
Definition of_nat (n : nat) : option Q := Some (inject_Z (Z.of_nat n)).

(** The sign a comparator result contributes to [Array.prototype.sort]:
    a [NaN] result counts as [0]. *)
Definition sort_sign (d : option Q) : comparison :=
  match d with
  | Some q => (q ?= 0)%Q
  | None => Eq
  end.

(** [Array.prototype.sort(cmp)]: a stable sort, here by insertion.  [x] is
    placed before the first element it must strictly precede. *)
Section Sort.
Context {A : Type} (cmp : A → A → comparison).

Fixpoint sort_insert (x : A) (l : list A) : list A :=
  match l with
  | [] => [x]
  | y :: l' =>
      match cmp x y with
      | Lt => x :: y :: l'
      | _ => y :: sort_insert x l'
      end
  end.

Definition sort (l : list A) : list A :=
  fold_left (λ acc x, sort_insert x acc) l [].
End Sort.

(** [Array.from(new Set(xs))]: first occurrences, in order. *)
Fixpoint dedup_first (seen : list string) (xs : list string) : list string :=
  match xs with
  | [] => []
  | x :: xs' =>
      if bool_decide (x ∈ seen) then dedup_first seen xs'
      else x :: dedup_first (x :: seen) xs'
  end.

(** The default comparator of [sort] on strings: code-unit order. *)
Definition str_cmp (a b : string) : comparison := String.compare a b.

(** A [Map] whose values are enumerated: pairs in insertion order. *)
Section Assoc.
Context {V : Type}.

Definition map_has (k : Z) (m : list (Z * V)) : bool :=
    existsb (λ p, Z.eqb (fst p) k) m.

Definition map_get (k : Z) (m : list (Z * V)) : option V :=
    snd <$> List.find (λ p, Z.eqb (fst p) k) m.

Fixpoint map_set (k : Z) (v : V) (m : list (Z * V)) : list (Z * V) :=
    match m with
    | [] => [(k, v)]
    | p :: m' => if Z.eqb (fst p) k then (k, v) :: m' else p :: map_set k v m'
    end.

Definition map_values (m : list (Z * V)) : list V := snd <$> m.
End Assoc.

End JS.

(** ** The value objects of [types.ts] *)

Module Types.
Import JS.

(** An entry of [details.list] on [Node.NextList.Starting]. *)
Record NextItem := {
  ni_name : option string;
  ni_anchor : option bool;
  ni_jump_back : option bool }.

(** [EventNotification.details], with the properties the parser reads. *)
Record Details := {
  d_task_id : option Z;
  d_uuid : option string;
  d_entry : option string;
  d_hash : option string;
  d_node_id : option Z;
  d_reco_id : option Z;
  d_action_id : option Z;
  d_name : option string;
  d_list : option (list NextItem);
  d_reco_details : option JValue;
  d_action_details : option JValue;
  d_node_details : option JValue;
  d_focus : option JValue }.

(** The empty object [{}]. *)
Definition no_details : Details :=
  {| d_task_id := None; d_uuid := None; d_entry := None; d_hash := None;
     d_node_id := None; d_reco_id := None; d_action_id := None;
     d_name := None; d_list := None; d_reco_details := None;
     d_action_details := None; d_node_details := None; d_focus := None |}.

Record EventNotification := {
  ev_timestamp : string;
  ev_level : string;
  ev_message : string;
  ev_details : Details;
  ev_lineNumber : nat }.

(** A decoded line; [ll_msg] and [ll_details] are [params['msg']] and
    [params['details']]. *)
Record LogLine := {
  ll_timestamp : string;
  ll_level : string;
  ll_processId : string;
  ll_threadId : string;
  ll_message : string;
  ll_msg : option string;
  ll_details : option Details;
  ll_lineNumber : nat }.

Inductive TaskStatus := running | succeeded | task_failed.
Inductive NodeStatus := success | failed.

(** A recognition of a sub-task, as kept in [recognitionsByTaskId]. *)
Record RecoRecord := {
  rr_reco_id : option Z;
  rr_name : string;
  rr_timestamp : string;
  rr_status : NodeStatus;
  rr_reco_details : option JValue }.

(** A completed nested recognition, as kept in [nestedNodes]. *)
Record NestedNode := {
  nn_reco_id : option JValue;
  nn_name : string;
  nn_timestamp : string;
  nn_status : NodeStatus;
  nn_reco_details : option JValue;
  nn_nested_nodes : option (list RecoRecord) }.

Record RecognitionAttempt := {
  ra_reco_id : option Z;
  ra_name : string;
  ra_timestamp : string;
  ra_status : NodeStatus;
  ra_reco_details : option JValue;
  ra_nested_nodes : option (list NestedNode) }.

(** An action of a sub-task, as kept in [actionsByTaskId]. *)
Record ActionRecord := {
  ar_action_id : option Z;
  ar_name : string;
  ar_timestamp : string;
  ar_status : NodeStatus;
  ar_action_details : option JValue }.

Record NestedActionNode := {
  na_action_id : option JValue;
  na_name : string;
  na_timestamp : string;
  na_status : NodeStatus;
  na_action_details : option JValue;
  na_nested_actions : option (list ActionRecord) }.

Record NextListItem := {
  nl_name : string;
  nl_anchor : bool;
  nl_jump_back : bool }.

Record NodeInfo := {
  n_node_id : Z;
  n_name : string;
  n_timestamp : string;
  n_status : NodeStatus;
  n_task_id : Z;
  n_reco_details : option JValue;
  n_action_details : option JValue;
  n_focus : option JValue;
  n_next_list : list NextListItem;
  n_recognition_attempts : list RecognitionAttempt;
  n_nested_action_nodes : option (list NestedActionNode);
  n_nested_recognition_in_action : option (list NestedNode);
  n_node_details : option JValue }.

(** [t_duration] is [None] while [undefined]; the always-empty [events]
    property of a task is left out. *)
Record TaskInfo := {
  t_task_id : Z;
  t_entry : string;
  t_hash : string;
  t_uuid : string;
  t_start_time : string;
  t_end_time : option string;
  t_status : TaskStatus;
  t_nodes : list NodeInfo;
  t_duration : option (option Z);
  t_startEventIndex : option nat;
  t_endEventIndex : option nat }.

(** [!!t.end_time]. *)
Definition has_end_time (t : TaskInfo) : bool :=
  match t_end_time t with
  | Some s => truthy_str s
  | None => false
  end.

End Types.

(** ** [LogParser] *)

Module LogParser.
Import JS Types.

(** Modelled from the spec: [StringPool.intern] of [utils/stringPool.ts],
    which is not among the sources.  The pool maps distinct string content
    to a single shared instance, so [intern] returns a string with the
    content it was given; the identity of the instance is not observable. *)
Definition intern (s : string) : string := s.

(** The fields of a parser instance. *)
Record Parser := {
  events : list EventNotification;
  processIds : list string;
  threadIds : list string;
  taskProcessMap : list (Z * string);
  taskThreadMap : list (Z * string) }.

(** [new LogParser()]. *)
Definition new_parser : Parser :=
  {| events := []; processIds := []; threadIds := [];
     taskProcessMap := []; taskThreadMap := [] |}.

(** [Set.prototype.add]. *)
Definition set_add (x : string) (s : list string) : list string :=
  if bool_decide (x ∈ s) then s else s ++ [x].

(** What a call gives back: a value, or a thrown [TypeError]. *)
Inductive outcome (A : Type) :=
| Returned (a : A)
| Thrown.
Arguments Returned {A} a.
Arguments Thrown {A}.

Definition marker : string := "!!!OnEventNotify!!!".

(** The owner maps after a [Tasker.Task.Starting] line for [taskId]. *)
Definition record_owner (taskId : Z) (processId threadId : string)
    (p : Parser) : Parser :=
  if map_has taskId (taskProcessMap p) then p
  else {| events := events p;
          processIds := processIds p;
          threadIds := threadIds p;
          taskProcessMap := map_set taskId processId (taskProcessMap p);
          taskThreadMap := map_set taskId threadId (taskThreadMap p) |}.

(** [parseEventNotification(logLine)].  Reading [details.task_id] when
    [details] is [undefined] throws. *)
Definition parseEventNotification (logLine : LogLine) (p : Parser)
    : outcome (option EventNotification) * Parser :=
  if negb (includes (ll_message logLine) marker) then (Returned None, p)
  else
    match ll_msg logLine with
    | None => (Returned None, p)
    | Some msg =>
        if negb (truthy_str msg) then (Returned None, p)
        else
          let event :=
            {| ev_timestamp := ll_timestamp logLine;
               ev_level := ll_level logLine;
               ev_message := msg;
               ev_details := default no_details (ll_details logLine);
               ev_lineNumber := ll_lineNumber logLine |} in
          if String.eqb msg "Tasker.Task.Starting" then
            match ll_details logLine with
            | None => (Thrown, p)
            | Some details =>
                match d_task_id details with
                | Some taskId =>
                    if truthy_num taskId then
                      (Returned (Some event),
                       record_owner taskId (ll_processId logLine)
                         (ll_threadId logLine) p)
                    else (Returned (Some event), p)
                | None => (Returned (Some event), p)
                end
            end
          else (Returned (Some event), p)
    end.

(** One trimmed raw line of the file, with what [parseLine] decodes from it
    ([None] when the line does not match the bracketed grammar).  The line
    decoder itself is embedded on its own, in [Decoder]. *)
Record RawLine := {
  rawLine : string;
  decoded : option LogLine }.

(** The effect of [parseLine] on the id registries. *)
Definition register_ids (l : LogLine) (p : Parser) : Parser :=
  {| events := events p;
     processIds := set_add (ll_processId l) (processIds p);
     threadIds := set_add (ll_threadId l) (threadIds p);
     taskProcessMap := taskProcessMap p;
     taskThreadMap := taskThreadMap p |}.

(** The body of the line loop of [parseFile]: [acc] is the local array
    [events]. *)
Definition parse_line_step (st : list EventNotification * Parser)
    (r : RawLine) : list EventNotification * Parser :=
  let '(acc, p) := st in
  if negb (truthy_str (rawLine r)) then st
  else
    match decoded r with
    | None => st
    | Some parsed =>
        let p1 := register_ids parsed p in
        if includes (rawLine r) marker then
          match parseEventNotification parsed p1 with
          | (Returned (Some event), p2) => (acc ++ [event], p2)
          | (Returned None, p2) => (acc, p2)
          | (Thrown, p2) => (acc, p2)
          end
        else (acc, p1)
    end.

(** [parseFile(content)]: the registries are cleared, the lines are
    processed in order (the chunking only yields to the host between
    batches), and the collected events replace [this.events]. *)
Definition parseFile (content : list RawLine) (p : Parser) : Parser :=
  let p0 := {| events := events p; processIds := []; threadIds := [];
               taskProcessMap := []; taskThreadMap := [] |} in
  let '(acc, p1) := fold_left parse_line_step content ([], p0) in
  {| events := acc;
     processIds := processIds p1;
     threadIds := threadIds p1;
     taskProcessMap := taskProcessMap p1;
     taskThreadMap := taskThreadMap p1 |}.

Definition getEvents (p : Parser) : list EventNotification := events p.

(** [Array.from(new Set(map.values())).sort()]. *)
Definition getProcessIds (p : Parser) : list string :=
  sort str_cmp (dedup_first [] (map_values (taskProcessMap p))).

Definition getThreadIds (p : Parser) : list string :=
  sort str_cmp (dedup_first [] (map_values (taskThreadMap p))).

Definition getTaskProcessId (taskId : Z) (p : Parser) : option string :=
  map_get taskId (taskProcessMap p).

Definition getTaskThreadId (taskId : Z) (p : Parser) : option string :=
  map_get taskId (taskThreadMap p).

(** *** [getTaskNodes] *)

(** The local variables of [getTaskNodes]. *)
Record NodeScan := {
  ns_nodes : list NodeInfo;
  ns_nodeIdSet : gset Z;
  ns_recognitionAttempts : list RecognitionAttempt;
  ns_nestedNodes : list NestedNode;
  ns_nestedActionNodes : list NestedActionNode;
  ns_currentNextList : list NextItem;
  ns_recognitionsByTaskId : gmap (option Z) (list RecoRecord);
  ns_actionsByTaskId : gmap (option Z) (list ActionRecord) }.

Definition node_scan_init : NodeScan :=
  {| ns_nodes := []; ns_nodeIdSet := ∅; ns_recognitionAttempts := [];
     ns_nestedNodes := []; ns_nestedActionNodes := [];
     ns_currentNextList := []; ns_recognitionsByTaskId := ∅;
     ns_actionsByTaskId := ∅ |}.

(** [message === a || message === b]. *)
Definition is_one_of (message a b : string) : bool :=
  String.eqb message a || String.eqb message b.

(** [details.task_id === task.task_id]. *)
Definition same_task (details : Details) (task_id : Z) : bool :=
  match d_task_id details with
  | Some t => Z.eqb t task_id
  | None => false
  end.

(** [message === tag ? 'success' : 'failed']. *)
Definition status_of (message tag : string) : NodeStatus :=
  if String.eqb message tag then success else failed.

(** [xs.length > 0 ? xs : undefined]. *)
Definition if_nonempty {A} (xs : list A) : option (list A) :=
  match xs with
  | [] => None
  | _ => Some xs
  end.

Definition on_next_list (task_id : Z) (event : EventNotification)
    (st : NodeScan) : NodeScan :=
  let message := ev_message event in
  let details := ev_details event in
  if is_one_of message "Node.NextList.Starting" "Node.NextList.Succeeded"
     && same_task details task_id
     && String.eqb message "Node.NextList.Starting"
  then {| ns_nodes := ns_nodes st; ns_nodeIdSet := ns_nodeIdSet st;
          ns_recognitionAttempts := ns_recognitionAttempts st;
          ns_nestedNodes := ns_nestedNodes st;
          ns_nestedActionNodes := ns_nestedActionNodes st;
          ns_currentNextList := default [] (d_list details);
          ns_recognitionsByTaskId := ns_recognitionsByTaskId st;
          ns_actionsByTaskId := ns_actionsByTaskId st |}
  else st.

Definition on_recognition_node (task_id : Z) (event : EventNotification)
    (st : NodeScan) : NodeScan :=
  let message := ev_message event in
  let details := ev_details event in
  if is_one_of message "Node.RecognitionNode.Succeeded"
       "Node.RecognitionNode.Failed"
     && negb (same_task details task_id)
  then
    let taskId := d_task_id details in
    let nestedRecognitions :=
      default [] (ns_recognitionsByTaskId st !! taskId) in
    let nestedNode :=
      {| nn_reco_id := jor (jfield "reco_id" (d_reco_details details))
                           (JNum <$> d_node_id details);
         nn_name := intern (or_str (d_name details) "");
         nn_timestamp := intern (ev_timestamp event);
         nn_status := status_of message "Node.RecognitionNode.Succeeded";
         nn_reco_details := keep_truthy (d_reco_details details);
         nn_nested_nodes := if_nonempty nestedRecognitions |} in
    {| ns_nodes := ns_nodes st; ns_nodeIdSet := ns_nodeIdSet st;
       ns_recognitionAttempts := ns_recognitionAttempts st;
       ns_nestedNodes := ns_nestedNodes st ++ [nestedNode];
       ns_nestedActionNodes := ns_nestedActionNodes st;
       ns_currentNextList := ns_currentNextList st;
       ns_recognitionsByTaskId := delete taskId (ns_recognitionsByTaskId st);
       ns_actionsByTaskId := ns_actionsByTaskId st |}
  else st.

Definition on_action_node (task_id : Z) (event : EventNotification)
    (st : NodeScan) : NodeScan :=
  let message := ev_message event in
  let details := ev_details event in
  if is_one_of message "Node.ActionNode.Succeeded" "Node.ActionNode.Failed"
     && negb (same_task details task_id)
  then
    let taskId := d_task_id details in
    let nestedActions := default [] (ns_actionsByTaskId st !! taskId) in
    let nestedActionNode :=
      {| na_action_id := jor (jfield "action_id" (d_action_details details))
                             (JNum <$> d_node_id details);
         na_name := intern (or_str (d_name details) "");
         na_timestamp := intern (ev_timestamp event);
         na_status := status_of message "Node.ActionNode.Succeeded";
         na_action_details := keep_truthy (d_action_details details);
         na_nested_actions := if_nonempty nestedActions |} in
    {| ns_nodes := ns_nodes st; ns_nodeIdSet := ns_nodeIdSet st;
       ns_recognitionAttempts := ns_recognitionAttempts st;
       ns_nestedNodes := ns_nestedNodes st;
       ns_nestedActionNodes := ns_nestedActionNodes st ++ [nestedActionNode];
       ns_currentNextList := ns_currentNextList st;
       ns_recognitionsByTaskId := ns_recognitionsByTaskId st;
       ns_actionsByTaskId := delete taskId (ns_actionsByTaskId st) |}
  else st.

Definition on_recognition (task_id : Z) (event : EventNotification)
    (st : NodeScan) : NodeScan :=
  let message := ev_message event in
  let details := ev_details event in
  if is_one_of message "Node.Recognition.Succeeded" "Node.Recognition.Failed"
  then
    let taskId := d_task_id details in
    if same_task details task_id then
      let attempt :=
        {| ra_reco_id := d_reco_id details;
           ra_name := intern (or_str (d_name details) "");
           ra_timestamp := intern (ev_timestamp event);
           ra_status := status_of message "Node.Recognition.Succeeded";
           ra_reco_details := keep_truthy (d_reco_details details);
           ra_nested_nodes := if_nonempty (ns_nestedNodes st) |} in
      {| ns_nodes := ns_nodes st; ns_nodeIdSet := ns_nodeIdSet st;
         ns_recognitionAttempts := ns_recognitionAttempts st ++ [attempt];
         ns_nestedNodes := [];
         ns_nestedActionNodes := ns_nestedActionNodes st;
         ns_currentNextList := ns_currentNextList st;
         ns_recognitionsByTaskId := ns_recognitionsByTaskId st;
         ns_actionsByTaskId := ns_actionsByTaskId st |}
    else
      let attempt :=
        {| rr_reco_id := d_reco_id details;
           rr_name := intern (or_str (d_name details) "");
           rr_timestamp := intern (ev_timestamp event);
           rr_status := status_of message "Node.Recognition.Succeeded";
           rr_reco_details := keep_truthy (d_reco_details details) |} in
      let sofar := default [] (ns_recognitionsByTaskId st !! taskId) in
      {| ns_nodes := ns_nodes st; ns_nodeIdSet := ns_nodeIdSet st;
         ns_recognitionAttempts := ns_recognitionAttempts st;
         ns_nestedNodes := ns_nestedNodes st;
         ns_nestedActionNodes := ns_nestedActionNodes st;
         ns_currentNextList := ns_currentNextList st;
         ns_recognitionsByTaskId :=
           <[taskId := sofar ++ [attempt]]> (ns_recognitionsByTaskId st);
         ns_actionsByTaskId := ns_actionsByTaskId st |}
  else st.

Definition on_action (task_id : Z) (event : EventNotification)
    (st : NodeScan) : NodeScan :=
  let message := ev_message event in
  let details := ev_details event in
  if is_one_of message "Node.Action.Succeeded" "Node.Action.Failed"
     && negb (same_task details task_id)
  then
    let taskId := d_task_id details in
    let actionAttempt :=
      {| ar_action_id := d_action_id details;
         ar_name := intern (or_str (d_name details) "");
         ar_timestamp := intern (ev_timestamp event);
         ar_status := status_of message "Node.Action.Succeeded";
         ar_action_details := keep_truthy (d_action_details details) |} in
    let sofar := default [] (ns_actionsByTaskId st !! taskId) in
    {| ns_nodes := ns_nodes st; ns_nodeIdSet := ns_nodeIdSet st;
       ns_recognitionAttempts := ns_recognitionAttempts st;
       ns_nestedNodes := ns_nestedNodes st;
       ns_nestedActionNodes := ns_nestedActionNodes st;
       ns_currentNextList := ns_currentNextList st;
       ns_recognitionsByTaskId := ns_recognitionsByTaskId st;
       ns_actionsByTaskId :=
         <[taskId := sofar ++ [actionAttempt]]> (ns_actionsByTaskId st) |}
  else st.

Definition next_list_item (item : NextItem) : NextListItem :=
  {| nl_name := intern (or_str (ni_name item) "");
     nl_anchor := or_false (ni_anchor item);
     nl_jump_back := or_false (ni_jump_back item) |}.

(** The [NodeInfo] built on a completion event of node [nodeId]. *)
Definition make_node (task_id nodeId : Z) (event : EventNotification)
    (st : NodeScan) : NodeInfo :=
  let message := ev_message event in
  let details := ev_details event in
  let nodeName :=
    or_str (jname (d_node_details details)) (or_str (d_name details) "") in
  {| n_node_id := nodeId;
     n_name := intern nodeName;
     n_timestamp := intern (ev_timestamp event);
     n_status := status_of message "Node.PipelineNode.Succeeded";
     n_task_id := task_id;
     n_reco_details := keep_truthy (d_reco_details details);
     n_action_details := keep_truthy (d_action_details details);
     n_focus := keep_truthy (d_focus details);
     n_next_list := next_list_item <$> ns_currentNextList st;
     n_recognition_attempts := ns_recognitionAttempts st;
     n_nested_action_nodes := if_nonempty (ns_nestedActionNodes st);
     n_nested_recognition_in_action := if_nonempty (ns_nestedNodes st);
     n_node_details := keep_truthy (d_node_details details) |}.

(** [nodeId && !nodeIdSet.has(nodeId)]. *)
Definition fresh_node_id (nodeId : option Z) (seen : gset Z) : option Z :=
  match nodeId with
  | Some n => if truthy_num n && negb (bool_decide (n ∈ seen))
              then Some n else None
  | None => None
  end.

Definition on_pipeline_node (task_id : Z) (event : EventNotification)
    (st : NodeScan) : NodeScan :=
  let message := ev_message event in
  let details := ev_details event in
  if is_one_of message "Node.PipelineNode.Succeeded" "Node.PipelineNode.Failed"
     && same_task details task_id
  then
    let '(nodes, seen) :=
      match fresh_node_id (d_node_id details) (ns_nodeIdSet st) with
      | Some nodeId =>
          (ns_nodes st ++ [make_node task_id nodeId event st],
           {[nodeId]} ∪ ns_nodeIdSet st)
      | None => (ns_nodes st, ns_nodeIdSet st)
      end in
    {| ns_nodes := nodes; ns_nodeIdSet := seen;
       ns_recognitionAttempts := [];
       ns_nestedNodes := [];
       ns_nestedActionNodes := [];
       ns_currentNextList := [];
       ns_recognitionsByTaskId := ns_recognitionsByTaskId st;
       ns_actionsByTaskId := ns_actionsByTaskId st |}
  else st.

(** The body of the event loop of [getTaskNodes]: its six blocks, in the
    order of the source. *)
Definition node_step (task_id : Z) (st : NodeScan)
    (event : EventNotification) : NodeScan :=
  on_pipeline_node task_id event
    (on_action task_id event
      (on_recognition task_id event
        (on_action_node task_id event
          (on_recognition_node task_id event
            (on_next_list task_id event st))))).

(** [this.events.slice(taskStartIndex, taskEndIndex + 1)]. *)
Definition task_events (all : list EventNotification) (task : TaskInfo)
    : option (list EventNotification) :=
  match t_startEventIndex task with
  | None => None
  | Some taskStartIndex =>
      let stop :=
        match t_endEventIndex task with
        | Some taskEndIndex => S taskEndIndex
        | None => length all
        end in
      Some (take (stop - taskStartIndex) (drop taskStartIndex all))
  end.

Definition getTaskNodes (all : list EventNotification) (task : TaskInfo)
    : list NodeInfo :=
  match task_events all task with
  | None => []
  | Some taskEvents =>
      ns_nodes (fold_left (node_step (t_task_id task)) taskEvents
                  node_scan_init)
  end.

(** *** [getTasks] *)

Section GetTasks.
Variable getTime : string → option Z.

(** The local variables of the first loop of [getTasks]; of [taskMap] only
    the keys are ever asked for. *)
Record TaskScan := {
  ts_tasks : list TaskInfo;
  ts_taskMap : gset string }.

(** [`${uuid}_${taskId}`]. *)
Definition taskKey (uuid : string) (taskId : option Z) : string :=
  uuid +:+ "_" +:+ show_num taskId.

Definition new_task (taskId : Z) (uuid : string) (i : nat)
    (event : EventNotification) : TaskInfo :=
  let details := ev_details event in
  {| t_task_id := taskId;
     t_entry := intern (or_str (d_entry details) "");
     t_hash := intern (or_str (d_hash details) "");
     t_uuid := intern uuid;
     t_start_time := intern (ev_timestamp event);
     t_end_time := None;
     t_status := running;
     t_nodes := [];
     t_duration := None;
     t_startEventIndex := Some i;
     t_endEventIndex := None |}.

(** The branch of [Tasker.Task.Starting]. *)
Definition on_task_starting (i : nat) (event : EventNotification)
    (st : TaskScan) : TaskScan :=
  let details := ev_details event in
  let taskId := d_task_id details in
  let uuid := or_str (d_uuid details) "" in
  let key := taskKey uuid taskId in
  match taskId with
  | Some id =>
      if truthy_num id && negb (bool_decide (key ∈ ts_taskMap st)) then
        {| ts_tasks := ts_tasks st ++ [new_task id uuid i event];
           ts_taskMap := {[key]} ∪ ts_taskMap st |}
      else st
  | None => st
  end.

(** [uuid && uuid.trim() !== ''], giving the uuid to match on. *)
Definition usable_uuid (uuid : option string) : option string :=
  match uuid with
  | Some u =>
      if truthy_str u && negb (String.eqb (trim u) "") then Some u else None
  | None => None
  end.

(** The predicate handed to [tasks.find] on a close event.  [t.task_id] is
    a number, so it never equals an [undefined] [taskId]. *)
Definition closes (details : Details) (t : TaskInfo) : bool :=
  match usable_uuid (d_uuid details) with
  | Some uuid => String.eqb (t_uuid t) uuid && negb (has_end_time t)
  | None =>
      match d_task_id details with
      | Some taskId => Z.eqb (t_task_id t) taskId && negb (has_end_time t)
      | None => false
      end
  end.

(** The updates made to [matchedTask]. *)
Definition close_task (i : nat) (event : EventNotification)
    (t : TaskInfo) : TaskInfo :=
  let end_time := intern (ev_timestamp event) in
  {| t_task_id := t_task_id t;
     t_entry := t_entry t;
     t_hash := t_hash t;
     t_uuid := t_uuid t;
     t_start_time := t_start_time t;
     t_end_time := Some end_time;
     t_status := if String.eqb (ev_message event) "Tasker.Task.Succeeded"
                 then succeeded else task_failed;
     t_nodes := t_nodes t;
     t_duration :=
       if truthy_str (t_start_time t) && truthy_str end_time
       then Some (sub_ms (getTime end_time) (getTime (t_start_time t)))
       else t_duration t;
     t_startEventIndex := t_startEventIndex t;
     t_endEventIndex := Some i |}.

(** [f] applied to the first element that satisfies [p]: what the source
    does by mutating the object [find] returns. *)
Fixpoint update_first {A} (p : A → bool) (f : A → A) (l : list A) : list A :=
  match l with
  | [] => []
  | x :: l' => if p x then f x :: l' else x :: update_first p f l'
  end.

(** The branch of [Tasker.Task.Succeeded] and [Tasker.Task.Failed]. *)
Definition on_task_closed (i : nat) (event : EventNotification)
    (st : TaskScan) : TaskScan :=
  {| ts_tasks := update_first (closes (ev_details event))
                   (close_task i event) (ts_tasks st);
     ts_taskMap := ts_taskMap st |}.

Definition task_step (i : nat) (event : EventNotification)
    (st : TaskScan) : TaskScan :=
  let message := ev_message event in
  if String.eqb message "Tasker.Task.Starting" then
    on_task_starting i event st
  else if is_one_of message "Tasker.Task.Succeeded" "Tasker.Task.Failed" then
    on_task_closed i event st
  else st.

(** [for (let i = ...; i < this.events.length; i++)], from index [i] on. *)
Fixpoint task_loop (i : nat) (evs : list EventNotification)
    (st : TaskScan) : TaskScan :=
  match evs with
  | [] => st
  | event :: evs' => task_loop (S i) evs' (task_step i event st)
  end.

Definition discover_tasks (all : list EventNotification) : list TaskInfo :=
  ts_tasks (task_loop 0 all {| ts_tasks := []; ts_taskMap := ∅ |}).

(** The body of the second loop: the nodes of the task, and the duration
    of a task still running. *)
Definition attach_nodes (all : list EventNotification) (task : TaskInfo)
    : TaskInfo :=
  let nodes := getTaskNodes all task in
  {| t_task_id := t_task_id task;
     t_entry := t_entry task;
     t_hash := t_hash task;
     t_uuid := t_uuid task;
     t_start_time := t_start_time task;
     t_end_time := t_end_time task;
     t_status := t_status task;
     t_nodes := nodes;
     t_duration :=
       match t_status task, last nodes with
       | running, Some lastNode =>
           Some (sub_ms (getTime (n_timestamp lastNode))
                        (getTime (t_start_time task)))
       | _, _ => t_duration task
       end;
     t_startEventIndex := t_startEventIndex task;
     t_endEventIndex := t_endEventIndex task |}.

Definition is_post_stop (task : TaskInfo) : bool :=
  String.eqb (t_entry task) "MaaTaskerPostStop".

(** [getTasks()]: the returned tasks and the parser afterwards, its event
    buffer released. *)
Definition getTasks (p : Parser) : list TaskInfo * Parser :=
  let tasks := attach_nodes (events p) <$> discover_tasks (events p) in
  (List.filter (λ task, negb (is_post_stop task)) tasks,
   {| events := [];
      processIds := processIds p;
      threadIds := threadIds p;
      taskProcessMap := taskProcessMap p;
      taskThreadMap := taskThreadMap p |}).

End GetTasks.

End LogParser.

(** ** [NodeStatisticsAnalyzer] *)

Module NodeStatisticsAnalyzer.
Import JS Types.

(** A row of [analyze]. *)
Record NodeStatistics := {
  name : string;
  count : nat;
  totalDuration : option Z;
  avgDuration : option Q;
  minDuration : option Z;
  maxDuration : option Z;
  successCount : nat;
  failCount : nat;
  successRate : option Q;
  durations : list (option Z) }.

(** A row of [analyzeRecognitionAction]. *)
Record RecognitionActionStatistics := {
  ras_name : string;
  ras_count : nat;
  avgRecognitionDuration : option Q;
  minRecognitionDuration : option Z;
  maxRecognitionDuration : option Z;
  totalRecognitionDuration : option Z;
  recognitionCount : nat;
  avgActionDuration : option Q;
  minActionDuration : option Z;
  maxActionDuration : option Z;
  totalActionDuration : option Z;
  actionCount : nat;
  avgRecognitionAttempts : option Q;
  totalRecognitionAttempts : nat;
  ras_successCount : nat;
  ras_failCount : nat;
  ras_successRate : option Q }.

(** An entry of the [statsMap] of [analyze]. *)
Record NodeAcc := {
  acc_durations : list (option Z);
  acc_successCount : nat;
  acc_failCount : nat }.

(** An entry of the [statsMap] of [analyzeRecognitionAction]. *)
Record PhaseAcc := {
  pa_recognitionDurations : list (option Z);
  pa_actionDurations : list (option Z);
  pa_recognitionAttempts : list nat;
  pa_successCount : nat;
  pa_failCount : nat }.

(** [if (!statsMap.has(k)) statsMap.set(k, fresh); f(statsMap.get(k))] on a
    [Map] kept in insertion order. *)
Fixpoint upsert {S} (fresh : S) (f : S → S) (k : string)
    (m : list (string * S)) : list (string * S) :=
  match m with
  | [] => [(k, f fresh)]
  | (k', s) :: m' =>
      if String.eqb k' k then (k', f s) :: m'
      else (k', s) :: upsert fresh f k m'
  end.

Definition one_hour : Z := 3600000.

(** [(successCount / total) * 100]. *)
Definition rate (s total : nat) : option Q :=
  mul_q (div_q (of_nat s) (of_nat total)) (Some (inject_Z 100)).

Section Analyze.
Variable getTime : string → option Z.

(** *** [analyze] *)

Definition fresh_node_acc : NodeAcc :=
  {| acc_durations := []; acc_successCount := 0; acc_failCount := 0 |}.

Definition add_sample (duration : option Z) (status : NodeStatus)
    (stats : NodeAcc) : NodeAcc :=
  {| acc_durations := acc_durations stats ++ [duration];
     acc_successCount :=
       match status with
       | success => S (acc_successCount stats)
       | failed => acc_successCount stats
       end;
     acc_failCount :=
       match status with
       | success => acc_failCount stats
       | failed => S (acc_failCount stats)
       end |}.

(** The duration of [node]: up to the next node, or up to the end of the
    task for the last one; [None] when the node is skipped. *)
Definition node_duration (end_time : option string) (node : NodeInfo)
    (rest : list NodeInfo) : option (option Z) :=
  match rest with
  | nextNode :: _ =>
      Some (sub_ms (getTime (n_timestamp nextNode))
                   (getTime (n_timestamp node)))
  | [] =>
      match end_time with
      | Some e =>
          if truthy_str e
          then Some (sub_ms (getTime e) (getTime (n_timestamp node)))
          else None
      | None => None
      end
  end.

(** [duration < 0 || duration > 3600000]. *)
Definition is_outlier (duration : option Z) : bool :=
  num_lt duration 0 || num_gt duration one_hour.

(** The inner loop over [task.nodes]. *)
Fixpoint scan_nodes (end_time : option string) (nodes : list NodeInfo)
    (statsMap : list (string * NodeAcc)) : list (string * NodeAcc) :=
  match nodes with
  | [] => statsMap
  | node :: rest =>
      match node_duration end_time node rest with
      | None => scan_nodes end_time rest statsMap
      | Some duration =>
          if is_outlier duration then scan_nodes end_time rest statsMap
          else scan_nodes end_time rest
                 (upsert fresh_node_acc (add_sample duration (n_status node))
                    (n_name node) statsMap)
      end
  end.

Definition scan_task (statsMap : list (string * NodeAcc)) (task : TaskInfo)
    : list (string * NodeAcc) :=
  scan_nodes (t_end_time task) (t_nodes task) statsMap.

(** The row of one entry of [statsMap], none if it has no duration. *)
Definition node_row (entry : string * NodeAcc) : option NodeStatistics :=
  let '(name, stats) := entry in
  let durations := acc_durations stats in
  let count := length durations in
  match count with
  | O => None
  | _ =>
      let totalDuration := sum_ms durations in
      Some {| name := name;
              count := count;
              totalDuration := totalDuration;
              avgDuration := div_q (of_ms totalDuration) (of_nat count);
              minDuration := min_ms durations;
              maxDuration := max_ms durations;
              successCount := acc_successCount stats;
              failCount := acc_failCount stats;
              successRate :=
                rate (acc_successCount stats)
                     (acc_successCount stats + acc_failCount stats);
              durations := durations |}
  end.

(** [(a, b) => b.avgDuration - a.avgDuration]. *)
Definition by_avg_desc (a b : NodeStatistics) : comparison :=
  sort_sign (sub_q (avgDuration b) (avgDuration a)).

Definition analyze (tasks : list TaskInfo) : list NodeStatistics :=
  let statsMap := fold_left scan_task tasks [] in
  sort by_avg_desc (omap node_row statsMap).

(** *** [analyzeRecognitionAction] *)

Definition fresh_phase_acc : PhaseAcc :=
  {| pa_recognitionDurations := []; pa_actionDurations := [];
     pa_recognitionAttempts := []; pa_successCount := 0;
     pa_failCount := 0 |}.

(** [d >= 0 && d < 3600000]. *)
Definition in_range (d : option Z) : bool :=
  num_ge d 0 && num_lt d one_hour.

(** The updates made to the entry of a node with attempts [first :: more]. *)
Definition add_phases (node : NodeInfo) (first : RecognitionAttempt)
    (more : list RecognitionAttempt) (stats : PhaseAcc) : PhaseAcc :=
  let attempts := first :: more in
  let firstAttemptTime := getTime (ra_timestamp first) in
  let lastAttemptTime := getTime (ra_timestamp (List.last more first)) in
  let recognitionDuration := sub_ms lastAttemptTime firstAttemptTime in
  let nodeCompleteTime := getTime (n_timestamp node) in
  let actionDuration := sub_ms nodeCompleteTime lastAttemptTime in
  {| pa_recognitionDurations :=
       if (1 <? length attempts)%nat && in_range recognitionDuration
       then pa_recognitionDurations stats ++ [recognitionDuration]
       else pa_recognitionDurations stats;
     pa_actionDurations :=
       if in_range actionDuration
       then pa_actionDurations stats ++ [actionDuration]
       else pa_actionDurations stats;
     pa_recognitionAttempts :=
       pa_recognitionAttempts stats ++ [length attempts];
     pa_successCount :=
       match n_status node with
       | success => S (pa_successCount stats)
       | failed => pa_successCount stats
       end;
     pa_failCount :=
       match n_status node with
       | success => pa_failCount stats
       | failed => S (pa_failCount stats)
       end |}.

Definition scan_phase_node (statsMap : list (string * PhaseAcc))
    (node : NodeInfo) : list (string * PhaseAcc) :=
  match n_recognition_attempts node with
  | [] => statsMap
  | first :: more =>
      upsert fresh_phase_acc (add_phases node first more) (n_name node)
        statsMap
  end.

Definition scan_phase_task (statsMap : list (string * PhaseAcc))
    (task : TaskInfo) : list (string * PhaseAcc) :=
  fold_left scan_phase_node (t_nodes task) statsMap.

(** [n > 0 ? total / n : 0]. *)
Definition avg_or_zero (total : option Z) (n : nat) : option Q :=
  match n with
  | O => Some (inject_Z 0)
  | _ => div_q (of_ms total) (of_nat n)
  end.

(** [n > 0 ? Math.min(...xs) : 0], and the same for [Math.max]. *)
Definition extreme_or_zero (f : list (option Z) → option Z)
    (xs : list (option Z)) : option Z :=
  match xs with
  | [] => Some 0
  | _ => f xs
  end.

Definition phase_row (entry : string * PhaseAcc)
    : option RecognitionActionStatistics :=
  let '(name, stats) := entry in
  let count := (pa_successCount stats + pa_failCount stats)%nat in
  match count with
  | O => None
  | _ =>
      let recognitionDurations := pa_recognitionDurations stats in
      let recognitionCount := length recognitionDurations in
      let totalRecognitionDuration := sum_ms recognitionDurations in
      let actionDurations := pa_actionDurations stats in
      let actionCount := length actionDurations in
      let totalActionDuration := sum_ms actionDurations in
      let totalRecognitionAttempts :=
        fold_left Nat.add (pa_recognitionAttempts stats) O in
      Some {| ras_name := name;
              ras_count := count;
              avgRecognitionDuration :=
                avg_or_zero totalRecognitionDuration recognitionCount;
              minRecognitionDuration :=
                extreme_or_zero min_ms recognitionDurations;
              maxRecognitionDuration :=
                extreme_or_zero max_ms recognitionDurations;
              totalRecognitionDuration := totalRecognitionDuration;
              recognitionCount := recognitionCount;
              avgActionDuration :=
                avg_or_zero totalActionDuration actionCount;
              minActionDuration := extreme_or_zero min_ms actionDurations;
              maxActionDuration := extreme_or_zero max_ms actionDurations;
              totalActionDuration := totalActionDuration;
              actionCount := actionCount;
              avgRecognitionAttempts :=
                div_q (of_nat totalRecognitionAttempts)
                      (of_nat (length (pa_recognitionAttempts stats)));
              totalRecognitionAttempts := totalRecognitionAttempts;
              ras_successCount := pa_successCount stats;
              ras_failCount := pa_failCount stats;
              ras_successRate := rate (pa_successCount stats) count |}
  end.

(** [(a, b) => b.avgActionDuration - a.avgActionDuration]. *)
Definition by_avg_action_desc (a b : RecognitionActionStatistics)
    : comparison :=
  sort_sign (sub_q (avgActionDuration b) (avgActionDuration a)).

Definition analyzeRecognitionAction (tasks : list TaskInfo)
    : list RecognitionActionStatistics :=
  let statsMap := fold_left scan_phase_task tasks [] in
  sort by_avg_action_desc (omap phase_row statsMap).

End Analyze.

End NodeStatisticsAnalyzer.

(** * The vocabulary of the properties *)

Module Order.


End Order.

Module AnalyzerInv.
Import JS Types NodeStatisticsAnalyzer.

(** What every entry of the [statsMap] of [analyze] satisfies. *)
Definition node_acc_ok (stats : NodeAcc) : Prop :=
  length (acc_durations stats)
    = (acc_successCount stats + acc_failCount stats)%nat
  ∧ ∀ z, Some z ∈ acc_durations stats → 0 ≤ z ≤ one_hour.

(** A number at least 0 and below one hour. *)
Definition below_one_hour (d : option Z) : Prop :=
  ∃ z, d = Some z ∧ 0 ≤ z < one_hour.

(** What every entry of the [statsMap] of [analyzeRecognitionAction]
    satisfies. *)
Definition phase_acc_ok (stats : PhaseAcc) : Prop :=
  Forall below_one_hour (pa_recognitionDurations stats)
  ∧ Forall below_one_hour (pa_actionDurations stats).


End AnalyzerInv.

(** ** A sample forest, and a clock for its timestamps *)

Module Sample.
Import JS Types.

(** The readings of [new Date(s).getTime()] on the timestamps used below
    (read as UTC). *)
Definition clock (s : string) : option Z :=
  if String.eqb s "2025-01-01 09:59:59.000" then Some 1735725599000
  else if String.eqb s "2025-01-01 10:00:00.000" then Some 1735725600000
  else if String.eqb s "2025-01-01 11:00:00.000" then Some 1735729200000
  else if String.eqb s "2025-01-01 11:00:01.000" then Some 1735729201000
  else None.

Definition attempt_at (ts : string) : RecognitionAttempt :=
  {| ra_reco_id := Some 1; ra_name := "A"; ra_timestamp := ts;
     ra_status := success; ra_reco_details := None;
     ra_nested_nodes := None |}.

Definition node_at (id : Z) (nm ts : string) (status : NodeStatus)
    (attempts : list RecognitionAttempt) : NodeInfo :=
  {| n_node_id := id; n_name := nm; n_timestamp := ts; n_status := status;
     n_task_id := 1; n_reco_details := None; n_action_details := None;
     n_focus := None; n_next_list := [];
     n_recognition_attempts := attempts;
     n_nested_action_nodes := None;
     n_nested_recognition_in_action := None; n_node_details := None |}.

(** One finished task: node [A] completes at 10:00:00 after one recognition
    at 09:59:59, node [B] completes exactly one hour later, and the task
    ends one second after that. *)
Definition hour_forest : list TaskInfo :=
  [ {| t_task_id := 1; t_entry := "Main"; t_hash := ""; t_uuid := "a";
       t_start_time := "2025-01-01 09:59:59.000";
       t_end_time := Some "2025-01-01 11:00:01.000";
       t_status := succeeded;
       t_nodes :=
         [ node_at 10 "A" "2025-01-01 10:00:00.000" success
             [attempt_at "2025-01-01 09:59:59.000"];
           node_at 11 "B" "2025-01-01 11:00:00.000" failed [] ];
       t_duration := Some (Some 3602000);
       t_startEventIndex := Some 0%nat;
       t_endEventIndex := Some 5%nat |} ].

End Sample.

Module SampleRows.
Import NodeStatisticsAnalyzer.

Definition row_A : NodeStatistics :=
  {| name := "A"; count := 1; totalDuration := Some 3600000;
     avgDuration := Some (3600000 # 1)%Q; minDuration := Some 3600000;
     maxDuration := Some 3600000; successCount := 1; failCount := 0;
     successRate := Some (100 # 1)%Q; durations := [Some 3600000] |}.

Definition row_B : NodeStatistics :=
  {| name := "B"; count := 1; totalDuration := Some 1000;
     avgDuration := Some (1000 # 1)%Q; minDuration := Some 1000;
     maxDuration := Some 1000; successCount := 0; failCount := 1;
     successRate := Some (0 # 1)%Q; durations := [Some 1000] |}.

Definition phase_row_A : RecognitionActionStatistics :=
  {| ras_name := "A"; ras_count := 1;
     avgRecognitionDuration := Some (0 # 1)%Q;
     minRecognitionDuration := Some 0; maxRecognitionDuration := Some 0;
     totalRecognitionDuration := Some 0; recognitionCount := 0;
     avgActionDuration := Some (1000 # 1)%Q;
     minActionDuration := Some 1000; maxActionDuration := Some 1000;
     totalActionDuration := Some 1000; actionCount := 1;
     avgRecognitionAttempts := Some (1 # 1)%Q;
     totalRecognitionAttempts := 1; ras_successCount := 1;
     ras_failCount := 0; ras_successRate := Some (100 # 1)%Q |}.

End SampleRows.

(** ** Event sequences of the scenarios *)

Module Scenario.
Import JS Types LogParser.

(** [this.events = evs]. *)
Definition load (evs : list EventNotification) (p : Parser) : Parser :=
  {| events := evs;
     processIds := processIds p;
     threadIds := threadIds p;
     taskProcessMap := taskProcessMap p;
     taskThreadMap := taskThreadMap p |}.

Definition event (ts msg : string) (details : Details) : EventNotification :=
  {| ev_timestamp := ts; ev_level := "INF"; ev_message := msg;
     ev_details := details; ev_lineNumber := 0 |}.

(** [{task_id, uuid}], the [uuid] possibly left out. *)
Definition task_details (task_id : Z) (uuid : option string) : Details :=
  {| d_task_id := Some task_id; d_uuid := uuid; d_entry := None;
     d_hash := None; d_node_id := None; d_reco_id := None;
     d_action_id := None; d_name := None; d_list := None;
     d_reco_details := None; d_action_details := None;
     d_node_details := None; d_focus := None |}.

(** [{task_id, node_id, name}]. *)
Definition node_details (task_id node_id : Z) (nm : string) : Details :=
  {| d_task_id := Some task_id; d_uuid := None; d_entry := None;
     d_hash := None; d_node_id := Some node_id; d_reco_id := None;
     d_action_id := None; d_name := Some nm; d_list := None;
     d_reco_details := None; d_action_details := None;
     d_node_details := None; d_focus := None |}.

(** The round trip: a task starts, one node completes, the task succeeds. *)
Definition round_trip (ts0 ts1 ts2 : string) : list EventNotification :=
  [ event ts0 "Tasker.Task.Starting" (task_details 1 (Some "a"));
    event ts1 "Node.PipelineNode.Succeeded" (node_details 1 10 "X");
    event ts2 "Tasker.Task.Succeeded" (task_details 1 (Some "a")) ].

(** Two starts of task 5 with the uuids [u1] and [u2], then two closes of
    task 5 that carry no uuid. *)
Definition two_starts (u1 u2 ts0 ts1 ts2 ts3 : string)
    : list EventNotification :=
  [ event ts0 "Tasker.Task.Starting" (task_details 5 (Some u1));
    event ts1 "Tasker.Task.Starting" (task_details 5 (Some u2));
    event ts2 "Tasker.Task.Succeeded" (task_details 5 None);
    event ts3 "Tasker.Task.Succeeded" (task_details 5 None) ].

End Scenario.

(** ** The owner maps *)

Module Owners.
Import JS Types LogParser.

(** The task id and the process and thread ids of a line that [parseFile]
    takes for a [Tasker.Task.Starting] notification with a [task_id] that
    is present and not 0. *)
Definition starting_owner (r : RawLine) : option (Z * (string * string)) :=
  if truthy_str (rawLine r) && includes (rawLine r) marker then
    match decoded r with
    | Some l =>
        match ll_msg l, ll_details l with
        | Some msg, Some details =>
            if includes (ll_message l) marker
               && String.eqb msg "Tasker.Task.Starting"
            then
              match d_task_id details with
              | Some taskId =>
                  if truthy_num taskId
                  then Some (taskId, (ll_processId l, ll_threadId l))
                  else None
              | None => None
              end
            else None
        | _, _ => None
        end
    | None => None
    end
  else None.

Definition owner_of (taskId : Z) (r : RawLine) : option (string * string) :=
  match starting_owner r with
  | Some (t, o) => if Z.eqb t taskId then Some o else None
  | None => None
  end.

(** The process and thread ids of the first such line for [taskId]. *)
Definition first_owner (taskId : Z) (content : list RawLine)
    : option (string * string) :=
  head (omap (owner_of taskId) content).

(** The same with a [task_id] that is merely present: the reading of the
    claim before its amendment. *)
Definition starting_with_task_id (r : RawLine)
    : option (Z * (string * string)) :=
  if truthy_str (rawLine r) && includes (rawLine r) marker then
    match decoded r with
    | Some l =>
        match ll_msg l, ll_details l with
        | Some msg, Some details =>
            if includes (ll_message l) marker
               && String.eqb msg "Tasker.Task.Starting"
            then
              match d_task_id details with
              | Some taskId =>
                  Some (taskId, (ll_processId l, ll_threadId l))
              | None => None
              end
            else None
        | _, _ => None
        end
    | None => None
    end
  else None.

(** The two maps hold the same keys, each once. *)
Definition maps_ok (p : Parser) : Prop :=
  NoDup (taskProcessMap p).*1
  ∧ (taskThreadMap p).*1 = (taskProcessMap p).*1.

End Owners.

(** ** Sample log lines *)

Module SampleLog.
Import JS Types LogParser.

(** The double-quote character. *)
Definition dq : string := String (Ascii.ascii_of_nat 34) EmptyString.

(** A JSON member with a number for value, and one with a string. *)
Definition num_field (k v : string) : string := dq +:+ k +:+ dq +:+ ":" +:+ v.
Definition str_field (k v : string) : string :=
  dq +:+ k +:+ dq +:+ ":" +:+ dq +:+ v +:+ dq.

(** The text of a [Tasker.Task.Starting] notification written by process
    [pid] and thread [tid], and what the line decoder makes of it. *)
Definition starting_text (ts pid tid body : string) : string :=
  "[" +:+ ts +:+ "][INF][" +:+ pid +:+ "][" +:+ tid
  +:+ "] !!!OnEventNotify!!! [msg=Tasker.Task.Starting] [details={"
  +:+ body +:+ "}]".

Definition starting_line (n : nat) (ts pid tid body : string)
    (details : Details) : RawLine :=
  {| rawLine := starting_text ts pid tid body;
     decoded :=
       Some {| ll_timestamp := ts; ll_level := "INF"; ll_processId := pid;
               ll_threadId := tid; ll_message := "!!!OnEventNotify!!!";
               ll_msg := Some "Tasker.Task.Starting";
               ll_details := Some details; ll_lineNumber := n |} |}.

Definition start_details (entry : string) (task_id : Z) : Details :=
  {| d_task_id := Some task_id; d_uuid := None; d_entry := Some entry;
     d_hash := None; d_node_id := None; d_reco_id := None;
     d_action_id := None; d_name := None; d_list := None;
     d_reco_details := None; d_action_details := None;
     d_node_details := None; d_focus := None |}.


(** A log that starts task 0. *)
Definition task_zero_log : list RawLine :=
  [ starting_line 1 "2025-01-01 09:59:59.000" "Px1" "Tx1"
      (str_field "entry" "Main" +:+ "," +:+ num_field "task_id" "0")
      (start_details "Main" 0) ].

(** Task 7 is started by [Px1]/[Tx1]; the notification is then relayed by
    [Px2]/[Tx2]. *)
Definition relayed_log : list RawLine :=
  [ starting_line 1 "2025-01-01 09:59:59.000" "Px1" "Tx1"
      (str_field "entry" "Main" +:+ "," +:+ num_field "task_id" "7")
      (start_details "Main" 7) ].

Definition relay : list RawLine :=
  [ starting_line 2 "2025-01-01 10:00:00.000" "Px2" "Tx2"
      (str_field "entry" "Main" +:+ "," +:+ num_field "task_id" "7")
      (start_details "Main" 7) ].

End SampleLog.

(** ** Task keys *)

Module Keys.
Import JS Types LogParser.

(** [c] does not occur in [s]. *)
Fixpoint free_of (c : Ascii.ascii) (s : string) : bool :=
  match s with
  | EmptyString => true
  | String a s' => negb (Ascii.eqb a c) && free_of c s'
  end.

(** The key under which a task is entered in [taskMap]. *)
Definition key_of (t : TaskInfo) : string :=
  taskKey (t_uuid t) (Some (t_task_id t)).

(** The key a [Tasker.Task.Starting] event computes. *)
Definition event_key (event : EventNotification) : string :=
  taskKey (or_str (d_uuid (ev_details event)) "")
          (d_task_id (ev_details event)).

(** [details.task_id] is absent or 0. *)
Definition no_task_id (event : EventNotification) : Prop :=
  d_task_id (ev_details event) = None
  ∨ d_task_id (ev_details event) = Some 0.

(** [details.node_id] is absent or 0. *)
Definition no_node_id (event : EventNotification) : Prop :=
  d_node_id (ev_details event) = None
  ∨ d_node_id (ev_details event) = Some 0.

End Keys.

(** ** The first loop of [getTasks] *)

Module TaskInv.
Import JS Types LogParser Keys.

(** The keys in [taskMap] are those of the tasks, each the key of one task
    only. *)
Definition keys_ok (st : TaskScan) : Prop :=
  NoDup (key_of <$> ts_tasks st)
  ∧ ∀ k, k ∈ ts_taskMap st ↔ k ∈ key_of <$> ts_tasks st.

(** The state of the first loop of [getTasks] after the events [evs]. *)
Definition discovered (getTime : string → option Z)
    (evs : list EventNotification) : TaskScan :=
  task_loop getTime 0 evs {| ts_tasks := []; ts_taskMap := ∅ |}.

(** A task comes from a [Tasker.Task.Starting] event of [all] whose
    [task_id] is its own and is not 0. *)
Definition origin_ok (all : list EventNotification) (t : TaskInfo) : Prop :=
  t_task_id t ≠ 0
  ∧ ∃ i event,
      t_startEventIndex t = Some i
      ∧ all !! i = Some event
      ∧ ev_message event = "Tasker.Task.Starting"
      ∧ d_task_id (ev_details event) = Some (t_task_id t).

End TaskInv.

(** ** The event loop of [getTaskNodes] *)

Module NodeInv.
Import JS Types LogParser.

(** The ids in [nodeIdSet] are those of the nodes built so far, no two of
    which share one, and none of which is 0. *)
Definition nodes_ok (st : NodeScan) : Prop :=
  NoDup (n_node_id <$> ns_nodes st)
  ∧ (∀ n, n ∈ ns_nodeIdSet st ↔ n ∈ n_node_id <$> ns_nodes st)
  ∧ Forall (λ n, n_node_id n ≠ 0) (ns_nodes st).

(** The state of the loop of [getTaskNodes] for task [task_id] after the
    events [evs]. *)
Definition scan (task_id : Z) (evs : list EventNotification) : NodeScan :=
  fold_left (node_step task_id) evs node_scan_init.

End NodeInv.

(** ** A log with relayed duplicates and ids that are 0 *)

Module Noisy.
Import JS Types LogParser Scenario.

(** The start of task 1, and the completion of its node 10. *)
Definition start_1 (ts : string) : EventNotification :=
  event ts "Tasker.Task.Starting" (task_details 1 (Some "a")).
Definition node_10 (ts : string) : EventNotification :=
  event ts "Node.PipelineNode.Succeeded" (node_details 1 10 "X").

(** The start of a task with the id 0. *)
Definition start_0 (ts : string) : EventNotification :=
  event ts "Tasker.Task.Starting" (task_details 0 None).

(** Task 0 is announced; task 1 starts, completes a node with the id 0,
    then node 10, whose completion is delivered twice; the start of task 1
    is delivered a second time; task 1 succeeds. *)
Definition noisy : list EventNotification :=
  [ start_0 "2025-01-01 09:59:59.000";
    start_1 "2025-01-01 09:59:59.000";
    event "2025-01-01 10:00:00.000" "Node.PipelineNode.Succeeded"
      (node_details 1 0 "Z");
    node_10 "2025-01-01 11:00:00.000";
    node_10 "2025-01-01 11:00:00.000";
    start_1 "2025-01-01 11:00:00.000";
    event "2025-01-01 11:00:01.000" "Tasker.Task.Succeeded"
      (task_details 1 (Some "a")) ].

Definition node_X : NodeInfo :=
  {| n_node_id := 10; n_name := "X";
     n_timestamp := "2025-01-01 11:00:00.000"; n_status := success;
     n_task_id := 1; n_reco_details := None; n_action_details := None;
     n_focus := None; n_next_list := []; n_recognition_attempts := [];
     n_nested_action_nodes := None;
     n_nested_recognition_in_action := None; n_node_details := None |}.

(** The one task [getTasks] makes of it. *)
Definition task_1 : TaskInfo :=
  {| t_task_id := 1; t_entry := ""; t_hash := ""; t_uuid := "a";
     t_start_time := "2025-01-01 09:59:59.000";
     t_end_time := Some "2025-01-01 11:00:01.000";
     t_status := succeeded; t_nodes := [node_X];
     t_duration := Some (Some 3602000);
     t_startEventIndex := Some 1%nat; t_endEventIndex := Some 6%nat |}.

End Noisy.

(** ** The derived views of [NodeStatisticsAnalyzer] *)

Module TopN.
Import JS Types NodeStatisticsAnalyzer.

(** [xs.slice(0, n)]: a negative [n] counts from the end. *)
Definition slice_to {A} (n : Z) (xs : list A) : list A :=
  if n <? 0 then take (Z.to_nat (Z.of_nat (length xs) + n)) xs
  else take (Z.to_nat n) xs.

(** [(a, b) => b.count - a.count]. *)
Definition by_count_desc (a b : NodeStatistics) : comparison :=
  (Z.of_nat (count b) - Z.of_nat (count a) ?= 0).

(** [s.failCount / s.count]. *)
Definition fail_ratio (s : NodeStatistics) : option Q :=
  div_q (of_nat (failCount s)) (of_nat (count s)).

(** [(a, b) => (b.failCount / b.count) - (a.failCount / a.count)]. *)
Definition by_fail_ratio_desc (a b : NodeStatistics) : comparison :=
  sort_sign (sub_q (fail_ratio b) (fail_ratio a)).

Section Views.
Variable getTime : string → option Z.

Definition getTopSlowest (tasks : list TaskInfo) (topN : Z)
    : list NodeStatistics :=
  slice_to topN (analyze getTime tasks).

Definition getTopFrequent (tasks : list TaskInfo) (topN : Z)
    : list NodeStatistics :=
  slice_to topN (sort by_count_desc (analyze getTime tasks)).

Definition getTopFailed (tasks : list TaskInfo) (topN : Z)
    : list NodeStatistics :=
  slice_to topN
    (sort by_fail_ratio_desc
       (List.filter (λ s, (0 <? failCount s)%nat) (analyze getTime tasks))).

End Views.

End TopN.

(** ** The samples the aggregation passes pool *)

Module Samples.
Import JS Types NodeStatisticsAnalyzer.

(** A duration kept for a node: the name and status of the node, and the
    duration. *)
Record Sample := {
  s_name : string;
  s_duration : option Z;
  s_status : NodeStatus }.

Section Kept.
Variable getTime : string → option Z.

(** The samples [analyze] keeps for the nodes of one task, in order. *)
Fixpoint node_samples (end_time : option string) (nodes : list NodeInfo)
    : list Sample :=
  match nodes with
  | [] => []
  | node :: rest =>
      match node_duration getTime end_time node rest with
      | Some duration =>
          if is_outlier duration then node_samples end_time rest
          else {| s_name := n_name node; s_duration := duration;
                  s_status := n_status node |}
               :: node_samples end_time rest
      | None => node_samples end_time rest
      end
  end.

(** The samples of a forest, task after task. *)
Definition forest_samples (tasks : list TaskInfo) : list Sample :=
  tasks ≫= λ task, node_samples (t_end_time task) (t_nodes task).

(** Every timestamp of the forest is one [Date] reads. *)
Definition readable (tasks : list TaskInfo) : Prop :=
  Forall (λ task,
            Forall (λ node, is_Some (getTime (n_timestamp node)))
                   (t_nodes task)
            ∧ ∀ e, t_end_time task = Some e → is_Some (getTime e))
         tasks.

End Kept.

(** [statsMap.get(k)]. *)
Definition assoc {S} (k : string) (m : list (string * S)) : option S :=
  snd <$> List.find (λ e, String.eqb (fst e) k) m.

(** What [analyze] does to [statsMap] with a kept sample. *)
Definition record_sample (m : list (string * NodeAcc)) (s : Sample)
    : list (string * NodeAcc) :=
  upsert fresh_node_acc (add_sample (s_duration s) (s_status s))
    (s_name s) m.

(** The samples named [k]. *)
Definition named (k : string) (samples : list Sample) : list Sample :=
  List.filter (λ s, String.eqb (s_name s) k) samples.

(** The number of samples with the status [status]. *)
Definition count_status (status : NodeStatus) (samples : list Sample) : nat :=
  length (List.filter (λ s, match s_status s, status with
                            | success, success | failed, failed => true
                            | _, _ => false
                            end) samples).

(** The key of [b] is a number not above the key of [a], a number too. *)
Definition not_above {A} (key : A → option Q) (a b : A) : Prop :=
  ∃ x y, key a = Some x ∧ key b = Some y ∧ (y <= x)%Q.

(** Row [a] is at least as slow, on average, as row [b]. *)
Definition slower_or_equal : NodeStatistics → NodeStatistics → Prop :=
  not_above avgDuration.


(** Row [a] fails at least as often, in proportion, as row [b]. *)
Definition fails_more_or_equal : NodeStatistics → NodeStatistics → Prop :=
  not_above TopN.fail_ratio.

(** Row [a] has at least as many samples as row [b]. *)
Definition more_frequent_or_equal (a b : NodeStatistics) : Prop :=
  (count b ≤ count a)%nat.

(** What the counters of an entry of the map of
    [analyzeRecognitionAction] satisfy: one attempt count, at least 1, per
    node counted, and at most one duration of each phase per node. *)
Definition phase_counts_ok (stats : PhaseAcc) : Prop :=
  length (pa_recognitionAttempts stats)
  = (pa_successCount stats + pa_failCount stats)%nat
  ∧ Forall (λ n, (1 ≤ n)%nat) (pa_recognitionAttempts stats)
  ∧ (length (pa_recognitionDurations stats)
     ≤ pa_successCount stats + pa_failCount stats)%nat
  ∧ (length (pa_actionDurations stats)
     ≤ pa_successCount stats + pa_failCount stats)%nat.

(** Some node of the forest is named [k] and has a recognition attempt. *)
Definition attempted (tasks : list TaskInfo) (k : string) : Prop :=
  ∃ task node, task ∈ tasks ∧ node ∈ t_nodes task ∧ n_name node = k
               ∧ n_recognition_attempts node ≠ [].

End Samples.

(** ** The vocabulary of the reconstruction *)

Module Recon.
Import JS Types LogParser.

(** A [Tasker.Task.Starting] event with a task id other than 0. *)
Definition is_start (event : EventNotification) : bool :=
  String.eqb (ev_message event) "Tasker.Task.Starting"
  && match d_task_id (ev_details event) with
     | Some id => truthy_num id
     | None => false
     end.

(** A [Tasker.Task.Succeeded] or [Tasker.Task.Failed] event. *)
Definition is_close (event : EventNotification) : bool :=
  is_one_of (ev_message event) "Tasker.Task.Succeeded" "Tasker.Task.Failed".

(** The status a close event gives. *)
Definition closed_status (event : EventNotification) : TaskStatus :=
  if String.eqb (ev_message event) "Tasker.Task.Succeeded"
  then succeeded else task_failed.

(** [a] and [b] are indices, [a] before [b]. *)
Definition index_before (a b : option nat) : Prop :=
  ∃ x y, a = Some x ∧ b = Some y ∧ (x < y)%nat.

(** The state of a task against the events [all] of which the first
    [bound] have been seen: it started at one of them, and either it is
    running and has no end, or it was closed by a later close event that
    gave it its end time and its status. *)
Definition task_wf (all : list EventNotification) (bound : nat)
    (t : TaskInfo) : Prop :=
  ∃ s, t_startEventIndex t = Some s ∧ (s < bound)%nat
       ∧ match t_endEventIndex t with
         | None => t_status t = running ∧ t_end_time t = None
         | Some e =>
             (s < e < bound)%nat
             ∧ ∃ event, all !! e = Some event
                        ∧ is_close event = true
                        ∧ t_end_time t = Some (ev_timestamp event)
                        ∧ t_status t = closed_status event
         end.

(** The start indices of the tasks grow along the list, below the index of
    the loop. *)
Definition starts_sorted (i : nat) (st : TaskScan) : Prop :=
  StronglySorted index_before (t_startEventIndex <$> ts_tasks st)
  ∧ Forall (λ t, ∃ s, t_startEventIndex t = Some s ∧ (s < i)%nat)
           (ts_tasks st).

(** The duration of a task whose start and end times are not empty is the
    difference of their readings. *)
Definition duration_ok (getTime : string → option Z) (t : TaskInfo) : Prop :=
  (∀ e, t_end_time t = Some e → e ≠ "" → t_start_time t ≠ "" →
        t_duration t = Some (sub_ms (getTime e) (getTime (t_start_time t))))
  ∧ (t_endEventIndex t = None → t_duration t = None).

(** The node id of a completion event of a node of task [task_id], when it
    is not 0. *)
Definition completion_id (task_id : Z) (event : EventNotification)
    : option Z :=
  if is_one_of (ev_message event) "Node.PipelineNode.Succeeded"
       "Node.PipelineNode.Failed"
     && same_task (ev_details event) task_id
  then match d_node_id (ev_details event) with
       | Some n => if truthy_num n then Some n else None
       | None => None
       end
  else None.

(** The ids of [ids] not in [seen], each at its first occurrence. *)
Fixpoint first_seen (seen : gset Z) (ids : list Z) : list Z :=
  match ids with
  | [] => []
  | n :: ids' =>
      if bool_decide (n ∈ seen) then first_seen seen ids'
      else n :: first_seen ({[n]} ∪ seen) ids'
  end.

(** The events [getTaskNodes] reads for a task. *)
Definition slice (all : list EventNotification) (t : TaskInfo)
    : list EventNotification :=
  default [] (task_events all t).

(** Node [n] was built from the completion event [event] of task
    [task_id]. *)
Definition built_from (task_id : Z) (event : EventNotification)
    (n : NodeInfo) : Prop :=
  completion_id task_id event = Some (n_node_id n)
  ∧ n_task_id n = task_id
  ∧ n_timestamp n = ev_timestamp event
  ∧ n_status n = status_of (ev_message event) "Node.PipelineNode.Succeeded"
  ∧ n_name n = or_str (jname (d_node_details (ev_details event)))
                      (or_str (d_name (ev_details event)) "").

(** Attempt [a] was made from the recognition event [event] of task
    [task_id]. *)
Definition attempt_from (task_id : Z) (event : EventNotification)
    (a : RecognitionAttempt) : Prop :=
  is_one_of (ev_message event) "Node.Recognition.Succeeded"
    "Node.Recognition.Failed" = true
  ∧ same_task (ev_details event) task_id = true
  ∧ ra_timestamp a = ev_timestamp event
  ∧ ra_name a = or_str (d_name (ev_details event)) ""
  ∧ ra_status a = status_of (ev_message event) "Node.Recognition.Succeeded".

(** The attempts held for the node in flight, and those of the nodes
    built, were made from recognition events of [evs], and the nodes from
    completion events of [evs]. *)
Definition provenance (task_id : Z) (evs : list EventNotification)
    (st : NodeScan) : Prop :=
  Forall (λ a, ∃ event, event ∈ evs ∧ attempt_from task_id event a)
         (ns_recognitionAttempts st)
  ∧ Forall (λ n, (∃ event, event ∈ evs ∧ built_from task_id event n)
                 ∧ Forall (λ a, ∃ event, event ∈ evs
                                         ∧ attempt_from task_id event a)
                          (n_recognition_attempts n))
           (ns_nodes st).

(** The line as [parseFile] hands it to [parseLine]: none when it is
    blank. *)
Definition decoded_line (r : RawLine) : option LogLine :=
  if truthy_str (rawLine r) then decoded r else None.

(** The event a line gives, when [parseFile] keeps one for it. *)
Definition notification (r : RawLine) : option EventNotification :=
  if truthy_str (rawLine r) && includes (rawLine r) marker then
    match decoded r with
    | Some l =>
        match (parseEventNotification l new_parser).1 with
        | Returned (Some event) => Some event
        | _ => None
        end
    | None => None
    end
  else None.

(** The lines of which [parseLine] makes a record. *)
Definition decoded_lines (content : list RawLine) : list LogLine :=
  omap decoded_line content.

(** The registry [ids] after the lines [ls], [id] reading the id of a
    line. *)
Definition registered (id : LogLine → string) (ls : list LogLine)
    (ids : list string) : list string :=
  fold_left (λ s l, set_add (id l) s) ls ids.

End Recon.

(** ** The filters of [App.vue] *)

Module App.
Import JS Types LogParser.

(** An entry of a select box. *)
Record SelectOption := {
  label : string;
  value : string }.

Section Filters.
Variable tasks : list TaskInfo.
Variable parser : Parser.
Variables availableProcessIds availableThreadIds : list string.

(** [a === b] where [a] may be [undefined]. *)
Definition is_id (a : option string) (b : string) : bool :=
  match a with
  | Some x => String.eqb x b
  | None => false
  end.

(** The predicate of [filteredTasks]. *)
Definition passes (selectedProcessId selectedThreadId : string)
    (task : TaskInfo) : bool :=
  if negb (String.eqb selectedProcessId "")
     && negb (is_id (getTaskProcessId (t_task_id task) parser)
                selectedProcessId)
  then false
  else if negb (String.eqb selectedThreadId "")
          && negb (is_id (getTaskThreadId (t_task_id task) parser)
                     selectedThreadId)
  then false
  else true.

Definition filteredTasks (selectedProcessId selectedThreadId : string)
    : list TaskInfo :=
  List.filter (passes selectedProcessId selectedThreadId) tasks.

(** [tasks.value.some(...)]: a task of process [processId] and thread
    [threadId]. *)
Definition some_task_of (processId threadId : string) : bool :=
  existsb (λ task,
             is_id (getTaskProcessId (t_task_id task) parser) processId
             && is_id (getTaskThreadId (t_task_id task) parser) threadId)
          tasks.

(** The local [validProcessIds] of [processIdOptions]. *)
Definition validProcessIds (selectedThreadId : string) : list string :=
  if negb (String.eqb selectedThreadId "")
  then List.filter (λ processId, some_task_of processId selectedThreadId)
         availableProcessIds
  else availableProcessIds.

Definition processIdOptions (selectedThreadId : string)
    : list SelectOption :=
  {| label := "全部进程"; value := "" |}
  :: ((λ id, {| label := "进程: " +:+ id; value := id |})
      <$> validProcessIds selectedThreadId).

(** The same with the thread compared first, as [threadIdOptions] does. *)
Definition some_task_of_thread (threadId processId : string) : bool :=
  existsb (λ task,
             is_id (getTaskThreadId (t_task_id task) parser) threadId
             && is_id (getTaskProcessId (t_task_id task) parser) processId)
          tasks.

(** The local [validThreadIds] of [threadIdOptions]. *)
Definition validThreadIds (selectedProcessId : string) : list string :=
  if negb (String.eqb selectedProcessId "")
  then List.filter (λ threadId,
                      some_task_of_thread threadId selectedProcessId)
         availableThreadIds
  else availableThreadIds.

Definition threadIdOptions (selectedProcessId : string)
    : list SelectOption :=
  {| label := "全部线程"; value := "" |}
  :: ((λ id, {| label := "线程: " +:+ id; value := id |})
      <$> validThreadIds selectedProcessId).

End Filters.

End App.

(** ** The task of the relayed log *)

Module SampleApp.
Import JS Types LogParser SampleLog.

(** The task [getTasks] makes of [relayed_log]: task 7, still running. *)
Definition task_7 : TaskInfo :=
  {| t_task_id := 7; t_entry := "Main"; t_hash := ""; t_uuid := "";
     t_start_time := "2025-01-01 09:59:59.000"; t_end_time := None;
     t_status := running; t_nodes := []; t_duration := None;
     t_startEventIndex := Some 0%nat; t_endEventIndex := None |}.

(** The parser after the relayed log. *)
Definition relayed_parser : Parser :=
  parseFile (relayed_log ++ relay) new_parser.

End SampleApp.

(** ** The line decoder of [LogParser]

    [parseLine], [parseMessageAndParams] and [parseValue].  The regular
    expressions are written out as the scanners they are on these inputs;
    white space is the ASCII white space of [JS.trim], and integers are
    exact. *)

Module Decoder.
Import JS Types LogParser.

Local Open Scope char_scope.

(** What [parseValue] returns: a value of [JSON.parse], a boolean, the
    number of [parseInt], the number of [parseFloat] (as the exact decimal),
    or a string. *)
Inductive Value :=
| VJson (j : JValue)
| VBool (b : bool)
| VInt (z : Z)
| VDec (q : Q)
| VStr (s : string).

Inductive LineStatus := enter | leave.

(** The record [parseLine] returns. *)
Record DecodedLine := {
  timestamp : string;
  level : string;
  processId : string;
  threadId : string;
  sourceFile : option string;
  lineNumber : option string;
  functionName : option string;
  message : string;
  params : gmap string Value;
  status : option LineStatus;
  duration : option Z;
  _lineNumber : nat }.

(** The double-quote character. *)
Definition dquote : ascii := ascii_of_nat 34.

Definition is_digit (c : ascii) : bool :=
  let n := nat_of_ascii c in (48 <=? n)%nat && (n <=? 57)%nat.

Definition digit_value (c : ascii) : Z := Z.of_nat (nat_of_ascii c) - 48.

(** The number a string of digits writes, after [acc]. *)
Fixpoint digits_value (acc : Z) (s : string) : Z :=
  match s with
  | EmptyString => acc
  | String c s' => digits_value (acc * 10 + digit_value c) s'
  end.

(** [\d+] over the whole string. *)
Fixpoint all_digits (s : string) : bool :=
  match s with
  | EmptyString => true
  | String c s' => is_digit c && all_digits s'
  end.

Definition digits (s : string) : bool :=
  negb (String.eqb s "") && all_digits s.

(** What follows the sign of [-?]. *)
Definition unsigned (s : string) : string :=
  match s with
  | String "-" s' => s'
  | _ => s
  end.

Definition negative (s : string) : bool :=
  match s with
  | String "-" _ => true
  | _ => false
  end.

(** [/^-?\d+$/.test(s)]. *)
Definition is_int_literal (s : string) : bool := digits (unsigned s).

(** [parseInt(s)] on such a string. *)
Definition parse_int (s : string) : Z :=
  if negative s then - digits_value 0 (unsigned s)
  else digits_value 0 (unsigned s).

(** The characters of [s] before the first [c], and what follows that
    [c]; none when [c] does not occur. *)
Fixpoint split_at (c : ascii) (s : string) : option (string * string) :=
  match s with
  | EmptyString => None
  | String a s' =>
      if Ascii.eqb a c then Some (EmptyString, s')
      else match split_at c s' with
           | Some (l, r) => Some (String a l, r)
           | None => None
           end
  end.

(** [/^-?\d+\.\d+$/] and the value [parseFloat] reads: the digits before
    and after the point. *)
Definition dec_literal (s : string) : option Q :=
  match split_at "." (unsigned s) with
  | Some (ip, fp) =>
      if digits ip && digits fp then
        let q := (inject_Z (digits_value 0 (ip +:+ fp))
                  / inject_Z (10 ^ Z.of_nat (String.length fp)))%Q in
        Some (if negative s then (- q)%Q else q)
      else None
  | None => None
  end.

Definition starts_with (c : ascii) (s : string) : bool :=
  match s with
  | String a _ => Ascii.eqb a c
  | EmptyString => false
  end.

Fixpoint ends_with (c : ascii) (s : string) : bool :=
  match s with
  | EmptyString => false
  | String a EmptyString => Ascii.eqb a c
  | String _ s' => ends_with c s'
  end.

(** [s.slice(1, -1)]. *)
Definition slice_inner (s : string) : string :=
  String.substring 1 (String.length s - 2) s.

Section WithJSON.
(** [JSON.parse], [None] when it throws. *)
Variable JSON_parse : string → option JValue.

Definition parseValue (value : string) : Value :=
  if starts_with "{" value || starts_with "[" value then
    match JSON_parse value with
    | Some j => VJson j
    | None => VStr value
    end
  else if String.eqb value "true" then VBool true
  else if String.eqb value "false" then VBool false
  else if is_int_literal value then VInt (parse_int value)
  else
    match dec_literal value with
    | Some q => VDec q
    | None =>
        if (starts_with dquote value && ends_with dquote value)
           || (starts_with "'" value && ends_with "'" value)
        then VStr (slice_inner value)
        else VStr value
    end.

(** The bracket and brace depths after the character [c]. *)
Definition step_depth (c : ascii) (depth braceDepth : Z) : Z * Z :=
  if Ascii.eqb c "{" then (depth, braceDepth + 1)
  else if Ascii.eqb c "}" then (depth, braceDepth - 1)
  else if Ascii.eqb c "[" && (braceDepth =? 0)%Z then (depth + 1, braceDepth)
  else if Ascii.eqb c "]" && (braceDepth =? 0)%Z then (depth - 1, braceDepth)
  else (depth, braceDepth).

(** The inner loop of the extraction, over what follows an opening
    bracket: the bracket depth when it stops, and the number of characters
    it went over. *)
Fixpoint scan_to_close (depth braceDepth : Z) (s : string) : Z * nat :=
  if (0 <? depth)%Z || (0 <? braceDepth)%Z then
    match s with
    | EmptyString => (depth, O)
    | String c s' =>
        let '(d, b) := step_depth c depth braceDepth in
        let '(d', n) := scan_to_close d b s' in
        (d', S n)
    end
  else (depth, O).

(** The outer loop: [skip] characters are passed over first, which is how
    the loop resumes at [j] after a parameter. *)
Fixpoint extract_params (skip : nat) (s : string) : list string :=
  match s with
  | EmptyString => []
  | String c s' =>
      match skip with
      | S k => extract_params k s'
      | O =>
          if Ascii.eqb c "[" then
            let '(depth, n) := scan_to_close 1 0 s' in
            if (depth =? 0)%Z
            then String.substring 0 (n - 1) s' :: extract_params n s'
            else extract_params 0 s'
          else extract_params 0 s'
      end
  end.

(** A line terminator of JavaScript at the head of [s] (LF, CR, and the
    UTF-8 forms of U+2028 and U+2029). *)
Definition at_line_terminator (s : string) : bool :=
  match s with
  | String a rest =>
      let n := nat_of_ascii a in
      (n =? 10)%nat || (n =? 13)%nat
      || match rest with
         | String b (String c _) =>
             (n =? 226)%nat && (nat_of_ascii b =? 128)%nat
             && ((nat_of_ascii c =? 168)%nat || (nat_of_ascii c =? 169)%nat)
         | _ => false
         end
  | EmptyString => false
  end.

(** [.*] reaches the end of [s]. *)
Fixpoint one_line (s : string) : bool :=
  match s with
  | EmptyString => true
  | String _ s' => negb (at_line_terminator s) && one_line s'
  end.

(** [param.match(/^([^=]+)=(.+)$/)]. *)
Definition kv_match (param : string) : option (string * string) :=
  match split_at "=" param with
  | Some (key, value) =>
      if negb (String.eqb key "") && negb (String.eqb value "")
         && one_line value
      then Some (key, value) else None
  | None => None
  end.

(** The second loop: the entry a parameter sets ([params] is a plain
    object used as a map from names to values). *)
Definition set_param (params : gmap string Value) (param : string)
    : gmap string Value :=
  match kv_match param with
  | Some (key, value) => <[trim key := parseValue (trim value)]> params
  | None => <[trim param := VBool true]> params
  end.

(** [s.replace(pattern, '')] for a string pattern. *)
Definition remove_first (pattern s : string) : string :=
  match String.index 0 pattern s with
  | Some i =>
      String.substring 0 i s
      +:+ String.substring (i + String.length pattern)
            (String.length s - (i + String.length pattern)) s
  | None => s
  end.

(** The third loop: the parameter leaves the message. *)
Definition remove_param (cleanMessage param : string) : string :=
  remove_first ("[" +:+ param +:+ "]") cleanMessage.

(** [s] without its leading white space ([\s*]). *)
Definition skip_spaces (s : string) : string := trim_start s.

(** [(enter|leave)] at the head of [s]: the status and what follows. *)
Definition keyword (s : string) : option (LineStatus * string) :=
  if String.prefix "enter" s
  then Some (enter, String.substring 5 (String.length s - 5) s)
  else if String.prefix "leave" s
  then Some (leave, String.substring 5 (String.length s - 5) s)
  else None.

(** The digits at the head of [s], and what follows them. *)
Fixpoint span_digits (s : string) : string * string :=
  match s with
  | String c s' =>
      if is_digit c then let '(ds, r) := span_digits s' in (String c ds, r)
      else (EmptyString, s)
  | EmptyString => (EmptyString, EmptyString)
  end.

(** [(?:,\s*(\d+)ms)?] at the head of [s]: the digits, when it matches. *)
Definition duration_suffix (s : string) : option string :=
  match s with
  | String "," s' =>
      let '(ds, r) := span_digits (skip_spaces s') in
      if negb (String.eqb ds "") && String.prefix "ms" r then Some ds
      else None
  | _ => None
  end.

(** [\s*(enter|leave)(?:,\s*(\d+)ms)?] after a bar. *)
Definition status_after_bar (s : string)
    : option (LineStatus * option string) :=
  match keyword (skip_spaces s) with
  | Some (st, r) => Some (st, duration_suffix r)
  | None => None
  end.

(** [s.match(/\|\s*(enter|leave)(?:,\s*(\d+)ms)?/)]: the leftmost match. *)
Fixpoint status_match (s : string) : option (LineStatus * option string) :=
  match s with
  | EmptyString => None
  | String c s' =>
      if Ascii.eqb c "|" then
        match status_after_bar s' with
        | Some m => Some m
        | None => status_match s'
        end
      else status_match s'
  end.

(** [s.replace(/\|\s*(enter|leave).*$/, '')]: what precedes the leftmost
    match. *)
Fixpoint strip_status (s : string) : string :=
  match s with
  | EmptyString => EmptyString
  | String c s' =>
      if Ascii.eqb c "|"
         && match keyword (skip_spaces s') with
            | Some (_, r) => one_line r
            | None => false
            end
      then EmptyString
      else String c (strip_status s')
  end.

(** What [parseMessageAndParams] returns. *)
Record MessageParts := {
  mp_message : string;
  mp_params : gmap string Value;
  mp_status : option LineStatus;
  mp_duration : option Z }.

Definition parseMessageAndParams (message : string) : MessageParts :=
  let extractedParams := extract_params 0 message in
  let params := fold_left set_param extractedParams ∅ in
  let cleanMessage := trim (fold_left remove_param extractedParams message) in
  match status_match cleanMessage with
  | Some (st, ds) =>
      {| mp_message := trim (strip_status cleanMessage);
         mp_params := params;
         mp_status := Some st;
         mp_duration := digits_value 0 <$> ds |}
  | None =>
      {| mp_message := cleanMessage; mp_params := params;
         mp_status := None; mp_duration := None |}
  end.

(** [\[([^\]]+)\]] at the head of [s]: the group and what follows. *)
Definition bracket_group (s : string) : option (string * string) :=
  match s with
  | String "[" s' =>
      match split_at "]" s' with
      | Some (g, r) => if String.eqb g "" then None else Some (g, r)
      | None => None
      end
  | _ => None
  end.

(** [(?:\[([^\]]+)\])?]: the group, when there is one, and what follows. *)
Definition optional_group (s : string) : option string * string :=
  match bracket_group s with
  | Some (g, r) => (Some g, r)
  | None => (None, s)
  end.

(** [part.includes('.cpp') || part.includes('.h')]. *)
Definition looks_like_file (part : string) : bool :=
  includes part ".cpp" || includes part ".h".

(** The source file, the line number and the function name read off the
    optional groups. *)
Definition classify (part1 part2 part3 : option string)
    : option string * option string * option string :=
  match part3, part1, part2 with
  | Some _, _, _ => (part1, part2, part3)
  | None, Some p1, None =>
      if looks_like_file p1 then (Some p1, None, None)
      else (None, None, Some p1)
  | None, Some _, Some _ => (part1, part2, None)
  | None, None, _ => (None, None, None)
  end.

(** [parseLine(line, lineNum)]: the record, none when the line does not
    match, and the parser with the ids registered. *)
Definition parseLine (line : string) (lineNum : nat) (p : Parser)
    : option DecodedLine * Parser :=
  match bracket_group line with
  | Some (timestamp, r1) =>
  match bracket_group r1 with
  | Some (level, r2) =>
  match bracket_group r2 with
  | Some (processId, r3) =>
  match bracket_group r3 with
  | Some (threadId, r4) =>
      let '(part1, r5) := optional_group r4 in
      let '(part2, r6) := optional_group r5 in
      let '(part3, r7) := optional_group r6 in
      let rest := skip_spaces r7 in
      if one_line rest then
        let '(sourceFile, lineNumber, functionName) :=
          classify part1 part2 part3 in
        let parts := parseMessageAndParams rest in
        (Some {| timestamp := timestamp; level := level;
                 processId := processId; threadId := threadId;
                 sourceFile := sourceFile; lineNumber := lineNumber;
                 functionName := functionName;
                 message := mp_message parts; params := mp_params parts;
                 status := mp_status parts; duration := mp_duration parts;
                 _lineNumber := lineNum |},
         {| events := events p;
            processIds := set_add processId (processIds p);
            threadIds := set_add threadId (threadIds p);
            taskProcessMap := taskProcessMap p;
            taskThreadMap := taskThreadMap p |})
      else (None, p)
  | None => (None, p)
  end
  | None => (None, p)
  end
  | None => (None, p)
  end
  | None => (None, p)
  end.

End WithJSON.

(** The text of the bracket groups [gs], followed by [rest]. *)
Definition groups (gs : list string) (rest : string) : string :=
  fold_right (λ g s, "[" +:+ g +:+ "]" +:+ s)%string rest gs.


(** [c] does not occur in [s]. *)
Fixpoint lacks (c : ascii) (s : string) : bool :=
  match s with
  | EmptyString => true
  | String a s' => negb (Ascii.eqb a c) && lacks c s'
  end.

(** A text a bracket group can hold: not empty, without closing bracket. *)
Definition field (s : string) : bool :=
  negb (String.eqb s "") && lacks "]" s.

(** The depths after the text [s], when the inner loop of the extraction
    goes over the whole of it. *)
Fixpoint depths_after (depth braceDepth : Z) (s : string) : option (Z * Z) :=
  match s with
  | EmptyString => Some (depth, braceDepth)
  | String c s' =>
      if (0 <? depth)%Z || (0 <? braceDepth)%Z then
        let '(d, b) := step_depth c depth braceDepth in depths_after d b s'
      else None
  end.

(** A text the extraction takes whole between brackets: its own brackets
    and braces are closed when it ends, and not before. *)
Definition enclosed (s : string) : bool :=
  match depths_after 1 0 s with
  | Some (d, b) => (d =? 1)%Z && (b =? 0)%Z
  | None => false
  end.

End Decoder.

(** Sample lines of a log. *)
Module SampleLine.
Import JS Types LogParser Decoder.

(** A [JSON.parse] that rejects every text. *)
Definition no_json (_ : string) : option JValue := None.

Definition header : list string :=
  ["2025-01-01 10:00:00.000"; "INF"; "Px1"; "Tx1"].


End SampleLine.

(** ** The statistics view *)

Module StatsView.
Import JS Types NodeStatisticsAnalyzer.

(** What [nodeSummary] returns. *)
Record NodeSummary := {
  totalNodes : nat;
  sm_totalDuration : option Z;
  sm_avgDuration : option Q;
  slowestNode : NodeStatistics;
  uniqueNodes : nat }.

Section View.
Variable getTime : string → option Z.
(** [String.prototype.toLowerCase]. *)
Variable toLowerCase : string → string.

(** The search filter: a keyword that is blank filters nothing; another
    one is looked for, as typed, in the names. *)
Definition search {A} (name : A → string) (searchKeyword : string)
    (stats : list A) : list A :=
  if truthy_str (trim searchKeyword) then
    let keyword := toLowerCase searchKeyword in
    List.filter (λ s, includes (toLowerCase (name s)) keyword) stats
  else stats.

Definition nodeStatistics (effectiveTasks : list TaskInfo)
    (searchKeyword : string) : list NodeStatistics :=
  match effectiveTasks with
  | [] => []
  | _ => search name searchKeyword (analyze getTime effectiveTasks)
  end.

Definition recognitionActionStatistics (effectiveTasks : list TaskInfo)
    (searchKeyword : string) : list RecognitionActionStatistics :=
  match effectiveTasks with
  | [] => []
  | _ => search ras_name searchKeyword
           (analyzeRecognitionAction getTime effectiveTasks)
  end.

Definition nodeSummary (effectiveTasks : list TaskInfo)
    (searchKeyword : string) : option NodeSummary :=
  match nodeStatistics effectiveTasks searchKeyword with
  | [] => None
  | (first :: _) as stats =>
      let totalNodes := fold_left (λ sum s, (sum + count s)%nat) stats O in
      let totalDuration :=
        fold_left (λ sum s, add_ms sum (totalDuration s)) stats (Some 0) in
      Some {| totalNodes := totalNodes;
              sm_totalDuration := totalDuration;
              sm_avgDuration := div_q (of_ms totalDuration) (of_nat totalNodes);
              slowestNode := first;
              uniqueNodes := length stats |}
  end.

End View.

End StatsView.

(** * Properties *)

(** ** Sorting and the insertion-ordered maps *)

Section SortFacts.
Context {A : Type} (cmp : A → A → comparison).

Lemma sort_insert_perm (x : A) (l : list A) :
  JS.sort_insert cmp x l ≡ₚ x :: l.
Proof.
  induction l as [|y l IH]; simpl; [done|].
  destruct (cmp x y); try done; rewrite IH; apply Permutation_swap.
Qed.

Lemma sort_perm (l : list A) : JS.sort cmp l ≡ₚ l.
Proof.
  unfold JS.sort.
  assert (H : ∀ acc, fold_left (λ acc x, JS.sort_insert cmp x acc) l acc
                     ≡ₚ acc ++ l).
  { induction l as [|x l IH]; intros acc; simpl.
    - by rewrite app_nil_r.
    - rewrite IH, sort_insert_perm.
      by rewrite (Permutation_middle acc l x). }
  by rewrite H.
Qed.

Lemma elem_of_sort (x : A) (l : list A) : x ∈ JS.sort cmp l ↔ x ∈ l.
Proof. by rewrite sort_perm. Qed.

End SortFacts.

Section UpsertFacts.
Import NodeStatisticsAnalyzer.
Context {S : Type} (P : S → Prop) (fresh : S) (f : S → S).
Hypothesis P_fresh : P (f fresh).
Hypothesis P_step : ∀ s, P s → P (f s).

Lemma upsert_Forall (k : string) (m : list (string * S)) :
  Forall (λ e, P (snd e)) m → Forall (λ e, P (snd e)) (upsert fresh f k m).
Proof.
  induction 1 as [|[k' s] m Hs Hm IH]; simpl.
  - by repeat constructor.
  - destruct (String.eqb k' k); constructor; simpl in *; auto.
Qed.

End UpsertFacts.

(** ** The aggregation passes *)

Section AnalyzerFacts.
Import JS Types NodeStatisticsAnalyzer AnalyzerInv.
Variable getTime : string → option Z.

Lemma not_outlier_bounds (d : option Z) (z : Z) :
  is_outlier d = false → d = Some z → 0 ≤ z ≤ one_hour.
Proof.
  intros H ->. unfold is_outlier in H; simpl in H.
  apply orb_false_elim in H as [H1 H2]. lia.
Qed.

Lemma add_sample_ok (d : option Z) (status : NodeStatus) (stats : NodeAcc) :
  is_outlier d = false → node_acc_ok stats →
  node_acc_ok (add_sample d status stats).
Proof.
  intros Hd [Hlen Hin]. split.
  - simpl. rewrite length_app, Hlen. destruct status; simpl; lia.
  - simpl. intros z [Hz|Hz%list_elem_of_singleton]%elem_of_app; [by auto|].
    by eapply not_outlier_bounds.
Qed.

Lemma fresh_node_acc_ok : node_acc_ok fresh_node_acc.
Proof. split; [done|]. simpl. by intros z ?%elem_of_nil. Qed.

Lemma scan_nodes_ok end_time nodes statsMap :
  Forall (λ e, node_acc_ok (snd e)) statsMap →
  Forall (λ e, node_acc_ok (snd e))
    (scan_nodes getTime end_time nodes statsMap).
Proof.
  revert statsMap. induction nodes as [|node rest IH]; intros m Hm; [done|].
  cbn [scan_nodes].
  destruct (node_duration getTime end_time node rest) as [d|]; [|by auto].
  destruct (is_outlier d) eqn:Hd; [by auto|].
  apply IH, upsert_Forall; [| |done].
  - by apply add_sample_ok, fresh_node_acc_ok.
  - intros s. by apply add_sample_ok.
Qed.

Lemma scan_tasks_ok tasks statsMap :
  Forall (λ e, node_acc_ok (snd e)) statsMap →
  Forall (λ e, node_acc_ok (snd e))
    (fold_left (scan_task getTime) tasks statsMap).
Proof.
  revert statsMap. induction tasks as [|task tasks IH]; intros m Hm; [done|].
  simpl. apply IH, scan_nodes_ok, Hm.
Qed.

(** Every row of [analyze] is the row of an entry that satisfies the
    invariant. *)
Lemma analyze_row_inv tasks r :
  r ∈ analyze getTime tasks →
  ∃ k stats, node_acc_ok stats ∧ node_row (k, stats) = Some r.
Proof.
  unfold analyze. rewrite elem_of_sort, list_elem_of_omap.
  intros [[k stats] [Hin Hrow]]. exists k, stats. split; [|done].
  pose proof (scan_tasks_ok tasks [] (List.Forall_nil _)) as Hall.
  rewrite Forall_forall in Hall. by apply (Hall (k, stats)).
Qed.

Lemma node_row_Some k stats r :
  node_row (k, stats) = Some r →
  acc_durations stats ≠ []
  ∧ r = {| name := k;
           count := length (acc_durations stats);
           totalDuration := sum_ms (acc_durations stats);
           avgDuration := div_q (of_ms (sum_ms (acc_durations stats)))
                            (of_nat (length (acc_durations stats)));
           minDuration := min_ms (acc_durations stats);
           maxDuration := max_ms (acc_durations stats);
           successCount := acc_successCount stats;
           failCount := acc_failCount stats;
           successRate := rate (acc_successCount stats)
                            (acc_successCount stats + acc_failCount stats);
           durations := acc_durations stats |}.
Proof.
  unfold node_row. destruct (acc_durations stats) as [|d ds] eqn:E; [done|].
  simpl. by intros [= <-].
Qed.



(** The phase durations of [analyzeRecognitionAction], for comparison: its
    test is [d >= 0 && d < 3600000], so what it keeps is a number below one
    hour. *)
Lemma in_range_below (d : option Z) : in_range d = true → below_one_hour d.
Proof.
  unfold in_range. destruct d as [z|]; simpl; [|done].
  intros [H1 H2]%andb_true_iff. exists z. split; [done|lia].
Qed.

Lemma add_phases_ok node first more stats :
  phase_acc_ok stats → phase_acc_ok (add_phases getTime node first more stats).
Proof.
  intros [Hr Ha]. split; simpl.
  - destruct (_ && in_range _) eqn:E; [|done].
    apply andb_true_iff in E as [_ E].
    apply Forall_app. split; [done|]. by apply Forall_singleton, in_range_below.
  - destruct (in_range _) eqn:E; [|done].
    apply Forall_app. split; [done|]. by apply Forall_singleton, in_range_below.
Qed.

Lemma scan_phase_tasks_ok tasks statsMap :
  Forall (λ e, phase_acc_ok (snd e)) statsMap →
  Forall (λ e, phase_acc_ok (snd e))
    (fold_left (scan_phase_task getTime) tasks statsMap).
Proof.
  revert statsMap. induction tasks as [|task tasks IH]; intros m Hm; [done|].
  simpl. apply IH. unfold scan_phase_task. clear IH.
  revert m Hm. induction (t_nodes task) as [|node nodes IH]; intros m Hm;
    [done|].
  simpl. apply IH. unfold scan_phase_node.
  destruct (n_recognition_attempts node) as [|first more]; [done|].
  apply upsert_Forall; [| |done].
  - apply add_phases_ok. by split.
  - intros stats. apply add_phases_ok.
Qed.

Lemma extreme_below (f : Z → Z → Z) (xs : list (option Z)) (x : option Z) :
  (∀ u v, 0 ≤ u < one_hour → 0 ≤ v < one_hour → 0 ≤ f u v < one_hour) →
  below_one_hour x → Forall below_one_hour xs →
  below_one_hour
    (fold_left (λ a b, match a, b with
                       | Some u, Some v => Some (f u v)
                       | _, _ => None
                       end) xs x).
Proof.
  intros Hf Hx Hxs. revert x Hx.
  induction Hxs as [|y xs Hy _ IH]; intros x Hx; simpl; [done|].
  apply IH. destruct Hx as (u & -> & Hu), Hy as (v & -> & Hv).
  exists (f u v). split; [done|]. by apply Hf.
Qed.

(** Every extreme of a phase in a row of [analyzeRecognitionAction] is at
    least 0 and below 3600000. *)
Lemma phase_extremes_below_one_hour tasks r :
  r ∈ analyzeRecognitionAction getTime tasks →
  below_one_hour (minRecognitionDuration r)
  ∧ below_one_hour (maxRecognitionDuration r)
  ∧ below_one_hour (minActionDuration r)
  ∧ below_one_hour (maxActionDuration r).
Proof.
  unfold analyzeRecognitionAction.
  rewrite elem_of_sort, list_elem_of_omap. intros [[k stats] [Hin Hrow]].
  pose proof (scan_phase_tasks_ok tasks [] (List.Forall_nil _)) as Hall.
  rewrite Forall_forall in Hall. destruct (Hall _ Hin) as [Hr Ha].
  simpl in Hr, Ha. unfold phase_row in Hrow.
  destruct (pa_successCount stats + pa_failCount stats)%nat; [done|].
  injection Hrow as <-. simpl.
  assert (Hzero : below_one_hour (Some 0))
    by (exists 0; split; [done|unfold one_hour; lia]).
  repeat split.
  - destruct Hr as [|x xs Hx Hxs]; [done|].
    apply extreme_below; [unfold one_hour; lia|done..].
  - destruct Hr as [|x xs Hx Hxs]; [done|].
    apply extreme_below; [unfold one_hour; lia|done..].
  - destruct Ha as [|x xs Hx Hxs]; [done|].
    apply extreme_below; [unfold one_hour; lia|done..].
  - destruct Ha as [|x xs Hx Hxs]; [done|].
    apply extreme_below; [unfold one_hour; lia|done..].
Qed.

End AnalyzerFacts.

Section AnalyzerClaims.
Import JS Types NodeStatisticsAnalyzer AnalyzerInv Sample SampleRows.

Lemma hour_forest_rows : analyze clock hour_forest = [row_A; row_B].
Proof. vm_compute. reflexivity. Qed.

Lemma hour_forest_phase_rows :
  analyzeRecognitionAction clock hour_forest = [phase_row_A].
Proof. vm_compute. reflexivity. Qed.

(** C1, as amended.  Every duration that enters a row of [analyze] and is a
    number lies in the closed interval from 0 to 3600000 ms (a duration of
    exactly one hour is kept), and the count, the total, the extremes and
    the success and failure counts of the row are those of the durations
    kept. *)
Theorem analyze_durations_within_one_hour
    (getTime : string → option Z) (tasks : list TaskInfo)
    (r : NodeStatistics) :
  r ∈ analyze getTime tasks →
  (∀ z, Some z ∈ durations r → 0 ≤ z ≤ 3600000)
  ∧ count r = length (durations r)
  ∧ (successCount r + failCount r)%nat = length (durations r)
  ∧ totalDuration r = sum_ms (durations r)
  ∧ minDuration r = min_ms (durations r)
  ∧ maxDuration r = max_ms (durations r).
Proof.
  intros (k & stats & [Hlen Hin] & Hrow)%analyze_row_inv.
  apply node_row_Some in Hrow as [_ ->]. simpl.
  repeat split; try done; by apply Hin.
Qed.

Lemma analyze_durations_within_one_hour_witness :
  row_B ∈ analyze clock hour_forest
  ∧ ((∀ z, Some z ∈ durations row_B → 0 ≤ z ≤ 3600000)
     ∧ count row_B = length (durations row_B)
     ∧ (successCount row_B + failCount row_B)%nat = length (durations row_B)
     ∧ totalDuration row_B = sum_ms (durations row_B)
     ∧ minDuration row_B = min_ms (durations row_B)
     ∧ maxDuration row_B = max_ms (durations row_B)).
Proof.
  assert (H : row_B ∈ analyze clock hour_forest).
  { rewrite hour_forest_rows. apply list_elem_of_further, list_elem_of_here. }
  split; [exact H|].
  exact (analyze_durations_within_one_hour clock hour_forest row_B H).
Defined.

(** C1, as stated, fails: a node that completes exactly one hour before the
    next one contributes a duration of 3600000 ms, which is not below
    3600000. *)
Lemma analyze_keeps_one_hour :
  ∃ r, r ∈ analyze Sample.clock Sample.hour_forest
       ∧ Some 3600000 ∈ durations r
       ∧ ¬ (0 ≤ 3600000 < 3600000).
Proof.
  exists row_A. rewrite hour_forest_rows. split; [|split].
  - apply list_elem_of_here.
  - apply list_elem_of_here.
  - lia.
Qed.



End AnalyzerClaims.

Section ScenarioClaims.
Import JS Types LogParser Scenario.

(** C3.  On the round-trip sequence [getTasks] returns exactly one task,
    with status [succeeded], that has exactly one node, named "X". *)
Theorem round_trip_one_task_one_node
    (getTime : string → option Z) (ts0 ts1 ts2 : string) (p : Parser) :
  ∃ t n, (getTasks getTime (load (round_trip ts0 ts1 ts2) p)).1 = [t]
         ∧ t_status t = succeeded
         ∧ t_nodes t = [n]
         ∧ n_name n = "X".
Proof.
  eexists _, _. split; [vm_compute; reflexivity|]. by vm_compute.
Qed.

(** C2, as amended.  When both starts of task 5 carry the empty uuid the
    second one has the key of the first and creates no task: one task
    results, closed by the first close event.  When the two starts carry
    the distinct uuids "a" and "b", two tasks are created, the first close
    event matches the earliest-started one and the second close event the
    other, and both end with status [succeeded]. *)
Theorem fifo_fallback_scenario
    (getTime : string → option Z) (ts0 ts1 ts2 ts3 : string) (p : Parser) :
  ts2 ≠ "" →
  (∃ t, (getTasks getTime (load (two_starts "" "" ts0 ts1 ts2 ts3) p)).1
        = [t]
        ∧ t_status t = succeeded
        ∧ t_startEventIndex t = Some 0%nat
        ∧ t_endEventIndex t = Some 2%nat)
  ∧ (∃ t1 t2,
        (getTasks getTime (load (two_starts "a" "b" ts0 ts1 ts2 ts3) p)).1
        = [t1; t2]
        ∧ (t_uuid t1 = "a" ∧ t_status t1 = succeeded
           ∧ t_startEventIndex t1 = Some 0%nat
           ∧ t_endEventIndex t1 = Some 2%nat)
        ∧ (t_uuid t2 = "b" ∧ t_status t2 = succeeded
           ∧ t_startEventIndex t2 = Some 1%nat
           ∧ t_endEventIndex t2 = Some 3%nat)).
Proof.
  intros Hts2. destruct ts2 as [|c ts2]; [done|]. split.
  - eexists. split; [vm_compute; reflexivity|]. by vm_compute.
  - eexists _, _. split; [vm_compute; reflexivity|]. by vm_compute.
Qed.

Lemma fifo_fallback_scenario_witness :
  "2025-01-01 11:00:00.000" ≠ ""
  ∧ ((∃ t, (getTasks Sample.clock
              (load (two_starts "" "" "2025-01-01 09:59:59.000" "2025-01-01 10:00:00.000" "2025-01-01 11:00:00.000" "2025-01-01 11:00:01.000") new_parser)).1
           = [t]
           ∧ t_status t = succeeded
           ∧ t_startEventIndex t = Some 0%nat
           ∧ t_endEventIndex t = Some 2%nat)
     ∧ (∃ t1 t2,
           (getTasks Sample.clock
              (load (two_starts "a" "b" "2025-01-01 09:59:59.000" "2025-01-01 10:00:00.000" "2025-01-01 11:00:00.000" "2025-01-01 11:00:01.000") new_parser)).1
           = [t1; t2]
           ∧ (t_uuid t1 = "a" ∧ t_status t1 = succeeded
              ∧ t_startEventIndex t1 = Some 0%nat
              ∧ t_endEventIndex t1 = Some 2%nat)
           ∧ (t_uuid t2 = "b" ∧ t_status t2 = succeeded
              ∧ t_startEventIndex t2 = Some 1%nat
              ∧ t_endEventIndex t2 = Some 3%nat))).
Proof.
  assert (H : "2025-01-01 11:00:00.000" ≠ "") by discriminate.
  split; [exact H|].
  exact (fifo_fallback_scenario Sample.clock "2025-01-01 09:59:59.000" "2025-01-01 10:00:00.000" "2025-01-01 11:00:00.000" "2025-01-01 11:00:01.000"
           new_parser H).
Defined.

(** C2, as stated, fails: the two starts with the empty uuid and task 5
    create one task, not two. *)
Lemma two_empty_uuid_starts_make_one_task :
  length (discover_tasks Sample.clock
            (two_starts "" "" "2025-01-01 09:59:59.000" "2025-01-01 10:00:00.000" "2025-01-01 11:00:00.000" "2025-01-01 11:00:01.000")) = 1%nat
  ∧ length (getTasks Sample.clock
              (load (two_starts "" "" "2025-01-01 09:59:59.000" "2025-01-01 10:00:00.000" "2025-01-01 11:00:00.000" "2025-01-01 11:00:01.000") new_parser)).1
    = 1%nat.
Proof. split; vm_compute; reflexivity. Qed.

(** C9.  [getTasks] empties the event buffer, and a second call on the
    parser it leaves returns no task. *)
Theorem getTasks_consumes_events
    (getTime : string → option Z) (p : Parser) :
  getEvents (getTasks getTime p).2 = []
  ∧ (getTasks getTime (getTasks getTime p).2).1 = [].
Proof. split; reflexivity. Qed.

End ScenarioClaims.

Section AssocFacts.
Import JS.
Context {V : Type}.
Implicit Types (m : list (Z * V)) (k : Z) (v : V).

Lemma map_has_get k m : map_has k m = true ↔ is_Some (map_get k m).
Proof.
  unfold map_has, map_get. induction m as [|[k' v'] m IH]; simpl.
  - split; [done|]. by intros [? ?].
  - destruct (Z.eqb k' k); simpl; [|done]. split; [by eexists|done].
Qed.

Lemma map_has_keys k m : map_has k m = true ↔ k ∈ m.*1.
Proof.
  unfold map_has. induction m as [|[k' v'] m IH]; simpl.
  - rewrite elem_of_nil. split; [done|tauto].
  - rewrite elem_of_cons, orb_true_iff, IH, Z.eqb_eq.
    split; (intros [H|H]; [left; congruence|by right]).
Qed.

Lemma map_set_fresh k v m : map_has k m = false → map_set k v m = m ++ [(k, v)].
Proof.
  unfold map_has. induction m as [|[k' v'] m IH]; simpl; [done|].
  intros [H1 H2]%orb_false_elim. rewrite H1. by rewrite IH.
Qed.

Lemma map_get_app_fresh k k' v m :
  map_has k m = false →
  map_get k' (m ++ [(k, v)])
  = match map_get k' m with
    | Some x => Some x
    | None => if Z.eqb k k' then Some v else None
    end.
Proof.
  unfold map_get. intros _. induction m as [|[k0 v0] m IH]; simpl.
  - by destruct (Z.eqb k k').
  - by destruct (Z.eqb k0 k').
Qed.

Lemma map_get_values k v m : map_get k m = Some v → v ∈ map_values m.
Proof.
  unfold map_get, map_values. induction m as [|[k0 v0] m IH]; simpl; [done|].
  destruct (Z.eqb k0 k); simpl.
  - intros [= <-]. apply list_elem_of_here.
  - intros H. by apply list_elem_of_further, IH.
Qed.

Lemma map_values_get v m :
  NoDup m.*1 → v ∈ map_values m → ∃ k, map_get k m = Some v.
Proof.
  unfold map_get, map_values. induction m as [|[k0 v0] m IH]; simpl.
  - by intros _ ?%elem_of_nil.
  - intros [Hk0 Hm]%NoDup_cons [->|Hv]%elem_of_cons.
    + exists k0. simpl. by rewrite Z.eqb_refl.
    + destruct (IH Hm Hv) as [k Hk]. exists k. simpl.
      destruct (Z.eqb k0 k) eqn:E; [|done].
      apply Z.eqb_eq in E as ->. exfalso. apply Hk0.
      apply map_has_keys, map_has_get. unfold map_get. by rewrite Hk.
Qed.

End AssocFacts.

Section OwnerFacts.
Import JS Types LogParser Owners.

(** What one line does to the two owner maps. *)
Lemma parse_line_step_maps acc (q : Parser) (r : RawLine) :
  let q' := (parse_line_step (acc, q) r).2 in
  (taskProcessMap q', taskThreadMap q')
  = match starting_owner r with
    | Some (t, (pid, tid)) =>
        if map_has t (taskProcessMap q)
        then (taskProcessMap q, taskThreadMap q)
        else (map_set t pid (taskProcessMap q),
              map_set t tid (taskThreadMap q))
    | None => (taskProcessMap q, taskThreadMap q)
    end.
Proof.
  unfold parse_line_step, starting_owner, parseEventNotification,
    record_owner, register_ids.
  destruct (truthy_str (rawLine r)); simpl; [|done].
  destruct (decoded r) as [l|]; [|by destruct (includes _ _)].
  destruct (includes (rawLine r) marker); simpl; [|done].
  destruct (includes (ll_message l) marker); simpl;
    [|by destruct (ll_msg l), (ll_details l)].
  destruct (ll_msg l) as [msg|]; [|done].
  destruct (truthy_str msg) eqn:Hmsg; simpl.
  - destruct (String.eqb msg "Tasker.Task.Starting");
      [|by destruct (ll_details l)].
    destruct (ll_details l) as [d|]; [|done].
    destruct (d_task_id d) as [t|]; [|done].
    destruct (truthy_num t); [|done]. simpl.
    by destruct (map_has t (taskProcessMap q)).
  - destruct (String.eqb msg "Tasker.Task.Starting") eqn:E.
    + apply String.eqb_eq in E as ->. done.
    + by destruct (ll_details l).
Qed.

Lemma parse_line_step_ok acc (q : Parser) (r : RawLine) :
  maps_ok q → maps_ok (parse_line_step (acc, q) r).2.
Proof.
  intros [Hnd Hkeys]. unfold maps_ok.
  pose proof (parse_line_step_maps acc q r) as H. cbv zeta in H.
  remember (parse_line_step (acc, q) r).2 as q' eqn:Eq'. clear Eq'.
  destruct (starting_owner r) as [[t [pid tid]]|];
    [|by injection H as -> ->].
  destruct (map_has t (taskProcessMap q)) eqn:Hhas;
    [by injection H as -> ->|].
  assert (map_has t (taskThreadMap q) = false) as Hhas'.
  { apply not_true_is_false. rewrite map_has_keys, Hkeys, <- map_has_keys.
    by rewrite Hhas. }
  rewrite !map_set_fresh in H by done. injection H as -> ->.
  rewrite !fmap_app, Hkeys. split; [|done].
  apply NoDup_app. split; [done|]. split; [|apply NoDup_singleton].
  intros k Hk ->%list_elem_of_singleton.
  apply map_has_keys in Hk. simpl in Hk. congruence.
Qed.

(** After a line, the owner of [t] is the one already recorded, or else
    the one this line gives. *)
Lemma parse_line_step_get acc (q : Parser) (r : RawLine) (t : Z) :
  maps_ok q →
  let q' := (parse_line_step (acc, q) r).2 in
  map_get t (taskProcessMap q')
  = match map_get t (taskProcessMap q) with
    | Some x => Some x
    | None => fst <$> owner_of t r
    end
  ∧ map_get t (taskThreadMap q')
    = match map_get t (taskThreadMap q) with
      | Some x => Some x
      | None => snd <$> owner_of t r
      end.
Proof.
  intros [Hnd Hkeys].
  pose proof (parse_line_step_maps acc q r) as H. cbv zeta in *.
  remember (parse_line_step (acc, q) r).2 as q' eqn:Eq'. clear Eq'.
  unfold owner_of.
  destruct (starting_owner r) as [[t0 [pid tid]]|].
  2:{ injection H as -> ->.
      by destruct (map_get t (taskProcessMap q)),
                  (map_get t (taskThreadMap q)). }
  destruct (map_has t0 (taskProcessMap q)) eqn:Hhas.
  - injection H as -> ->.
    assert (map_has t0 (taskThreadMap q) = true) as Hhas'.
    { by rewrite map_has_keys, Hkeys, <- map_has_keys. }
    destruct (Z.eqb t0 t) eqn:E.
    + apply Z.eqb_eq in E as ->.
      apply map_has_get in Hhas as [x ->], Hhas' as [y ->]. done.
    + by destruct (map_get t (taskProcessMap q)),
                  (map_get t (taskThreadMap q)).
  - assert (map_has t0 (taskThreadMap q) = false) as Hhas'.
    { apply not_true_is_false. rewrite map_has_keys, Hkeys, <- map_has_keys.
      by rewrite Hhas. }
    rewrite !map_set_fresh in H by done. injection H as -> ->.
    rewrite !map_get_app_fresh by done.
    by destruct (Z.eqb t0 t).
Qed.

Lemma fold_parse_lines (content : list RawLine) acc (q : Parser) :
  maps_ok q →
  let q' := (fold_left parse_line_step content (acc, q)).2 in
  maps_ok q'
  ∧ ∀ t,
      map_get t (taskProcessMap q')
      = match map_get t (taskProcessMap q) with
        | Some x => Some x
        | None => fst <$> first_owner t content
        end
      ∧ map_get t (taskThreadMap q')
        = match map_get t (taskThreadMap q) with
          | Some x => Some x
          | None => snd <$> first_owner t content
          end.
Proof.
  revert acc q.
  induction content as [|r content IH]; intros acc q Hq; cbv zeta;
    cbn [fold_left].
  { simpl. split; [done|]. intros t.
    by destruct (map_get t (taskProcessMap q)),
                (map_get t (taskThreadMap q)). }
  destruct (parse_line_step (acc, q) r) as [acc1 q1] eqn:E.
  assert (q1 = (parse_line_step (acc, q) r).2) as Hq1 by by rewrite E.
  assert (maps_ok q1) as Hok1 by (rewrite Hq1; by apply parse_line_step_ok).
  destruct (IH acc1 q1 Hok1) as [Hok Hget]. cbv zeta in Hok, Hget.
  split; [done|].
  intros t. destruct (Hget t) as [HP HT]. rewrite HP, HT.
  destruct (parse_line_step_get acc q r t Hq) as [HP1 HT1].
  rewrite <- Hq1 in HP1, HT1. rewrite HP1, HT1.
  unfold first_owner. cbn [omap list_omap].
  destruct (map_get t (taskProcessMap q)), (map_get t (taskThreadMap q));
    destruct (owner_of t r) as [[pid tid]|]; simpl; done.
Qed.

(** The owner maps after [parseFile]. *)
Lemma parseFile_owners (content : list RawLine) (p : Parser) :
  maps_ok (parseFile content p)
  ∧ ∀ t,
      getTaskProcessId t (parseFile content p)
      = fst <$> first_owner t content
      ∧ getTaskThreadId t (parseFile content p)
        = snd <$> first_owner t content.
Proof.
  unfold parseFile, getTaskProcessId, getTaskThreadId.
  set (p0 := {| events := events p; processIds := []; threadIds := [];
                taskProcessMap := []; taskThreadMap := [] |}).
  assert (maps_ok p0) as H0 by (split; [apply NoDup_nil_2|done]).
  pose proof (fold_parse_lines content [] p0 H0) as [Hok Hget].
  destruct (fold_left parse_line_step content ([], p0)) as [acc p1].
  simpl in *. split; [done|]. intros t. apply Hget.
Qed.

End OwnerFacts.

Section SortedFacts.
Import Order.
Context {A : Type} (cmp : A → A → comparison).
Hypothesis cmp_antisym : ∀ a b, cmp a b = CompOpp (cmp b a).




End SortedFacts.

Lemma elem_of_dedup_first (seen xs : list string) (x : string) :
  x ∈ JS.dedup_first seen xs ↔ x ∈ xs ∧ x ∉ seen.
Proof.
  revert seen. induction xs as [|y xs IH]; intros seen; simpl.
  - rewrite elem_of_nil. tauto.
  - case_bool_decide as Hy.
    + rewrite IH, elem_of_cons. split; [tauto|].
      intros [[->|?] ?]; [done|tauto].
    + rewrite !elem_of_cons, IH, elem_of_cons.
      destruct (decide (x = y)) as [->|Hne]; [tauto|]. tauto.
Qed.


Section OwnerClaims.
Import JS Types LogParser Owners SampleLog Order.

Lemma values_are_owners (content : list RawLine) (p : Parser) (id : string) :
  (id ∈ map_values (taskProcessMap (parseFile content p))
   ↔ ∃ t tid, first_owner t content = Some (id, tid))
  ∧ (id ∈ map_values (taskThreadMap (parseFile content p))
     ↔ ∃ t pid, first_owner t content = Some (pid, id)).
Proof.
  destruct (parseFile_owners content p) as [[Hnd Hkeys] Hget].
  unfold getTaskProcessId, getTaskThreadId in Hget.
  split; split.
  - intros [t Ht]%map_values_get; [|done].
    destruct (Hget t) as [HP _]. rewrite Ht in HP.
    destruct (first_owner t content) as [[pid tid]|] eqn:E; [|done].
    injection HP as ->. by exists t, tid.
  - intros (t & tid & Ht). destruct (Hget t) as [HP _].
    rewrite Ht in HP. by apply map_get_values in HP.
  - intros [t Ht]%map_values_get; [|by rewrite Hkeys].
    destruct (Hget t) as [_ HT]. rewrite Ht in HT.
    destruct (first_owner t content) as [[pid tid]|] eqn:E; [|done].
    injection HT as ->. by exists t, pid.
  - intros (t & pid & Ht). destruct (Hget t) as [_ HT].
    rewrite Ht in HT. by apply map_get_values in HT.
Qed.



(** C6, as amended.  For every task id, the owner maps hold the process
    and thread ids of the first [Tasker.Task.Starting] line whose task id
    is that one and is not 0 (a line that starts task 0 records nothing);
    [getTasks] and the lines that follow leave a recorded owner as it is. *)
Theorem owner_is_first_starting_line
    (getTime : string → option Z) (content : list RawLine) (p : Parser)
    (taskId : Z) :
  (getTaskProcessId taskId (parseFile content p)
   = fst <$> first_owner taskId content
   ∧ getTaskThreadId taskId (parseFile content p)
     = snd <$> first_owner taskId content)
  ∧ (getTaskProcessId taskId (getTasks getTime (parseFile content p)).2
     = getTaskProcessId taskId (parseFile content p)
     ∧ getTaskThreadId taskId (getTasks getTime (parseFile content p)).2
       = getTaskThreadId taskId (parseFile content p))
  ∧ ∀ more o,
      first_owner taskId content = Some o →
      getTaskProcessId taskId (parseFile (content ++ more) p) = Some o.1
      ∧ getTaskThreadId taskId (parseFile (content ++ more) p) = Some o.2.
Proof.
  split; [apply parseFile_owners|]. split; [done|].
  intros more o Ho.
  destruct (parseFile_owners (content ++ more) p) as [_ Hget].
  destruct (Hget taskId) as [-> ->].
  unfold first_owner in *. rewrite omap_app.
  destruct (omap (owner_of taskId) content); [done|].
  simpl in *. by injection Ho as ->.
Qed.

Lemma owner_is_first_starting_line_witness :
  first_owner 7 relayed_log = Some ("Px1", "Tx1")
  ∧ getTaskProcessId 7 (parseFile (relayed_log ++ relay) new_parser)
    = Some "Px1"
  ∧ getTaskThreadId 7 (parseFile (relayed_log ++ relay) new_parser)
    = Some "Tx1".
Proof.
  assert (H : first_owner 7 relayed_log = Some ("Px1", "Tx1"))
    by (vm_compute; reflexivity).
  split; [exact H|].
  exact (proj2 (proj2 (owner_is_first_starting_line Sample.clock
                         relayed_log new_parser 7))
           relay ("Px1", "Tx1") H).
Defined.

(** C6, as stated, fails: the line starts task 0, its [task_id] is present,
    and no owner is recorded for task 0. *)
Lemma task_zero_has_no_owner :
  head (omap starting_with_task_id task_zero_log)
  = Some (0, ("Px1", "Tx1"))
  ∧ getTaskProcessId 0 (parseFile task_zero_log new_parser) = None
  ∧ getTaskThreadId 0 (parseFile task_zero_log new_parser) = None.
Proof. repeat split; vm_compute; reflexivity. Qed.

End OwnerClaims.

Section KeyFacts.
Import JS Types LogParser Keys.

Lemma free_of_app_char c l r : free_of c (l +:+ String c r) = false.
Proof.
  induction l as [|a l IH]; simpl.
  - by rewrite Ascii.eqb_refl.
  - rewrite IH. by destruct (Ascii.eqb a c).
Qed.

(** A string splits in one way only at its last [c]. *)
Lemma split_at_last c l1 l2 r1 r2 :
  free_of c r1 = true → free_of c r2 = true →
  l1 +:+ String c r1 = l2 +:+ String c r2 → l1 = l2 ∧ r1 = r2.
Proof.
  intros H1 H2. revert l2.
  induction l1 as [|a l1 IH]; intros [|b l2]; simpl; intros E.
  - by injection E as ->.
  - injection E as -> ->. by rewrite free_of_app_char in H1.
  - injection E as -> <-. by rewrite free_of_app_char in H2.
  - injection E as -> E. by destruct (IH l2 E) as [-> ->].
Qed.

Lemma pretty_N_char_free x : Ascii.eqb (pretty_N_char x) "_"%char = false.
Proof. unfold pretty_N_char. by repeat case_match. Qed.

Lemma pretty_N_go_free x s :
  free_of "_"%char s = true → free_of "_"%char (pretty_N_go x s) = true.
Proof.
  revert s. induction (N.lt_wf_0 x) as [x _ IH]; intros s Hs.
  assert (x = 0 ∨ 0 < x)%N as [->|Hx] by lia.
  - by rewrite pretty_N_go_0.
  - rewrite pretty_N_go_step by done. apply IH.
    + by apply N.div_lt.
    + simpl. by rewrite pretty_N_char_free, Hs.
Qed.

Lemma pretty_N_free (x : N) : free_of "_"%char (pretty x) = true.
Proof.
  unfold pretty, pretty_N. case_decide; [done|]. by apply pretty_N_go_free.
Qed.

Lemma pretty_Z_free (z : Z) : free_of "_"%char (pretty z) = true.
Proof.
  destruct z as [|x|x]; unfold pretty, pretty_Z; [done| |].
  - apply pretty_N_free.
  - change (free_of "_"%char (String "-"%char (pretty (N.pos x))) = true).
    simpl. apply pretty_N_free.
Qed.

(** Distinct pairs of a uuid and a task id have distinct keys. *)
Lemma taskKey_inj u1 u2 z1 z2 :
  taskKey u1 (Some z1) = taskKey u2 (Some z2) → u1 = u2 ∧ z1 = z2.
Proof.
  unfold taskKey, show_num. intros H.
  apply split_at_last in H as [-> Hz]; try apply pretty_Z_free.
  split; [done|]. by apply (inj pretty).
Qed.

End KeyFacts.

Section TaskLoopFacts.
Import JS Types LogParser Keys TaskInv.
Variable getTime : string → option Z.

Lemma update_first_fmap {A B} (g : A → B) (p : A → bool) (f : A → A)
    (l : list A) :
  (∀ x, g (f x) = g x) → g <$> update_first p f l = g <$> l.
Proof.
  intros Hg. induction l as [|x l IH]; simpl; [done|].
  destruct (p x); rewrite !fmap_cons; [by rewrite Hg|by rewrite IH].
Qed.

Lemma update_first_Forall {A} (P : A → Prop) (p : A → bool) (f : A → A)
    (l : list A) :
  (∀ x, P x → P (f x)) → Forall P l → Forall P (update_first p f l).
Proof.
  intros Hf. induction 1 as [|x l Hx Hl IH]; simpl; [done|].
  destruct (p x); constructor; auto.
Qed.

(** A property of the loop state that every iteration preserves holds at
    the end of the loop. *)
Lemma task_loop_inv (I : TaskScan → Prop) (all : list EventNotification) :
  (∀ i event st, all !! i = Some event → I st →
                 I (task_step getTime i event st)) →
  ∀ evs pre st,
    all = pre ++ evs → I st → I (task_loop getTime (length pre) evs st).
Proof.
  intros Hstep. induction evs as [|event evs IH]; intros pre st Hall Hst.
  - done.
  - simpl.
    replace (S (length pre)) with (length (pre ++ [event]))
      by (rewrite length_app; simpl; lia).
    apply IH.
    + by rewrite <- app_assoc.
    + apply Hstep; [|done]. rewrite Hall.
      by rewrite lookup_app_r, Nat.sub_diag by lia.
Qed.

Lemma task_step_keys_ok i event st :
  keys_ok st → keys_ok (task_step getTime i event st).
Proof.
  intros [Hnd Hkeys]. unfold task_step.
  destruct (String.eqb (ev_message event) "Tasker.Task.Starting").
  - unfold on_task_starting.
    destruct (d_task_id (ev_details event)) as [id|]; [|done].
    destruct (truthy_num id); simpl; [|done].
    case_bool_decide as Hk; simpl; [done|].
    split; simpl.
    + rewrite fmap_app. apply NoDup_app. split; [done|].
      split; [|apply NoDup_singleton].
      intros k Hin ->%list_elem_of_singleton. by apply Hk, Hkeys.
    + intros k. rewrite fmap_app, elem_of_app, elem_of_union, Hkeys.
      rewrite elem_of_singleton, list_fmap_singleton.
      rewrite list_elem_of_singleton. unfold key_of. simpl. tauto.
  - destruct (is_one_of _ _ _); [|done].
    unfold keys_ok, on_task_closed. simpl.
    by rewrite update_first_fmap.
Qed.

Lemma task_step_origin_ok all i event st :
  all !! i = Some event →
  Forall (origin_ok all) (ts_tasks st) →
  Forall (origin_ok all) (ts_tasks (task_step getTime i event st)).
Proof.
  intros Hi Hst. unfold task_step.
  destruct (String.eqb (ev_message event) "Tasker.Task.Starting") eqn:Hmsg.
  - unfold on_task_starting.
    destruct (d_task_id (ev_details event)) as [id|] eqn:Hid; [|done].
    destruct (truthy_num id) eqn:Hnz; simpl; [|done].
    case_bool_decide; simpl; [done|].
    apply Forall_app. split; [done|]. apply Forall_singleton.
    split; simpl.
    + unfold truthy_num in Hnz. lia.
    + exists i, event. by apply String.eqb_eq in Hmsg.
  - destruct (is_one_of _ _ _); [|done]. simpl.
    by apply update_first_Forall.
Qed.

Lemma discovered_keys_ok (evs : list EventNotification) :
  keys_ok (discovered getTime evs).
Proof.
  unfold discovered.
  apply (task_loop_inv keys_ok evs (λ i e st _, task_step_keys_ok i e st)
           evs [] _ eq_refl).
  split; [apply NoDup_nil_2|]. simpl. intros k.
  rewrite elem_of_nil, elem_of_empty. tauto.
Qed.

Lemma discover_tasks_keys (all : list EventNotification) :
  NoDup (key_of <$> discover_tasks getTime all).
Proof. apply (discovered_keys_ok all). Qed.

(** A start with a task id other than 0 whose uuid and task id are those
    of no task so far creates a task. *)
Lemma starting_creates_task (evs : list EventNotification) (i : nat)
    (event : EventNotification) (id : Z) :
  ev_message event = "Tasker.Task.Starting" →
  d_task_id (ev_details event) = Some id → id ≠ 0 →
  (∀ t, t ∈ ts_tasks (discovered getTime evs) →
        (t_uuid t, t_task_id t)
        ≠ (or_str (d_uuid (ev_details event)) "", id)) →
  ts_tasks (task_step getTime i event (discovered getTime evs))
  = ts_tasks (discovered getTime evs)
    ++ [new_task id (or_str (d_uuid (ev_details event)) "") i event].
Proof.
  intros Hmsg Hid Hnz Hnew.
  destruct (discovered_keys_ok evs) as [_ Hkeys].
  unfold task_step. rewrite Hmsg. simpl. unfold on_task_starting.
  rewrite Hid. unfold truthy_num.
  destruct (Z.eqb_spec id 0) as [|_]; [done|]. simpl.
  rewrite bool_decide_eq_false_2; [done|].
  intros (t & Hk & Hin)%Hkeys%list_elem_of_fmap.
  apply taskKey_inj in Hk as [Hu Ht]. apply (Hnew t Hin). congruence.
Qed.

Lemma discover_tasks_origin (all : list EventNotification) :
  Forall (origin_ok all) (discover_tasks getTime all).
Proof.
  unfold discover_tasks.
  by apply (task_loop_inv (λ st, Forall (origin_ok all) (ts_tasks st)) all
              (task_step_origin_ok all) all [] _ eq_refl).
Qed.

(** The tasks [getTasks] returns are tasks of the first loop with their
    nodes attached. *)
Lemma getTasks_elem (p : Parser) (t : TaskInfo) :
  t ∈ (getTasks getTime p).1 →
  ∃ t0, t0 ∈ discover_tasks getTime (events p)
        ∧ t = attach_nodes getTime (events p) t0.
Proof.
  unfold getTasks. simpl. rewrite list_elem_of_In, filter_In.
  intros [Hin _]. apply list_elem_of_In, list_elem_of_fmap in Hin.
  destruct Hin as (t0 & -> & Hin). by exists t0.
Qed.

Lemma NoDup_fmap_filter {A B} (g : A → B) (f : A → bool) (l : list A) :
  NoDup (g <$> l) → NoDup (g <$> List.filter f l).
Proof.
  induction l as [|x l IH]; [done|].
  rewrite fmap_cons. intros [Hx Hl]%NoDup_cons. cbn [List.filter].
  destruct (f x); [|by auto]. rewrite fmap_cons. apply NoDup_cons.
  split; [|by auto]. intros (y & Hy & Hin)%list_elem_of_fmap.
  apply list_elem_of_In, filter_In in Hin as [Hin _].
  apply Hx, list_elem_of_fmap. exists y. split; [done|].
  by apply list_elem_of_In.
Qed.

End TaskLoopFacts.

Section NodeLoopFacts.
Import JS Types LogParser NodeInv.

Lemma on_next_list_nodes task_id event st :
  ns_nodes (on_next_list task_id event st) = ns_nodes st
  ∧ ns_nodeIdSet (on_next_list task_id event st) = ns_nodeIdSet st.
Proof. unfold on_next_list. by destruct (_ && _). Qed.

Lemma on_recognition_node_nodes task_id event st :
  ns_nodes (on_recognition_node task_id event st) = ns_nodes st
  ∧ ns_nodeIdSet (on_recognition_node task_id event st) = ns_nodeIdSet st.
Proof. unfold on_recognition_node. by destruct (_ && _). Qed.

Lemma on_action_node_nodes task_id event st :
  ns_nodes (on_action_node task_id event st) = ns_nodes st
  ∧ ns_nodeIdSet (on_action_node task_id event st) = ns_nodeIdSet st.
Proof. unfold on_action_node. by destruct (_ && _). Qed.

Lemma on_recognition_nodes task_id event st :
  ns_nodes (on_recognition task_id event st) = ns_nodes st
  ∧ ns_nodeIdSet (on_recognition task_id event st) = ns_nodeIdSet st.
Proof.
  unfold on_recognition. destruct (is_one_of _ _ _); [|done].
  by destruct (same_task _ _).
Qed.

Lemma on_action_nodes task_id event st :
  ns_nodes (on_action task_id event st) = ns_nodes st
  ∧ ns_nodeIdSet (on_action task_id event st) = ns_nodeIdSet st.
Proof. unfold on_action. by destruct (_ && _). Qed.

(** The five blocks before the [PipelineNode] block leave the nodes and
    the set of their ids as they are. *)
Lemma before_pipeline_node task_id event st :
  let st' := on_action task_id event
               (on_recognition task_id event
                 (on_action_node task_id event
                   (on_recognition_node task_id event
                     (on_next_list task_id event st)))) in
  ns_nodes st' = ns_nodes st ∧ ns_nodeIdSet st' = ns_nodeIdSet st.
Proof.
  cbv zeta.
  destruct (on_action_nodes task_id event
              (on_recognition task_id event
                 (on_action_node task_id event
                    (on_recognition_node task_id event
                       (on_next_list task_id event st))))) as [-> ->].
  destruct (on_recognition_nodes task_id event
              (on_action_node task_id event
                 (on_recognition_node task_id event
                    (on_next_list task_id event st)))) as [-> ->].
  destruct (on_action_node_nodes task_id event
              (on_recognition_node task_id event
                 (on_next_list task_id event st))) as [-> ->].
  destruct (on_recognition_node_nodes task_id event
              (on_next_list task_id event st)) as [-> ->].
  apply on_next_list_nodes.
Qed.

Lemma node_step_cases task_id st event :
  (ns_nodes (node_step task_id st event) = ns_nodes st
   ∧ ns_nodeIdSet (node_step task_id st event) = ns_nodeIdSet st)
  ∨ ∃ nodeId n,
      fresh_node_id (d_node_id (ev_details event)) (ns_nodeIdSet st)
      = Some nodeId
      ∧ n_node_id n = nodeId
      ∧ ns_nodes (node_step task_id st event) = ns_nodes st ++ [n]
      ∧ ns_nodeIdSet (node_step task_id st event)
        = {[nodeId]} ∪ ns_nodeIdSet st.
Proof.
  unfold node_step.
  destruct (before_pipeline_node task_id event st) as [Hn Hs].
  cbv zeta in Hn, Hs.
  set (st' := on_action _ _ _) in *. clearbody st'.
  unfold on_pipeline_node. rewrite Hs, Hn.
  destruct (_ && _); [|by left].
  destruct (fresh_node_id _ _) as [nodeId|] eqn:E; simpl; [|by left].
  right. exists nodeId, (make_node task_id nodeId event st'). done.
Qed.

Lemma fresh_node_id_Some nodeId seen n :
  fresh_node_id nodeId seen = Some n → nodeId = Some n ∧ n ≠ 0 ∧ n ∉ seen.
Proof.
  unfold fresh_node_id. destruct nodeId as [m|]; [|done].
  destruct (truthy_num m) eqn:Hm; simpl; [|done].
  case_bool_decide; simpl; [done|]. intros [= <-].
  unfold truthy_num in Hm. repeat split; [lia|done].
Qed.

(** An event whose node id gives no fresh id builds no node. *)
Lemma node_step_no_node task_id st event :
  fresh_node_id (d_node_id (ev_details event)) (ns_nodeIdSet st) = None →
  ns_nodes (node_step task_id st event) = ns_nodes st.
Proof.
  intros H. destruct (node_step_cases task_id st event) as [[? _]|Hnew];
    [done|].
  destruct Hnew as (nodeId & n & E & _). congruence.
Qed.

Lemma node_step_ok task_id st event :
  nodes_ok st → nodes_ok (node_step task_id st event).
Proof.
  intros (Hnd & Hset & Hnz).
  destruct (node_step_cases task_id st event) as [[Hn Hs]|Hnew].
  - unfold nodes_ok. by rewrite Hn, Hs.
  - destruct Hnew as (nodeId & n & E & Hid & Hn & Hs).
    apply fresh_node_id_Some in E as (_ & Hne & Hfresh).
    unfold nodes_ok. rewrite Hn, Hs, fmap_app, list_fmap_singleton, Hid.
    split; [|split].
    + apply NoDup_app. split; [done|]. split; [|apply NoDup_singleton].
      intros k Hin ->%list_elem_of_singleton. by apply Hfresh, Hset.
    + intros k. rewrite elem_of_union, elem_of_app, Hset.
      rewrite elem_of_singleton, list_elem_of_singleton. tauto.
    + apply Forall_app. split; [done|]. apply Forall_singleton. by subst.
Qed.

Lemma scan_ok task_id evs : nodes_ok (scan task_id evs).
Proof.
  unfold scan.
  assert (H : ∀ st, nodes_ok st →
                    nodes_ok (fold_left (node_step task_id) evs st)).
  { induction evs as [|event evs IH]; intros st Hst; simpl; [done|].
    by apply IH, node_step_ok. }
  apply H. split; [apply NoDup_nil_2|]. split; [|done].
  intros n. simpl. rewrite elem_of_nil, elem_of_empty. tauto.
Qed.

(** The nodes of a task: no two with the same id, none with the id 0. *)
Lemma getTaskNodes_ok all task :
  NoDup (n_node_id <$> getTaskNodes all task)
  ∧ Forall (λ n, n_node_id n ≠ 0) (getTaskNodes all task).
Proof.
  unfold getTaskNodes. destruct (task_events all task) as [evs|].
  - destruct (scan_ok (t_task_id task) evs) as (Hnd & _ & Hnz). done.
  - split; [apply NoDup_nil_2|done].
Qed.

End NodeLoopFacts.

Section ReconstructionClaims.
Import JS Types LogParser Keys TaskInv NodeInv Scenario Noisy.

Lemma noisy_tasks :
  (getTasks Sample.clock (load noisy new_parser)).1 = [task_1].
Proof. vm_compute. reflexivity. Qed.

(** C5.  No two of the tasks [getTasks] returns have the same uuid and
    task id (whether the uuid is empty or not), and a
    [Tasker.Task.Starting] event whose key is that of a task already
    created leaves the tasks as they are. *)
Theorem task_identity_unique (getTime : string → option Z) (p : Parser) :
  NoDup ((λ t, (t_uuid t, t_task_id t)) <$> (getTasks getTime p).1)
  ∧ ∀ evs i event,
      ev_message event = "Tasker.Task.Starting" →
      event_key event ∈ key_of <$> ts_tasks (discovered getTime evs) →
      ts_tasks (task_step getTime i event (discovered getTime evs))
      = ts_tasks (discovered getTime evs).
Proof.
  split.
  - unfold getTasks. simpl. apply NoDup_fmap_filter.
    rewrite <- list_fmap_compose.
    apply (NoDup_fmap_1 (λ u, taskKey u.1 (Some u.2))).
    rewrite <- list_fmap_compose.
    exact (discover_tasks_keys getTime (events p)).
  - intros evs i event Hmsg Hkey.
    destruct (discovered_keys_ok getTime evs) as [_ Hkeys].
    unfold task_step. rewrite Hmsg. simpl. unfold on_task_starting.
    destruct (d_task_id (ev_details event)) as [id|] eqn:Hid; [|done].
    destruct (truthy_num id); simpl; [|done].
    apply Hkeys in Hkey. unfold event_key in Hkey. rewrite Hid in Hkey.
    by rewrite bool_decide_eq_true_2.
Qed.

Lemma task_identity_unique_witness :
  ev_message (start_1 "2025-01-01 11:00:00.000") = "Tasker.Task.Starting"
  ∧ event_key (start_1 "2025-01-01 11:00:00.000")
    ∈ key_of <$> ts_tasks (discovered Sample.clock (take 5 noisy))
  ∧ ts_tasks (task_step Sample.clock 5 (start_1 "2025-01-01 11:00:00.000")
                (discovered Sample.clock (take 5 noisy)))
    = ts_tasks (discovered Sample.clock (take 5 noisy)).
Proof.
  assert (H1 : ev_message (start_1 "2025-01-01 11:00:00.000")
               = "Tasker.Task.Starting") by reflexivity.
  assert (H2 : event_key (start_1 "2025-01-01 11:00:00.000")
               ∈ key_of <$> ts_tasks (discovered Sample.clock
                                        (take 5 noisy))).
  { vm_compute. apply list_elem_of_here. }
  split; [exact H1|]. split; [exact H2|].
  exact (proj2 (task_identity_unique Sample.clock (load noisy new_parser))
           (take 5 noisy) 5%nat (start_1 "2025-01-01 11:00:00.000") H1 H2).
Defined.

(** C8.  No two nodes of a task [getTasks] returns have the same node id,
    and a [Node.PipelineNode] completion event whose node id is that of a
    node already built for the task builds no second node. *)
Theorem node_ids_unique (getTime : string → option Z) (p : Parser) :
  (∀ t, t ∈ (getTasks getTime p).1 → NoDup (n_node_id <$> t_nodes t))
  ∧ ∀ task_id evs event nodeId,
      d_node_id (ev_details event) = Some nodeId →
      nodeId ∈ n_node_id <$> ns_nodes (scan task_id evs) →
      ns_nodes (node_step task_id (scan task_id evs) event)
      = ns_nodes (scan task_id evs).
Proof.
  split.
  - intros t (t0 & _ & ->)%getTasks_elem. simpl. apply getTaskNodes_ok.
  - intros task_id evs event nodeId Hid Hin.
    apply node_step_no_node. rewrite Hid.
    destruct (scan_ok task_id evs) as (_ & Hset & _).
    apply Hset in Hin. unfold fresh_node_id.
    rewrite bool_decide_eq_true_2 by done. by rewrite andb_false_r.
Qed.

Lemma node_ids_unique_witness :
  task_1 ∈ (getTasks Sample.clock (load noisy new_parser)).1
  ∧ NoDup (n_node_id <$> t_nodes task_1)
  ∧ ns_nodes (node_step 1 (scan 1 (take 4 noisy))
                (node_10 "2025-01-01 11:00:00.000"))
    = ns_nodes (scan 1 (take 4 noisy)).
Proof.
  assert (H1 : task_1 ∈ (getTasks Sample.clock (load noisy new_parser)).1).
  { rewrite noisy_tasks. apply list_elem_of_here. }
  assert (H2 : d_node_id (ev_details (node_10 "2025-01-01 11:00:00.000"))
               = Some 10) by reflexivity.
  assert (H3 : 10 ∈ n_node_id <$> ns_nodes (scan 1 (take 4 noisy))).
  { vm_compute. apply list_elem_of_here. }
  pose proof (node_ids_unique Sample.clock (load noisy new_parser))
    as [Hnd Hdup].
  split; [exact H1|]. split; [exact (Hnd task_1 H1)|].
  exact (Hdup 1 (take 4 noisy) (node_10 "2025-01-01 11:00:00.000") 10 H2 H3).
Defined.

(** C10.  A [Tasker.Task.Starting] event whose [task_id] is absent or 0
    leaves the tasks as they are, and no task [getTasks] returns starts at
    it; a [Node.PipelineNode] completion event whose [node_id] is absent or
    0 leaves the nodes as they are, and every node of a returned task has a
    node id other than 0. *)
Theorem falsy_ids_create_nothing (getTime : string → option Z) (p : Parser) :
  (∀ i event st, ev_message event = "Tasker.Task.Starting" →
                 no_task_id event → task_step getTime i event st = st)
  ∧ (∀ i event t, events p !! i = Some event →
                  ev_message event = "Tasker.Task.Starting" →
                  no_task_id event →
                  t ∈ (getTasks getTime p).1 → t_startEventIndex t ≠ Some i)
  ∧ (∀ task_id event st,
       no_node_id event →
       ns_nodes (node_step task_id st event) = ns_nodes st)
  ∧ (∀ t, t ∈ (getTasks getTime p).1 →
          Forall (λ n, n_node_id n ≠ 0) (t_nodes t)).
Proof.
  repeat split.
  - intros i event st Hmsg Hno. unfold task_step. rewrite Hmsg. simpl.
    unfold on_task_starting. by destruct Hno as [-> | ->].
  - intros i event t Hi Hmsg Hno (t0 & Hin & ->)%getTasks_elem. simpl.
    intros Hstart.
    pose proof (discover_tasks_origin getTime (events p)) as Hall.
    rewrite Forall_forall in Hall.
    destruct (Hall t0 Hin) as (Hnz & j & e & Hj & He & _ & Hid).
    assert (j = i) as -> by congruence.
    assert (e = event) as -> by congruence.
    destruct Hno as [Hno|Hno]; rewrite Hno in Hid; congruence.
  - intros task_id event st Hno. apply node_step_no_node.
    by destruct Hno as [-> | ->].
  - intros t (t0 & _ & ->)%getTasks_elem. simpl. apply getTaskNodes_ok.
Qed.

Lemma falsy_ids_create_nothing_witness :
  (noisy !! 0%nat = Some (start_0 "2025-01-01 09:59:59.000")
   ∧ ev_message (start_0 "2025-01-01 09:59:59.000") = "Tasker.Task.Starting"
   ∧ no_task_id (start_0 "2025-01-01 09:59:59.000")
   ∧ task_1 ∈ (getTasks Sample.clock (load noisy new_parser)).1)
  ∧ t_startEventIndex task_1 ≠ Some 0%nat
  ∧ Forall (λ n, n_node_id n ≠ 0) (t_nodes task_1).
Proof.
  assert (H : task_1 ∈ (getTasks Sample.clock (load noisy new_parser)).1).
  { rewrite noisy_tasks. apply list_elem_of_here. }
  assert (H0 : no_task_id (start_0 "2025-01-01 09:59:59.000"))
    by (right; reflexivity).
  pose proof (falsy_ids_create_nothing Sample.clock (load noisy new_parser))
    as (_ & H2 & _ & H4).
  split; [repeat split; [exact H0|exact H]|].
  split; [|exact (H4 task_1 H)].
  exact (H2 0%nat (start_0 "2025-01-01 09:59:59.000") task_1
           eq_refl eq_refl H0 H).
Defined.

End ReconstructionClaims.

(** * Further properties *)

(** ** Sorting with a comparator that follows an order *)

Section StrongSort.
Context {A : Type} (cmp : A → A → comparison).
Context (P : A → Prop) (R : A → A → Prop).
Hypothesis R_trans : ∀ x y z, P x → P y → P z → R x y → R y z → R x z.
Hypothesis cmp_lt : ∀ x y, P x → P y → cmp x y = Lt → R x y.
Hypothesis cmp_ge : ∀ x y, P x → P y → cmp x y ≠ Lt → R y x.

Lemma sort_insert_strongly (x : A) (l : list A) :
  P x → Forall P l → StronglySorted R l →
  StronglySorted R (JS.sort_insert cmp x l).
Proof.
  intros Hx HP Hl. induction Hl as [|y l Hl IH Hy]; simpl.
  { repeat constructor. }
  apply Forall_cons in HP as [Py Pl].
  destruct (cmp x y) eqn:E.
  - constructor; [by apply IH|].
    rewrite sort_insert_perm. constructor; [|done].
    apply cmp_ge; [done..|]. by rewrite E.
  - constructor; [by constructor|]. constructor; [by apply cmp_lt|].
    rewrite Forall_forall in Hy, Pl. apply Forall_forall. intros z Hz.
    apply (R_trans x y z); auto.
  - constructor; [by apply IH|].
    rewrite sort_insert_perm. constructor; [|done].
    apply cmp_ge; [done..|]. by rewrite E.
Qed.

Lemma sort_strongly (l : list A) :
  Forall P l → StronglySorted R (JS.sort cmp l).
Proof.
  unfold JS.sort. intros Hl.
  assert (H : ∀ acc, Forall P acc → StronglySorted R acc →
    StronglySorted R (fold_left (λ acc x, JS.sort_insert cmp x acc) l acc)).
  { induction Hl as [|x l Hx Hl IH]; intros acc Pacc Hacc; simpl; [done|].
    apply IH.
    - rewrite sort_insert_perm. by constructor.
    - by apply sort_insert_strongly. }
  apply H; constructor.
Qed.

End StrongSort.

Section SliceFacts.
Import TopN.
Context {A : Type}.

Lemma slice_to_take (n : Z) (xs : list A) :
  ∃ k, slice_to n xs = take k xs ∧ (0 ≤ n → k = Z.to_nat n).
Proof.
  unfold slice_to. destruct (Z.ltb_spec n 0).
  - eexists. split; [done|lia].
  - by eexists.
Qed.

Lemma take_drop_sorted (R : A → A → Prop) (k : nat) (xs : list A) x y :
  StronglySorted R xs → x ∈ take k xs → y ∈ drop k xs → R x y.
Proof.
  intros Hs. revert k. induction Hs as [|z xs Hs IH Hz]; intros k.
  - rewrite take_nil. by intros ?%elem_of_nil.
  - destruct k as [|k]; simpl; [by intros ?%elem_of_nil|].
    intros [->|Hx]%elem_of_cons Hy.
    + rewrite Forall_forall in Hz. apply Hz.
      by apply (subseteq_drop k xs).
    + by apply (IH k).
Qed.

Lemma take_sorted (R : A → A → Prop) (k : nat) (xs : list A) :
  StronglySorted R xs → StronglySorted R (take k xs).
Proof.
  intros Hs. revert k. induction Hs as [|z xs Hs IH Hz]; intros k.
  - rewrite take_nil. constructor.
  - destruct k as [|k]; simpl; [constructor|].
    constructor; [apply IH|].
    rewrite Forall_forall in Hz. apply Forall_forall.
    intros y Hy. apply Hz. by apply (subseteq_take k xs).
Qed.

(** What [slice(0, n)] leaves out of a sorted list comes after what it
    keeps. *)
Lemma slice_to_top (R : A → A → Prop) (n : Z) (xs : list A) x y :
  StronglySorted R xs → x ∈ slice_to n xs → y ∈ xs → y ∉ slice_to n xs →
  R x y.
Proof.
  destruct (slice_to_take n xs) as (k & -> & _). intros Hs Hx Hy Hny.
  apply (take_drop_sorted R k xs); [done..|].
  rewrite <- (take_drop k xs) in Hy. apply elem_of_app in Hy as [|]; done.
Qed.

Lemma slice_to_elem (n : Z) (xs : list A) x : x ∈ slice_to n xs → x ∈ xs.
Proof.
  destruct (slice_to_take n xs) as (k & -> & _). apply subseteq_take.
Qed.

Lemma slice_to_length (n : Z) (xs : list A) :
  0 ≤ n → length (slice_to n xs) = Nat.min (Z.to_nat n) (length xs).
Proof.
  intros Hn. destruct (slice_to_take n xs) as (k & -> & Hk).
  rewrite (Hk Hn). apply length_take.
Qed.

End SliceFacts.

(** ** The map of [analyze], entry by entry *)

Section UpsertLookup.
Import NodeStatisticsAnalyzer Samples.
Context {S : Type} (fresh : S) (f : S → S).

Lemma assoc_upsert (k k' : string) (m : list (string * S)) :
  assoc k' (upsert fresh f k m)
  = if String.eqb k k' then Some (f (default fresh (assoc k m)))
    else assoc k' m.
Proof.
  unfold assoc. induction m as [|[k0 s0] m IH]; simpl.
  - by destruct (String.eqb k k').
  - destruct (String.eqb_spec k0 k) as [->|Hne]; simpl.
    + by destruct (String.eqb k k').
    + destruct (String.eqb_spec k0 k') as [->|Hne']; simpl.
      * destruct (String.eqb_spec k k') as [->|]; [done|done].
      * apply IH.
Qed.

Lemma upsert_keys (k : string) (m : list (string * S)) :
  (upsert fresh f k m).*1
  = if bool_decide (k ∈ m.*1) then m.*1 else m.*1 ++ [k].
Proof.
  induction m as [|[k0 s0] m IH]; [done|]. cbn [upsert].
  destruct (String.eqb_spec k0 k) as [->|Hne]; rewrite !fmap_cons; cbn [fst].
  - rewrite bool_decide_eq_true_2; [done|apply list_elem_of_here].
  - rewrite IH. case_bool_decide as Hk.
    + rewrite bool_decide_eq_true_2; [done|by apply list_elem_of_further].
    + rewrite bool_decide_eq_false_2; [done|].
      intros [?|?]%elem_of_cons; congruence.
Qed.

Lemma upsert_NoDup (k : string) (m : list (string * S)) :
  NoDup m.*1 → NoDup (upsert fresh f k m).*1.
Proof.
  intros Hm. rewrite upsert_keys. case_bool_decide as Hk; [done|].
  apply NoDup_app. split; [done|]. split; [|apply NoDup_singleton].
  by intros x Hx ->%list_elem_of_singleton.
Qed.

Lemma assoc_elem (k : string) (s : S) (m : list (string * S)) :
  NoDup m.*1 → (k, s) ∈ m ↔ assoc k m = Some s.
Proof.
  unfold assoc. induction m as [|[k0 s0] m IH]; simpl.
  - intros _. rewrite elem_of_nil. split; [done|done].
  - intros [Hk0 Hm]%NoDup_cons. rewrite elem_of_cons.
    destruct (String.eqb_spec k0 k) as [->|Hne]; simpl.
    + split; [|intros [= ->]; by left].
      intros [[= ->]|Hin]; [done|]. exfalso. apply Hk0.
      apply list_elem_of_fmap. by exists (k, s).
    + rewrite <- (IH Hm). split; [|by right].
      intros [[= ? ?]|?]; [congruence|done].
Qed.

End UpsertLookup.

Section PooledFacts.
Import JS Types NodeStatisticsAnalyzer AnalyzerInv Samples.
Variable getTime : string → option Z.

Lemma scan_nodes_samples end_time nodes m :
  scan_nodes getTime end_time nodes m
  = fold_left record_sample (node_samples getTime end_time nodes) m.
Proof.
  revert m. induction nodes as [|node rest IH]; intros m; [done|].
  cbn [scan_nodes node_samples].
  destruct (node_duration getTime end_time node rest) as [d|]; [|apply IH].
  destruct (is_outlier d); [apply IH|]. simpl. apply IH.
Qed.

Lemma scan_tasks_samples tasks m :
  fold_left (scan_task getTime) tasks m
  = fold_left record_sample (forest_samples getTime tasks) m.
Proof.
  revert m. induction tasks as [|task tasks IH]; intros m; [done|].
  unfold forest_samples. rewrite bind_cons, fold_left_app. simpl.
  rewrite IH. unfold scan_task. by rewrite scan_nodes_samples.
Qed.

Lemma record_samples_keys samples m :
  NoDup m.*1 → NoDup (fold_left record_sample samples m).*1.
Proof.
  revert m. induction samples as [|s samples IH]; intros m Hm; [done|].
  simpl. apply IH. by apply upsert_NoDup.
Qed.

(** The entry of [k] after the samples: the named samples added, in order,
    to the entry there was. *)
Lemma record_samples_assoc samples m k :
  assoc k (fold_left record_sample samples m)
  = match named k samples with
    | [] => assoc k m
    | l => Some (fold_left (λ acc s, add_sample (s_duration s) (s_status s)
                                       acc)
                   l (default fresh_node_acc (assoc k m)))
    end.
Proof.
  revert m. induction samples as [|s samples IH]; intros m; [done|].
  cbn [fold_left]. rewrite IH.
  assert (assoc k (record_sample m s)
          = if String.eqb (s_name s) k
            then Some (add_sample (s_duration s) (s_status s)
                         (default fresh_node_acc (assoc (s_name s) m)))
            else assoc k m) as -> by apply assoc_upsert.
  unfold named. cbn [List.filter].
  destruct (String.eqb_spec (s_name s) k) as [->|Hne]; simpl.
  - by destruct (List.filter _ samples).
  - done.
Qed.

Lemma add_samples_acc (l : list Sample) (acc : NodeAcc) :
  let acc' := fold_left (λ acc s, add_sample (s_duration s) (s_status s) acc)
                l acc in
  acc_durations acc' = acc_durations acc ++ (s_duration <$> l)
  ∧ acc_successCount acc'
    = (acc_successCount acc + count_status success l)%nat
  ∧ acc_failCount acc' = (acc_failCount acc + count_status failed l)%nat.
Proof.
  cbv zeta. revert acc. induction l as [|s l IH]; intros acc.
  - simpl. rewrite app_nil_r. unfold count_status. simpl.
    repeat split; lia.
  - cbn [fold_left].
    destruct (IH (add_sample (s_duration s) (s_status s) acc))
      as (-> & -> & ->).
    unfold count_status. cbn [List.filter add_sample acc_durations
      acc_successCount acc_failCount]. rewrite fmap_cons, <- app_assoc.
    destruct (s_status s); simpl; repeat split; lia.
Qed.

End PooledFacts.

Section AnalyzeExtras.
Import JS Types NodeStatisticsAnalyzer AnalyzerInv Samples.
Variable getTime : string → option Z.

Lemma node_row_name k stats r : node_row (k, stats) = Some r → name r = k.
Proof. by intros [_ ->]%node_row_Some. Qed.

Lemma node_rows_names (m : list (string * NodeAcc)) :
  NoDup m.*1 → NoDup (name <$> omap node_row m).
Proof.
  induction m as [|[k stats] m IH]; [done|].
  rewrite fmap_cons. intros [Hk Hm]%NoDup_cons. cbn [omap list_omap].
  destruct (node_row (k, stats)) as [r|] eqn:E; [|by apply IH].
  rewrite fmap_cons. apply NoDup_cons. split; [|by apply IH].
  apply node_row_name in E as ->.
  intros (r' & Hr' & ([k' stats'] & Hin & Hrow)%list_elem_of_omap)
    %list_elem_of_fmap.
  apply node_row_name in Hrow. simpl in Hk. apply Hk.
  apply list_elem_of_fmap. exists (k', stats'). split; [simpl; congruence|done].
Qed.

(** The entries of the map of [analyze]. *)
Lemma analyze_entry tasks k stats :
  (k, stats) ∈ fold_left (scan_task getTime) tasks [] →
  let l := named k (forest_samples getTime tasks) in
  l ≠ []
  ∧ acc_durations stats = s_duration <$> l
  ∧ acc_successCount stats = count_status success l
  ∧ acc_failCount stats = count_status failed l.
Proof.
  rewrite scan_tasks_samples. intros Hin. cbv zeta.
  apply assoc_elem in Hin; [|apply record_samples_keys, NoDup_nil_2].
  rewrite record_samples_assoc in Hin.
  destruct (named k (forest_samples getTime tasks)) as [|s l] eqn:E;
    [done|].
  change (default fresh_node_acc (assoc k [])) with fresh_node_acc in Hin.
  injection Hin as <-. split; [done|].
  destruct (add_samples_acc (s :: l) fresh_node_acc) as (H1 & H2 & H3).
  cbv zeta in H1, H2, H3. cbn [fold_left] in H1, H2, H3.
  by rewrite H1, H2, H3.
Qed.

Lemma sample_duration_readable end_time nodes s :
  Forall (λ node, is_Some (getTime (n_timestamp node))) nodes →
  (∀ e, end_time = Some e → is_Some (getTime e)) →
  s ∈ node_samples getTime end_time nodes → is_Some (s_duration s).
Proof.
  intros Hnodes Hend. induction Hnodes as [|node rest [x Hx] Hrest IH];
    [by intros ?%elem_of_nil|].
  cbn [node_samples]. unfold node_duration.
  destruct Hrest as [|next rest' [y Hy] Hrest'].
  - destruct end_time as [e|]; [|by intros ?%elem_of_nil].
    destruct (truthy_str e); [|by intros ?%elem_of_nil].
    destruct (Hend e eq_refl) as [z Hz]. rewrite Hz, Hx.
    destruct (is_outlier _); [by intros ?%elem_of_nil|].
    intros [->|?%elem_of_nil]%elem_of_cons; [simpl; by eexists|done].
  - rewrite Hy, Hx. destruct (is_outlier _); [by apply IH|].
    intros [->|?]%elem_of_cons; [simpl; by eexists|by apply IH].
Qed.

Lemma forest_samples_readable tasks s :
  readable getTime tasks → s ∈ forest_samples getTime tasks →
  is_Some (s_duration s).
Proof.
  unfold readable, forest_samples. rewrite Forall_forall.
  intros Hr (task & Hs & Hin)%list_elem_of_bind.
  destruct (Hr task Hin) as [Hnodes Hend].
  by eapply sample_duration_readable.
Qed.

Lemma sum_ms_Some (xs : list (option Z)) :
  Forall is_Some xs → is_Some (sum_ms xs).
Proof.
  unfold sum_ms. generalize 0. intros a Hxs. revert a.
  induction Hxs as [|x xs [z ->] _ IH]; intros a; simpl; [by eexists|].
  apply IH.
Qed.

Lemma div_q_Some (a : option Q) (n : nat) :
  is_Some a → (0 < n)%nat → is_Some (div_q a (of_nat n)).
Proof.
  intros [x ->] Hn. unfold div_q, of_nat.
  destruct (Qeq_bool _ 0) eqn:E; [|by eexists].
  apply Qeq_bool_iff in E. exfalso.
  assert (0 < inject_Z (Z.of_nat n))%Q as H
    by (change 0%Q with (inject_Z 0); rewrite <- Zlt_Qlt; lia).
  rewrite E in H. by apply Qlt_irrefl in H.
Qed.

Lemma analyze_average_readable tasks r :
  readable getTime tasks → r ∈ analyze getTime tasks →
  is_Some (avgDuration r).
Proof.
  intros Hr. unfold analyze. rewrite elem_of_sort, list_elem_of_omap.
  intros [[k stats] [Hin Hrow]].
  destruct (analyze_entry tasks k stats Hin) as (Hne & Hd & _).
  apply node_row_Some in Hrow as [Hne' ->]. simpl.
  apply div_q_Some.
  - unfold of_ms. destruct (sum_ms_Some (acc_durations stats)) as [t ->];
      [|by eexists].
    rewrite Hd. apply Forall_fmap, Forall_forall. intros s Hs. simpl.
    apply (forest_samples_readable tasks s Hr).
    unfold named in Hs. apply list_elem_of_In, filter_In in Hs as [Hs _].
    by apply list_elem_of_In.
  - destruct (acc_durations stats); [done|simpl; lia].
Qed.

End AnalyzeExtras.

Section KeyDescending.
Import JS Samples.
Context {A : Type} (key : A → option Q).

(** [(a, b) => key(b) - key(a)]. *)
Let cmp (a b : A) : comparison := sort_sign (sub_q (key b) (key a)).

Lemma desc_lt (a b : A) :
  is_Some (key a) → is_Some (key b) → cmp a b = Lt → not_above key a b.
Proof.
  intros [x Hx] [y Hy]. unfold cmp. rewrite Hx, Hy. simpl.
  intros H%Qlt_alt. exists x, y. repeat split; [done..|]. lra.
Qed.

Lemma desc_ge (a b : A) :
  is_Some (key a) → is_Some (key b) → cmp a b ≠ Lt → not_above key b a.
Proof.
  intros [x Hx] [y Hy]. unfold cmp. rewrite Hx, Hy. simpl.
  intros H. exists y, x. repeat split; [done..|].
  destruct (Qlt_le_dec (y - x) 0) as [Hlt|Hge]; [|lra].
  by apply Qlt_alt in Hlt.
Qed.

Lemma not_above_trans (a b c : A) :
  not_above key a b → not_above key b c → not_above key a c.
Proof.
  intros (x & y & Hx & Hy & H1) (y' & z & Hy' & Hz & H2).
  exists x, z. repeat split; [done..|].
  assert (y' = y) as -> by congruence. lra.
Qed.

(** Sorting on a key that is a number for every element puts the keys in
    descending order. *)
Lemma sort_descending (l : list A) :
  Forall (λ a, is_Some (key a)) l →
  StronglySorted (not_above key) (sort cmp l).
Proof.
  apply sort_strongly.
  - intros x y z _ _ _. apply not_above_trans.
  - apply desc_lt.
  - apply desc_ge.
Qed.

End KeyDescending.

(** ** [analyze] and its views *)

Section AnalyzeViews.
Import JS Types NodeStatisticsAnalyzer AnalyzerInv Samples TopN.
Import Sample SampleRows.

Lemma hour_forest_readable : readable clock hour_forest.
Proof.
  repeat constructor; try (by eexists).
  intros e [= <-]. by eexists.
Qed.

(** X1.  [analyze] pools the kept samples by node name: its rows have
    pairwise distinct names, the row of a name holds the durations of
    the samples of that name, in the order of the forest, and counts their
    successes and failures; every kept sample has a row. *)
Theorem analyze_pools_samples
    (getTime : string → option Z) (tasks : list TaskInfo) :
  NoDup (name <$> analyze getTime tasks)
  ∧ (∀ r, r ∈ analyze getTime tasks →
          named (name r) (forest_samples getTime tasks) ≠ []
          ∧ durations r
            = s_duration <$> named (name r) (forest_samples getTime tasks)
          ∧ successCount r
            = count_status success
                (named (name r) (forest_samples getTime tasks))
          ∧ failCount r
            = count_status failed
                (named (name r) (forest_samples getTime tasks)))
  ∧ ∀ s, s ∈ forest_samples getTime tasks →
         ∃ r, r ∈ analyze getTime tasks ∧ name r = s_name s.
Proof.
  split; [|split].
  - unfold analyze. rewrite sort_perm. apply node_rows_names.
    rewrite scan_tasks_samples. apply record_samples_keys, NoDup_nil_2.
  - intros r. unfold analyze. rewrite elem_of_sort, list_elem_of_omap.
    intros [[k stats] [Hin Hrow]].
    pose proof (analyze_entry getTime tasks k stats Hin) as H.
    cbv zeta in H. apply node_row_Some in Hrow as [_ ->]. simpl. exact H.
  - intros s Hs. unfold analyze.
    set (m := fold_left (scan_task getTime) tasks []).
    assert (NoDup m.*1) as Hnd.
    { unfold m. rewrite scan_tasks_samples.
      apply record_samples_keys, NoDup_nil_2. }
    destruct (assoc (s_name s) m) as [stats|] eqn:E.
    + apply assoc_elem in E; [|done].
      destruct (analyze_entry getTime tasks _ _ E) as (Hne & Hd & _).
      destruct (node_row (s_name s, stats)) as [r|] eqn:Hrow.
      * exists r. split; [|by eapply node_row_name].
        rewrite elem_of_sort, list_elem_of_omap. by exists (s_name s, stats).
      * exfalso. unfold node_row in Hrow. rewrite Hd in Hrow.
        destruct (named _ _); [done|]. by rewrite fmap_cons in Hrow.
    + exfalso. unfold m in E.
      rewrite scan_tasks_samples, record_samples_assoc in E.
      destruct (named (s_name s) (forest_samples getTime tasks)) eqn:En;
        [|done].
      assert (s ∈ named (s_name s) (forest_samples getTime tasks)) as Hin.
      { unfold named. apply list_elem_of_In, filter_In.
        split; [by apply list_elem_of_In|apply String.eqb_refl]. }
      rewrite En in Hin. by apply elem_of_nil in Hin.
Qed.

Lemma analyze_pools_samples_witness :
  row_A ∈ analyze clock hour_forest
  ∧ durations row_A
    = s_duration <$> named (name row_A) (forest_samples clock hour_forest).
Proof.
  assert (H : row_A ∈ analyze clock hour_forest).
  { rewrite hour_forest_rows. apply list_elem_of_here. }
  split; [exact H|].
  exact (proj1 (proj2 (proj1 (proj2 (analyze_pools_samples clock
                                       hour_forest)) row_A H))).
Defined.

Lemma analyze_descending
    (getTime : string → option Z) (tasks : list TaskInfo) :
  readable getTime tasks →
  StronglySorted slower_or_equal (analyze getTime tasks).
Proof.
  intros Hr. unfold analyze.
  apply (sort_descending avgDuration). apply Forall_forall. intros r Hin.
  apply (analyze_average_readable getTime tasks r Hr).
  unfold analyze. by rewrite elem_of_sort.
Qed.

(** X2.  When every timestamp of the forest is readable, the rows of
    [analyze] are in descending order of average duration: every row is at
    least as slow as every row after it. *)
Theorem analyze_sorted_by_average
    (getTime : string → option Z) (tasks : list TaskInfo) :
  readable getTime tasks →
  StronglySorted slower_or_equal (analyze getTime tasks).
Proof. apply analyze_descending. Qed.

Lemma analyze_sorted_by_average_witness :
  readable clock hour_forest
  ∧ StronglySorted slower_or_equal (analyze clock hour_forest).
Proof.
  split; [exact hour_forest_readable|].
  exact (analyze_sorted_by_average clock hour_forest hour_forest_readable).
Defined.

(** X3.  [getTopSlowest] returns the first [topN] rows of [analyze]; when
    every timestamp is readable, each row it returns is at least as slow as
    each row it leaves out. *)
Theorem getTopSlowest_top
    (getTime : string → option Z) (tasks : list TaskInfo) (topN : Z) :
  readable getTime tasks → 0 ≤ topN →
  getTopSlowest getTime tasks topN
  = take (Z.to_nat topN) (analyze getTime tasks)
  ∧ ∀ x y, x ∈ getTopSlowest getTime tasks topN →
           y ∈ analyze getTime tasks →
           y ∉ getTopSlowest getTime tasks topN →
           slower_or_equal x y.
Proof.
  intros Hr Hn. split.
  - unfold getTopSlowest, slice_to. destruct (Z.ltb_spec topN 0); [lia|done].
  - intros x y. apply slice_to_top. by apply analyze_descending.
Qed.

Lemma getTopSlowest_top_witness :
  (readable clock hour_forest ∧ 0 ≤ 1)
  ∧ getTopSlowest clock hour_forest 1 = take 1 (analyze clock hour_forest)
  ∧ slower_or_equal row_A row_B.
Proof.
  assert (H0 : 0 ≤ 1) by lia.
  pose proof (getTopSlowest_top clock hour_forest 1 hour_forest_readable H0)
    as [H1 H2].
  split; [split; [exact hour_forest_readable|exact H0]|].
  split; [exact H1|]. apply H2.
  - unfold getTopSlowest. rewrite hour_forest_rows. apply list_elem_of_here.
  - rewrite hour_forest_rows. apply list_elem_of_further, list_elem_of_here.
  - unfold getTopSlowest. rewrite hour_forest_rows.
    intros [E|E%elem_of_nil]%elem_of_cons; [discriminate E|exact E].
Defined.

(** X4.  [getTopFrequent] returns at most [topN] rows of [analyze], in
    descending order of sample count, and each row it returns has at least
    as many samples as each row it leaves out. *)
Theorem getTopFrequent_top
    (getTime : string → option Z) (tasks : list TaskInfo) (topN : Z) :
  0 ≤ topN →
  length (getTopFrequent getTime tasks topN)
  = Nat.min (Z.to_nat topN) (length (analyze getTime tasks))
  ∧ StronglySorted more_frequent_or_equal (getTopFrequent getTime tasks topN)
  ∧ (∀ x, x ∈ getTopFrequent getTime tasks topN →
          x ∈ analyze getTime tasks)
  ∧ ∀ x y, x ∈ getTopFrequent getTime tasks topN →
           y ∈ analyze getTime tasks →
           y ∉ getTopFrequent getTime tasks topN →
           more_frequent_or_equal x y.
Proof.
  intros Hn. unfold getTopFrequent.
  assert (StronglySorted more_frequent_or_equal
            (sort by_count_desc (analyze getTime tasks))) as Hs.
  { apply (sort_strongly by_count_desc (λ _, True)).
    - unfold more_frequent_or_equal. intros x y z _ _ _ H1 H2.
      exact (Nat.le_trans _ _ _ H2 H1).
    - unfold by_count_desc, more_frequent_or_equal.
      intros x y _ _ H. rewrite Z.compare_lt_iff in H. lia.
    - unfold by_count_desc, more_frequent_or_equal.
      intros x y _ _ H. rewrite Z.compare_lt_iff in H. lia.
    - by apply Forall_forall. }
  split; [|split; [|split]].
  - rewrite slice_to_length by done. by rewrite sort_perm.
  - destruct (slice_to_take topN (sort by_count_desc (analyze getTime tasks)))
      as (k & -> & _).
    by apply take_sorted.
  - intros x Hx%slice_to_elem. by rewrite elem_of_sort in Hx.
  - intros x y Hx Hy Hny. apply (slice_to_top _ _ _ x y Hs Hx); [|done].
    by rewrite elem_of_sort.
Qed.

Lemma getTopFrequent_top_witness :
  0 ≤ 1
  ∧ length (getTopFrequent clock hour_forest 1)
    = Nat.min (Z.to_nat 1) (length (analyze clock hour_forest)).
Proof.
  assert (H0 : 0 ≤ 1) by lia.
  split; [exact H0|].
  exact (proj1 (getTopFrequent_top clock hour_forest 1 H0)).
Defined.

Lemma fail_ratio_Some getTime tasks r :
  r ∈ analyze getTime tasks → is_Some (fail_ratio r).
Proof.
  intros (k & stats & _ & Hrow)%analyze_row_inv.
  apply node_row_Some in Hrow as [Hne ->]. unfold fail_ratio.
  cbn [failCount count]. apply div_q_Some; [by eexists|].
  destruct (acc_durations stats); [done|simpl; lia].
Qed.

(** X5.  [getTopFailed] returns at most [topN] rows of [analyze], each with
    at least one failure, and each row it returns fails at least as often,
    in proportion to its samples, as each failing row it leaves out. *)
Theorem getTopFailed_top
    (getTime : string → option Z) (tasks : list TaskInfo) (topN : Z) :
  0 ≤ topN →
  (length (getTopFailed getTime tasks topN) ≤ Z.to_nat topN)%nat
  ∧ (∀ x, x ∈ getTopFailed getTime tasks topN →
          x ∈ analyze getTime tasks ∧ (0 < failCount x)%nat)
  ∧ ∀ x y, x ∈ getTopFailed getTime tasks topN →
           y ∈ analyze getTime tasks → (0 < failCount y)%nat →
           y ∉ getTopFailed getTime tasks topN →
           fails_more_or_equal x y.
Proof.
  intros Hn. unfold getTopFailed.
  set (failing := List.filter _ (analyze getTime tasks)).
  assert (∀ x, x ∈ failing
               ↔ x ∈ analyze getTime tasks ∧ (0 < failCount x)%nat) as Hf.
  { intros x. unfold failing. rewrite list_elem_of_In, filter_In.
    rewrite <- list_elem_of_In, Nat.ltb_lt. done. }
  split; [|split].
  - rewrite slice_to_length by done. lia.
  - intros x Hx%slice_to_elem. rewrite elem_of_sort in Hx. by apply Hf.
  - intros x y Hx Hy Hfail Hny.
    apply (slice_to_top _ topN (sort by_fail_ratio_desc failing)); try done.
    + apply (sort_descending fail_ratio). apply Forall_forall.
      intros r [Hr _]%Hf. by eapply fail_ratio_Some.
    + rewrite elem_of_sort. by apply Hf.
Qed.

Lemma getTopFailed_top_witness :
  0 ≤ 5
  ∧ (length (getTopFailed clock hour_forest 5) ≤ Z.to_nat 5)%nat.
Proof.
  assert (H0 : 0 ≤ 5) by lia.
  split; [exact H0|].
  exact (proj1 (getTopFailed_top clock hour_forest 5 H0)).
Defined.

End AnalyzeViews.

(** ** [analyzeRecognitionAction] *)

Section PhaseExtras.
Import JS Types NodeStatisticsAnalyzer AnalyzerInv Samples.
Import Sample SampleRows.

Lemma upsert_Forall_key {S} (I : string → S → Prop) (fresh : S) (f : S → S)
    (k : string) (m : list (string * S)) :
  I k (f fresh) → (∀ s, I k s → I k (f s)) →
  Forall (λ e, I e.1 e.2) m → Forall (λ e, I e.1 e.2) (upsert fresh f k m).
Proof.
  intros Hfresh Hf. induction 1 as [|[k' s] m Hs Hm IH]; simpl.
  - by repeat constructor.
  - destruct (String.eqb_spec k' k) as [->|Hne]; constructor; simpl in *;
      auto.
Qed.

(** A property of the entries that every node with attempts preserves holds
    of every entry of the map of [analyzeRecognitionAction]. *)
Lemma scan_phase_inv (getTime : string → option Z)
    (I : string → PhaseAcc → Prop) (tasks : list TaskInfo) :
  (∀ task node first more,
     task ∈ tasks → node ∈ t_nodes task →
     n_recognition_attempts node = first :: more →
     I (n_name node) (add_phases getTime node first more fresh_phase_acc)
     ∧ ∀ s, I (n_name node) s →
            I (n_name node) (add_phases getTime node first more s)) →
  Forall (λ e, I e.1 e.2) (fold_left (scan_phase_task getTime) tasks []).
Proof.
  intros Hstep.
  assert (∀ nodes m,
            (∀ node first more, node ∈ nodes →
               n_recognition_attempts node = first :: more →
               I (n_name node)
                 (add_phases getTime node first more fresh_phase_acc)
               ∧ ∀ s, I (n_name node) s →
                      I (n_name node)
                        (add_phases getTime node first more s)) →
            Forall (λ e, I e.1 e.2) m →
            Forall (λ e, I e.1 e.2)
              (fold_left (scan_phase_node getTime) nodes m)) as Hnodes.
  { induction nodes as [|node nodes IH]; intros m Hn Hm; [done|].
    simpl. apply IH.
    - intros n f mo Hin. apply Hn. by apply list_elem_of_further.
    - unfold scan_phase_node.
      destruct (n_recognition_attempts node) as [|first more] eqn:E;
        [done|].
      destruct (Hn node first more (list_elem_of_here _ _) E) as [H1 H2].
      by apply upsert_Forall_key. }
  assert (∀ ts m, (∀ t, t ∈ ts → t ∈ tasks) →
            Forall (λ e, I e.1 e.2) m →
            Forall (λ e, I e.1 e.2)
              (fold_left (scan_phase_task getTime) ts m)) as Htasks.
  { induction ts as [|task ts IH]; intros m Hsub Hm; [done|].
    simpl. apply IH.
    - intros t Ht. apply Hsub. by apply list_elem_of_further.
    - apply Hnodes; [|done]. intros node first more Hin.
      apply (Hstep task); [|done]. apply Hsub, list_elem_of_here. }
  apply Htasks; [done|constructor].
Qed.




Lemma sum_attempts (ns : list nat) (a : nat) :
  Forall (λ n, (1 ≤ n)%nat) ns →
  (a + length ns ≤ fold_left Nat.add ns a)%nat.
Proof.
  intros H. revert a. induction H as [|n ns Hn _ IH]; intros a; simpl; [lia|].
  specialize (IH (a + n)%nat). lia.
Qed.

Lemma add_phases_counts getTime node first more stats :
  phase_counts_ok stats →
  phase_counts_ok (add_phases getTime node first more stats).
Proof.
  intros (H1 & H2 & H3 & H4). unfold phase_counts_ok. simpl.
  rewrite length_app, H1. simpl. repeat split.
  - destruct (n_status node); lia.
  - apply Forall_app. split; [done|]. apply Forall_singleton. lia.
  - destruct (_ && in_range _); rewrite ?length_app; simpl;
      destruct (n_status node); lia.
  - destruct (in_range _); rewrite ?length_app; simpl;
      destruct (n_status node); lia.
Qed.


(** X7.  Every row of [analyzeRecognitionAction] counts the nodes of its
    name that have a recognition attempt: there is such a node, the count
    is the successes and the failures together, no phase has more
    durations than nodes counted, and the attempts are at least as many as
    the nodes counted. *)
Theorem phase_counters
    (getTime : string → option Z) (tasks : list TaskInfo)
    (r : RecognitionActionStatistics) :
  r ∈ analyzeRecognitionAction getTime tasks →
  attempted tasks (ras_name r)
  ∧ ras_count r = (ras_successCount r + ras_failCount r)%nat
  ∧ (recognitionCount r ≤ ras_count r)%nat
  ∧ (actionCount r ≤ ras_count r)%nat
  ∧ (ras_count r ≤ totalRecognitionAttempts r)%nat.
Proof.
  unfold analyzeRecognitionAction.
  rewrite elem_of_sort, list_elem_of_omap. intros [[k stats] [Hin Hrow]].
  assert (Forall (λ e, attempted tasks e.1 ∧ phase_counts_ok e.2)
            (fold_left (scan_phase_task getTime) tasks [])) as Hall.
  { apply (scan_phase_inv getTime
             (λ k stats, attempted tasks k ∧ phase_counts_ok stats)).
    intros task node first more Ht Hn E. split.
    - split; [exists task, node; by rewrite E|].
      apply add_phases_counts. repeat split; simpl; auto.
    - intros s [? ?]. split; [done|]. by apply add_phases_counts. }
  rewrite Forall_forall in Hall.
  destruct (Hall _ Hin) as (Hatt & H1 & H2 & H3 & H4).
  simpl in Hatt, H1, H2, H3, H4. unfold phase_row in Hrow.
  destruct (pa_successCount stats + pa_failCount stats)%nat eqn:E; [done|].
  injection Hrow as <-. simpl. rewrite <- E. repeat split; try done.
  all: pose proof (sum_attempts _ 0%nat H2); lia.
Qed.

Lemma phase_counters_witness :
  phase_row_A ∈ analyzeRecognitionAction clock hour_forest
  ∧ attempted hour_forest (ras_name phase_row_A)
  ∧ ras_count phase_row_A
    = (ras_successCount phase_row_A + ras_failCount phase_row_A)%nat
  ∧ (recognitionCount phase_row_A ≤ ras_count phase_row_A)%nat
  ∧ (actionCount phase_row_A ≤ ras_count phase_row_A)%nat
  ∧ (ras_count phase_row_A ≤ totalRecognitionAttempts phase_row_A)%nat.
Proof.
  assert (H : phase_row_A ∈ analyzeRecognitionAction clock hour_forest).
  { rewrite hour_forest_phase_rows. apply list_elem_of_here. }
  split; [exact H|].
  exact (phase_counters clock hour_forest phase_row_A H).
Defined.

(** X8.  In every row of [analyzeRecognitionAction] the smallest and the
    largest duration of each phase are numbers at least 0 and below
    3600000 ms. *)
Theorem phase_durations_below_one_hour
    (getTime : string → option Z) (tasks : list TaskInfo)
    (r : RecognitionActionStatistics) :
  r ∈ analyzeRecognitionAction getTime tasks →
  (∃ z, minRecognitionDuration r = Some z ∧ 0 ≤ z < 3600000)
  ∧ (∃ z, maxRecognitionDuration r = Some z ∧ 0 ≤ z < 3600000)
  ∧ (∃ z, minActionDuration r = Some z ∧ 0 ≤ z < 3600000)
  ∧ (∃ z, maxActionDuration r = Some z ∧ 0 ≤ z < 3600000).
Proof. apply phase_extremes_below_one_hour. Qed.

Lemma phase_durations_below_one_hour_witness :
  phase_row_A ∈ analyzeRecognitionAction clock hour_forest
  ∧ (∃ z, minRecognitionDuration phase_row_A = Some z ∧ 0 ≤ z < 3600000)
  ∧ (∃ z, maxRecognitionDuration phase_row_A = Some z ∧ 0 ≤ z < 3600000)
  ∧ (∃ z, minActionDuration phase_row_A = Some z ∧ 0 ≤ z < 3600000)
  ∧ (∃ z, maxActionDuration phase_row_A = Some z ∧ 0 ≤ z < 3600000).
Proof.
  assert (H : phase_row_A ∈ analyzeRecognitionAction clock hour_forest).
  { rewrite hour_forest_phase_rows. apply list_elem_of_here. }
  split; [exact H|].
  exact (phase_durations_below_one_hour clock hour_forest phase_row_A H).
Defined.

End PhaseExtras.

(** ** The tasks of [getTasks] *)

Section TaskExtras.
Import JS Types LogParser Keys TaskInv Recon Scenario Noisy.
Variable getTime : string → option Z.

(** A property of the index and of the loop state that every iteration
    carries from an index to the next holds at the end of the loop. *)
Lemma task_loop_inv_ix (I : nat → TaskScan → Prop)
    (all : list EventNotification) :
  (∀ i event st, all !! i = Some event → I i st →
                 I (S i) (task_step getTime i event st)) →
  ∀ evs pre st,
    all = pre ++ evs → I (length pre) st →
    I (length all) (task_loop getTime (length pre) evs st).
Proof.
  intros Hstep. induction evs as [|event evs IH]; intros pre st Hall Hst.
  - simpl. by rewrite Hall, app_nil_r.
  - simpl.
    replace (S (length pre)) with (length (pre ++ [event]))
      by (rewrite length_app; simpl; lia).
    apply IH.
    + by rewrite <- app_assoc.
    + rewrite length_app. simpl. rewrite Nat.add_1_r.
      apply Hstep; [|done]. rewrite Hall.
      by rewrite lookup_app_r, Nat.sub_diag by lia.
Qed.

Lemma StronglySorted_snoc {A} (R : A → A → Prop) (l : list A) (x : A) :
  StronglySorted R l → Forall (λ y, R y x) l → StronglySorted R (l ++ [x]).
Proof.
  induction 1 as [|y l Hl IH Hy]; intros Hx; simpl.
  - repeat constructor.
  - apply Forall_cons in Hx as [Hyx Hx]. constructor; [by apply IH|].
    apply Forall_app. split; [done|by apply Forall_singleton].
Qed.

Lemma StronglySorted_fmap_filter {A B} (R : B → B → Prop) (g : A → B)
    (f : A → bool) (l : list A) :
  StronglySorted R (g <$> l) → StronglySorted R (g <$> List.filter f l).
Proof.
  induction l as [|x l IH]; [done|].
  rewrite fmap_cons. intros [Hl Hx]%StronglySorted_inv. cbn [List.filter].
  destruct (f x); [|by auto]. rewrite fmap_cons. constructor; [by auto|].
  rewrite Forall_forall in Hx. apply Forall_forall.
  intros y (z & -> & Hz)%list_elem_of_fmap. apply Hx.
  apply list_elem_of_fmap. exists z. split; [done|].
  apply list_elem_of_In, filter_In in Hz as [Hz _]. by apply list_elem_of_In.
Qed.

Lemma task_step_starts_sorted i event st :
  starts_sorted i st → starts_sorted (S i) (task_step getTime i event st).
Proof.
  intros [Hs Hb].
  assert (Forall (λ t, ∃ s, t_startEventIndex t = Some s ∧ (s < S i)%nat)
            (ts_tasks st)) as Hb'.
  { eapply Forall_impl; [exact Hb|]. intros t (s & ? & ?). exists s.
    split; [done|lia]. }
  unfold task_step.
  destruct (String.eqb (ev_message event) "Tasker.Task.Starting").
  - unfold on_task_starting.
    destruct (d_task_id (ev_details event)) as [id|]; [|by split].
    destruct (truthy_num id); simpl; [|by split].
    case_bool_decide; simpl; [by split|].
    split; simpl.
    + rewrite fmap_app. apply StronglySorted_snoc; [done|].
      apply Forall_fmap. eapply Forall_impl; [exact Hb|].
      intros t (s & Hs' & Hlt). by exists s, i.
    + apply Forall_app. split; [done|]. apply Forall_singleton.
      exists i. split; [done|lia].
  - destruct (is_one_of _ _ _); [|by split].
    split; simpl.
    + by rewrite update_first_fmap.
    + apply update_first_Forall; [|done]. by intros t.
Qed.

Lemma task_step_task_wf all i event st :
  all !! i = Some event →
  Forall (task_wf all i) (ts_tasks st) →
  Forall (task_wf all (S i)) (ts_tasks (task_step getTime i event st)).
Proof.
  intros Hi Hst.
  assert (Forall (task_wf all (S i)) (ts_tasks st)) as Hst'.
  { eapply Forall_impl; [exact Hst|]. intros t (s & Hs & Hlt & Hend).
    exists s. split; [done|]. split; [lia|].
    destruct (t_endEventIndex t); [|done].
    destruct Hend as [? ?]. split; [lia|done]. }
  unfold task_step.
  destruct (String.eqb (ev_message event) "Tasker.Task.Starting") eqn:Hmsg.
  - unfold on_task_starting.
    destruct (d_task_id (ev_details event)) as [id|]; [|done].
    destruct (truthy_num id); simpl; [|done].
    case_bool_decide; simpl; [done|].
    apply Forall_app. split; [done|]. apply Forall_singleton.
    exists i. simpl. split; [done|]. split; [lia|done].
  - destruct (is_one_of _ _ _) eqn:Hclose; [|done]. simpl.
    assert (Forall (λ t, task_wf all i t ∧ task_wf all (S i) t)
              (ts_tasks st)) as Hboth.
    { apply Forall_forall. intros t Ht. rewrite Forall_forall in Hst, Hst'.
      auto. }
    clear Hst Hst'.
    induction Hboth as [|t l [Ht Ht'] Hl IH]; simpl; [done|].
    destruct (closes (ev_details event) t); constructor; auto.
    + destruct Ht as (s & Hs & Hlt & _). exists s. simpl.
      split; [done|]. split; [lia|]. split; [lia|].
      exists event. by repeat split.
    + eapply Forall_impl; [exact Hl|]. by intros ? [_ ?].
Qed.

Lemma task_step_duration_ok i event st :
  Forall (duration_ok getTime) (ts_tasks st) →
  Forall (duration_ok getTime) (ts_tasks (task_step getTime i event st)).
Proof.
  intros Hst. unfold task_step.
  destruct (String.eqb (ev_message event) "Tasker.Task.Starting").
  - unfold on_task_starting.
    destruct (d_task_id (ev_details event)) as [id|]; [|done].
    destruct (truthy_num id); simpl; [|done].
    case_bool_decide; simpl; [done|].
    apply Forall_app. split; [done|]. apply Forall_singleton.
    by split.
  - destruct (is_one_of _ _ _); [|done]. simpl.
    apply update_first_Forall; [|done].
    intros t _. split; [|done]. intros e. simpl. unfold intern.
    intros [= <-] He Hstart. unfold truthy_str.
    destruct (String.eqb_spec (t_start_time t) ""); [done|].
    destruct (String.eqb_spec (ev_timestamp event) ""); [done|]. done.
Qed.

Lemma discover_tasks_starts (all : list EventNotification) :
  starts_sorted (length all) (discovered getTime all).
Proof.
  apply (task_loop_inv_ix starts_sorted all
           (λ i e st _, task_step_starts_sorted i e st) all [] _ eq_refl).
  split; simpl; constructor.
Qed.

Lemma discover_tasks_wf (all : list EventNotification) :
  Forall (task_wf all (length all)) (discover_tasks getTime all).
Proof.
  apply (task_loop_inv_ix (λ i st, Forall (task_wf all i) (ts_tasks st)) all
           (task_step_task_wf all) all [] _ eq_refl).
  constructor.
Qed.

Lemma discover_tasks_duration (all : list EventNotification) :
  Forall (duration_ok getTime) (discover_tasks getTime all).
Proof.
  apply (task_loop_inv getTime
           (λ st, Forall (duration_ok getTime) (ts_tasks st)) all
           (λ i e st _, task_step_duration_ok i e st) all [] _ eq_refl).
  constructor.
Qed.

Lemma task_loop_length i evs st :
  (length (ts_tasks (task_loop getTime i evs st))
   ≤ length (ts_tasks st) + length (List.filter is_start evs))%nat.
Proof.
  revert i st. induction evs as [|event evs IH]; intros i st; simpl; [lia|].
  etrans; [apply IH|].
  assert (length (ts_tasks (task_step getTime i event st))
          ≤ length (ts_tasks st) + (if is_start event then 1 else 0))%nat.
  { unfold task_step, is_start.
    destruct (String.eqb (ev_message event) "Tasker.Task.Starting"); simpl.
    - unfold on_task_starting.
      destruct (d_task_id (ev_details event)) as [id|]; [|lia].
      destruct (truthy_num id); simpl; [|lia].
      case_bool_decide; simpl; rewrite ?length_app; simpl; lia.
    - destruct (is_one_of _ _ _); simpl; [|lia].
      assert (∀ l, length (update_first (closes (ev_details event))
                             (close_task getTime i event) l) = length l) as ->.
      { induction l as [|x l IHl]; simpl; [done|].
        destruct (closes _ x); simpl; by rewrite ?IHl. }
      lia. }
  destruct (is_start event); simpl; lia.
Qed.

(** X9.  [getTasks] returns the tasks in the order of their starting
    events: the start indices grow strictly along the list. *)
Theorem tasks_in_start_order (p : Parser) :
  StronglySorted index_before
    (t_startEventIndex <$> (getTasks getTime p).1).
Proof.
  unfold getTasks. simpl. apply StronglySorted_fmap_filter.
  rewrite <- list_fmap_compose.
  exact (proj1 (discover_tasks_starts (events p))).
Qed.

(** X10.  Every task [getTasks] returns is either running, with no end
    time and no end index, or closed by a [Tasker.Task.Succeeded] or
    [Tasker.Task.Failed] event that comes after its starting event and
    gives it its end time and its status. *)
Theorem tasks_closed_by_later_event (p : Parser) (t : TaskInfo) :
  t ∈ (getTasks getTime p).1 →
  task_wf (events p) (length (events p)) t.
Proof.
  intros (t0 & Hin & ->)%getTasks_elem.
  pose proof (discover_tasks_wf (events p)) as Hall.
  rewrite Forall_forall in Hall. exact (Hall t0 Hin).
Qed.

(** X11.  [getTasks] returns at most one task for each
    [Tasker.Task.Starting] event with a task id other than 0 (close events
    create none), and never a task whose entry is [MaaTaskerPostStop]. *)
Theorem tasks_bounded_by_starts (p : Parser) :
  (length (getTasks getTime p).1
   ≤ length (List.filter is_start (events p)))%nat
  ∧ Forall (λ t, t_entry t ≠ "MaaTaskerPostStop") (getTasks getTime p).1.
Proof.
  unfold getTasks. simpl. split.
  - etrans; [apply filter_length_le|]. rewrite length_fmap.
    unfold discover_tasks. etrans; [apply task_loop_length|]. simpl. lia.
  - apply Forall_forall. intros t [_ Ht]%list_elem_of_In%filter_In.
    unfold is_post_stop in Ht. intros E. rewrite E in Ht. done.
Qed.

(** X12.  The duration of a returned task: the difference of the readings
    of its end and start times when it has both, not empty; for a running
    task, the time from its start to the completion of its last node, and
    none when it has no node. *)
Theorem task_durations (p : Parser) (t : TaskInfo) :
  t ∈ (getTasks getTime p).1 →
  (∀ e, t_end_time t = Some e → e ≠ "" → t_start_time t ≠ "" →
        t_duration t = Some (sub_ms (getTime e) (getTime (t_start_time t))))
  ∧ (t_status t = running →
     t_duration t
     = (λ n, sub_ms (getTime (n_timestamp n)) (getTime (t_start_time t)))
       <$> last (t_nodes t)).
Proof.
  intros (t0 & Hin & ->)%getTasks_elem.
  pose proof (discover_tasks_wf (events p)) as Hwf.
  pose proof (discover_tasks_duration (events p)) as Hd.
  rewrite Forall_forall in Hwf, Hd.
  destruct (Hwf t0 Hin) as (s & _ & _ & Hend).
  destruct (Hd t0 Hin) as [Hd1 Hd2]. simpl. split.
  - intros e He Hne Hstart.
    destruct (t_endEventIndex t0) as [i|].
    + destruct Hend as (_ & event & _ & _ & _ & ->).
      unfold closed_status. destruct (String.eqb _ _); by apply Hd1.
    + destruct Hend as [_ Hnone]. congruence.
  - intros Hrun. rewrite Hrun.
    destruct (t_endEventIndex t0) as [i|].
    + destruct Hend as (_ & event & _ & _ & _ & Hst).
      rewrite Hrun in Hst. unfold closed_status in Hst.
      by destruct (String.eqb _ _).
    + destruct (last _); [done|]. by apply Hd2.
Qed.

End TaskExtras.

Section TaskExtrasWitnesses.
Import JS Types LogParser Recon Scenario Noisy.

Lemma tasks_closed_by_later_event_witness :
  task_1 ∈ (getTasks Sample.clock (load noisy new_parser)).1
  ∧ task_wf noisy (length noisy) task_1.
Proof.
  assert (H : task_1 ∈ (getTasks Sample.clock (load noisy new_parser)).1).
  { rewrite noisy_tasks. apply list_elem_of_here. }
  split; [exact H|].
  exact (tasks_closed_by_later_event Sample.clock (load noisy new_parser)
           task_1 H).
Defined.

Lemma task_durations_witness :
  task_1 ∈ (getTasks Sample.clock (load noisy new_parser)).1
  ∧ t_duration task_1
    = Some (sub_ms (Sample.clock "2025-01-01 11:00:01.000")
              (Sample.clock (t_start_time task_1))).
Proof.
  assert (H : task_1 ∈ (getTasks Sample.clock (load noisy new_parser)).1).
  { rewrite noisy_tasks. apply list_elem_of_here. }
  split; [exact H|].
  apply (proj1 (task_durations Sample.clock (load noisy new_parser)
                  task_1 H)).
  - reflexivity.
  - discriminate.
  - discriminate.
Defined.

End TaskExtrasWitnesses.

(** ** The nodes of a task *)

Section NodeExtras.
Import JS Types LogParser NodeInv Recon Scenario Noisy.

(** What one event does to the ids of the nodes and to the set of ids. *)
Lemma node_step_ids task_id st event :
  (n_node_id <$> ns_nodes (node_step task_id st event),
   ns_nodeIdSet (node_step task_id st event))
  = match completion_id task_id event with
    | Some n =>
        if bool_decide (n ∈ ns_nodeIdSet st)
        then (n_node_id <$> ns_nodes st, ns_nodeIdSet st)
        else ((n_node_id <$> ns_nodes st) ++ [n], {[n]} ∪ ns_nodeIdSet st)
    | None => (n_node_id <$> ns_nodes st, ns_nodeIdSet st)
    end.
Proof.
  unfold node_step, completion_id.
  destruct (before_pipeline_node task_id event st) as [Hn Hs].
  cbv zeta in Hn, Hs.
  set (st' := on_action _ _ _) in *. clearbody st'.
  unfold on_pipeline_node.
  destruct (_ && _); [|by rewrite Hs, Hn]. unfold fresh_node_id.
  rewrite Hs, Hn.
  destruct (d_node_id (ev_details event)) as [n|]; [|done].
  destruct (truthy_num n); simpl; [|done].
  case_bool_decide; simpl; [done|].
  by rewrite fmap_app.
Qed.

Lemma scan_ids task_id evs st :
  n_node_id <$> ns_nodes (fold_left (node_step task_id) evs st)
  = (n_node_id <$> ns_nodes st)
    ++ first_seen (ns_nodeIdSet st) (omap (completion_id task_id) evs).
Proof.
  revert st. induction evs as [|event evs IH]; intros st.
  - simpl. by rewrite app_nil_r.
  - cbn [fold_left omap list_omap]. rewrite IH.
    pose proof (node_step_ids task_id st event) as H.
    destruct (completion_id task_id event) as [n|].
    + cbn [first_seen]. case_bool_decide.
      * by injection H as -> ->.
      * injection H as -> ->. by rewrite <- app_assoc.
    + by injection H as -> ->.
Qed.

(** A property of the state of the loop of [getTaskNodes] that the events
    of a list preserve holds after the loop over the list. *)
Lemma scan_inv (I : NodeScan → Prop) task_id (evs : list EventNotification) :
  (∀ st event, event ∈ evs → I st → I (node_step task_id st event)) →
  I node_scan_init → I (scan task_id evs).
Proof.
  unfold scan. generalize node_scan_init.
  induction evs as [|event evs IH]; intros st Hstep Hst; [done|].
  simpl. apply IH.
  - intros st' e He. apply Hstep. by apply list_elem_of_further.
  - apply Hstep; [apply list_elem_of_here|done].
Qed.

Lemma on_next_list_provenance task_id evs event st :
  provenance task_id evs st →
  provenance task_id evs (on_next_list task_id event st).
Proof. unfold on_next_list. by destruct (_ && _). Qed.

Lemma on_recognition_node_provenance task_id evs event st :
  provenance task_id evs st →
  provenance task_id evs (on_recognition_node task_id event st).
Proof. unfold on_recognition_node. by destruct (_ && _). Qed.

Lemma on_action_node_provenance task_id evs event st :
  provenance task_id evs st →
  provenance task_id evs (on_action_node task_id event st).
Proof. unfold on_action_node. by destruct (_ && _). Qed.

Lemma on_action_provenance task_id evs event st :
  provenance task_id evs st →
  provenance task_id evs (on_action task_id event st).
Proof. unfold on_action. by destruct (_ && _). Qed.

Lemma on_recognition_provenance task_id evs event st :
  event ∈ evs →
  provenance task_id evs st →
  provenance task_id evs (on_recognition task_id event st).
Proof.
  intros Hin [Ha Hn]. unfold on_recognition.
  destruct (is_one_of _ _ _) eqn:Hmsg; [|by split].
  destruct (same_task _ _) eqn:Hsame; [|by split].
  split; simpl; [|done].
  apply Forall_app. split; [done|]. apply Forall_singleton.
  exists event. split; [done|]. by repeat split.
Qed.

Lemma on_pipeline_node_provenance task_id evs event st :
  event ∈ evs →
  provenance task_id evs st →
  provenance task_id evs (on_pipeline_node task_id event st).
Proof.
  intros Hin [Ha Hn]. unfold on_pipeline_node.
  destruct (is_one_of _ _ _ && same_task _ _) eqn:Hmsg; [|by split].
  destruct (fresh_node_id _ _) as [nodeId|] eqn:E;
    (split; simpl; [constructor|]); [|done].
  apply Forall_app. split; [done|]. apply Forall_singleton.
  split; [|done]. exists event. split; [done|].
  apply fresh_node_id_Some in E as (Hid & Hnz & _).
  unfold built_from, completion_id. rewrite Hmsg, Hid. simpl.
  unfold truthy_num. destruct (Z.eqb_spec nodeId 0); [done|].
  by repeat split.
Qed.

Lemma scan_provenance task_id evs :
  provenance task_id evs (scan task_id evs).
Proof.
  apply scan_inv; [|by split].
  intros st event Hin Hst. unfold node_step.
  apply on_pipeline_node_provenance; [done|].
  apply on_action_provenance, on_recognition_provenance; [done|].
  by apply on_action_node_provenance, on_recognition_node_provenance,
    on_next_list_provenance.
Qed.

Lemma attach_nodes_slice getTime all t0 :
  slice all (attach_nodes getTime all t0) = slice all t0.
Proof. done. Qed.

Lemma getTaskNodes_scan all t :
  getTaskNodes all t = ns_nodes (scan (t_task_id t) (slice all t))
  ∨ (task_events all t = None ∧ getTaskNodes all t = []).
Proof.
  unfold getTaskNodes, slice, scan.
  destruct (task_events all t); [by left|by right].
Qed.

(** X13.  The node ids of a returned task are the node ids, other than 0,
    of the [Node.PipelineNode] completion events of the task among the
    events from its start to its end, each at its first occurrence and in
    the order of the events. *)
Theorem nodes_in_event_order
    (getTime : string → option Z) (p : Parser) (t : TaskInfo) :
  t ∈ (getTasks getTime p).1 →
  n_node_id <$> t_nodes t
  = first_seen ∅ (omap (completion_id (t_task_id t)) (slice (events p) t)).
Proof.
  intros (t0 & Hin & ->)%getTasks_elem.
  rewrite attach_nodes_slice. simpl.
  destruct (getTaskNodes_scan (events p) t0) as [->|[Hnone ->]].
  - unfold scan. by rewrite scan_ids.
  - unfold slice. by rewrite Hnone.
Qed.

Lemma nodes_in_event_order_witness :
  task_1 ∈ (getTasks Sample.clock (load noisy new_parser)).1
  ∧ n_node_id <$> t_nodes task_1
    = first_seen ∅ (omap (completion_id (t_task_id task_1))
                      (slice noisy task_1)).
Proof.
  assert (H : task_1 ∈ (getTasks Sample.clock (load noisy new_parser)).1).
  { rewrite noisy_tasks. apply list_elem_of_here. }
  split; [exact H|].
  exact (nodes_in_event_order Sample.clock (load noisy new_parser) task_1 H).
Defined.

(** X14.  Every node of a returned task was built from a
    [Node.PipelineNode] completion event of that task among the events
    from its start to its end, which gives it its id, name, timestamp and
    status; every recognition attempt of the node was made from a
    [Node.Recognition] event of that task among the same events. *)
Theorem nodes_built_from_events
    (getTime : string → option Z) (p : Parser) (t : TaskInfo) (n : NodeInfo) :
  t ∈ (getTasks getTime p).1 → n ∈ t_nodes t →
  (∃ event, event ∈ slice (events p) t
            ∧ built_from (t_task_id t) event n)
  ∧ ∀ a, a ∈ n_recognition_attempts n →
         ∃ event, event ∈ slice (events p) t
                  ∧ attempt_from (t_task_id t) event a.
Proof.
  intros (t0 & Hin & ->)%getTasks_elem. rewrite attach_nodes_slice. simpl.
  destruct (getTaskNodes_scan (events p) t0) as [->|[_ ->]];
    [|by intros ?%elem_of_nil].
  intros Hn.
  destruct (scan_provenance (t_task_id t0) (slice (events p) t0))
    as [_ Hnodes].
  rewrite Forall_forall in Hnodes. destruct (Hnodes n Hn) as [Hb Ha].
  split; [done|]. by rewrite Forall_forall in Ha.
Qed.

Lemma nodes_built_from_events_witness :
  (task_1 ∈ (getTasks Sample.clock (load noisy new_parser)).1
   ∧ node_X ∈ t_nodes task_1)
  ∧ ∃ event, event ∈ slice noisy task_1
             ∧ built_from (t_task_id task_1) event node_X.
Proof.
  assert (H : task_1 ∈ (getTasks Sample.clock (load noisy new_parser)).1).
  { rewrite noisy_tasks. apply list_elem_of_here. }
  assert (H' : node_X ∈ t_nodes task_1) by apply list_elem_of_here.
  split; [split; [exact H|exact H']|].
  exact (proj1 (nodes_built_from_events Sample.clock
                  (load noisy new_parser) task_1 node_X H H')).
Defined.

End NodeExtras.

(** ** [parseFile] *)

Section ParseFileExtras.
Import JS Types LogParser Owners Recon SampleLog.

Lemma parseEventNotification_outcome (l : LogLine) (q q' : Parser) :
  (parseEventNotification l q).1 = (parseEventNotification l q').1.
Proof.
  unfold parseEventNotification.
  destruct (negb (includes _ _)); [done|].
  destruct (ll_msg l) as [msg|]; [|done].
  destruct (negb (truthy_str msg)); [done|].
  destruct (String.eqb msg _); [|done].
  destruct (ll_details l) as [d|]; [|done].
  destruct (d_task_id d) as [t|]; [|done].
  by destruct (truthy_num t).
Qed.

Lemma parseEventNotification_registers (l : LogLine) (q : Parser) :
  events (parseEventNotification l q).2 = events q
  ∧ processIds (parseEventNotification l q).2 = processIds q
  ∧ threadIds (parseEventNotification l q).2 = threadIds q.
Proof.
  unfold parseEventNotification, record_owner.
  destruct (negb (includes _ _)); [done|].
  destruct (ll_msg l) as [msg|]; [|done].
  destruct (negb (truthy_str msg)); [done|].
  destruct (String.eqb msg _); [|done].
  destruct (ll_details l) as [d|]; [|done].
  destruct (d_task_id d) as [t|]; [|done].
  destruct (truthy_num t); [|done]. simpl.
  by destruct (map_has t (taskProcessMap q)).
Qed.

(** What one line does to the collected events and to the registries. *)
Lemma parse_line_step_fields acc (q : Parser) (r : RawLine) :
  (parse_line_step (acc, q) r).1 = acc ++ option_list (notification r)
  ∧ events (parse_line_step (acc, q) r).2 = events q
  ∧ processIds (parse_line_step (acc, q) r).2
    = registered ll_processId (option_list (decoded_line r)) (processIds q)
  ∧ threadIds (parse_line_step (acc, q) r).2
    = registered ll_threadId (option_list (decoded_line r)) (threadIds q).
Proof.
  unfold parse_line_step, notification, decoded_line, registered.
  destruct (truthy_str (rawLine r)); simpl; [|by rewrite app_nil_r].
  destruct (decoded r) as [l|]; simpl;
    [|destruct (includes _ _); by rewrite app_nil_r].
  destruct (includes (rawLine r) marker); simpl; [|by rewrite app_nil_r].
  pose proof (parseEventNotification_outcome l (register_ids l q) new_parser)
    as Ho.
  destruct (parseEventNotification_registers l (register_ids l q))
    as (He & Hp & Ht).
  destruct (parseEventNotification l (register_ids l q)) as [o q'].
  simpl in Ho, He, Hp, Ht. rewrite <- Ho.
  destruct o as [[event|]|]; simpl; rewrite ?app_nil_r; by rewrite He, Hp, Ht.
Qed.

Lemma fold_parse_lines_fields (content : list RawLine) acc (q : Parser) :
  (fold_left parse_line_step content (acc, q)).1
  = acc ++ omap notification content
  ∧ processIds (fold_left parse_line_step content (acc, q)).2
    = registered ll_processId (decoded_lines content) (processIds q)
  ∧ threadIds (fold_left parse_line_step content (acc, q)).2
    = registered ll_threadId (decoded_lines content) (threadIds q).
Proof.
  revert acc q. induction content as [|r content IH]; intros acc q.
  { simpl. by rewrite app_nil_r. }
  cbn [fold_left].
  destruct (parse_line_step_fields acc q r) as (H1 & _ & H2 & H3).
  destruct (parse_line_step (acc, q) r) as [acc1 q1]. simpl in H1, H2, H3.
  destruct (IH acc1 q1) as (-> & -> & ->). rewrite H1, H2, H3.
  unfold decoded_lines, registered. cbn [omap list_omap].
  destruct (notification r), (decoded_line r); simpl;
    rewrite <- ?app_assoc, ?app_nil_r; done.
Qed.

(** The owner maps do not depend on the other fields of the parser. *)
Lemma fold_parse_lines_maps (content : list RawLine) acc acc'
    (q q' : Parser) :
  taskProcessMap q = taskProcessMap q' →
  taskThreadMap q = taskThreadMap q' →
  taskProcessMap (fold_left parse_line_step content (acc, q)).2
  = taskProcessMap (fold_left parse_line_step content (acc', q')).2
  ∧ taskThreadMap (fold_left parse_line_step content (acc, q)).2
    = taskThreadMap (fold_left parse_line_step content (acc', q')).2.
Proof.
  revert acc acc' q q'.
  induction content as [|r content IH]; intros acc acc' q q' HP HT; [done|].
  cbn [fold_left].
  assert ((taskProcessMap (parse_line_step (acc, q) r).2,
           taskThreadMap (parse_line_step (acc, q) r).2)
          = (taskProcessMap (parse_line_step (acc', q') r).2,
             taskThreadMap (parse_line_step (acc', q') r).2)) as E.
  { pose proof (parse_line_step_maps acc q r) as H1.
    pose proof (parse_line_step_maps acc' q' r) as H2.
    cbv zeta in H1, H2. rewrite H1, H2. by rewrite HP, HT. }
  destruct (parse_line_step (acc, q) r) as [a1 q1].
  destruct (parse_line_step (acc', q') r) as [a2 q2].
  injection E as E1 E2. by apply IH.
Qed.

(** X15.  [parseFile] starts from a cleared state: what the parser held
    before (events, registries, owners) has no part in what it holds
    after. *)
Theorem parseFile_starts_afresh (content : list RawLine) (p : Parser) :
  parseFile content p = parseFile content new_parser.
Proof.
  unfold parseFile.
  set (p0 := {| events := events p; processIds := []; threadIds := [];
                taskProcessMap := []; taskThreadMap := [] |}).
  set (n0 := {| events := events new_parser; processIds := [];
                threadIds := []; taskProcessMap := [];
                taskThreadMap := [] |}).
  destruct (fold_parse_lines_fields content [] p0) as (E1 & E2 & E3).
  destruct (fold_parse_lines_fields content [] n0) as (F1 & F2 & F3).
  destruct (fold_parse_lines_maps content [] [] p0 n0 eq_refl eq_refl)
    as [G1 G2].
  destruct (fold_left parse_line_step content ([], p0)) as [a1 q1].
  destruct (fold_left parse_line_step content ([], n0)) as [a2 q2].
  simpl in *. by rewrite E1, E2, E3, F1, F2, F3, G1, G2.
Qed.

Lemma parseFile_events_eq (content : list RawLine) (p : Parser) :
  events (parseFile content p) = omap notification content.
Proof.
  unfold parseFile.
  set (p0 := {| events := events p; processIds := []; threadIds := [];
                taskProcessMap := []; taskThreadMap := [] |}).
  destruct (fold_parse_lines_fields content [] p0) as (E1 & _).
  destruct (fold_left parse_line_step content ([], p0)) as [a1 q1].
  by simpl in *.
Qed.


Lemma set_add_spec (x y : string) (s : list string) :
  (y ∈ set_add x s ↔ y = x ∨ y ∈ s) ∧ (NoDup s → NoDup (set_add x s)).
Proof.
  unfold set_add. case_bool_decide as Hx; split.
  - split; [by right|]. by intros [->|?].
  - done.
  - rewrite elem_of_app, list_elem_of_singleton. tauto.
  - intros Hs. apply NoDup_app. split; [done|].
    split; [|apply NoDup_singleton].
    by intros z Hz ->%list_elem_of_singleton.
Qed.

Lemma registered_spec (id : LogLine → string) (ls : list LogLine)
    (ids : list string) :
  (∀ y, y ∈ registered id ls ids ↔ y ∈ ids ∨ ∃ l, l ∈ ls ∧ id l = y)
  ∧ (NoDup ids → NoDup (registered id ls ids)).
Proof.
  unfold registered. revert ids.
  induction ls as [|l ls IH]; intros ids; simpl.
  { split; [|done]. intros y. split; [by left|].
    intros [?|(l & ?%elem_of_nil & _)]; done. }
  destruct (IH (set_add (id l) ids)) as [H1 H2]. split.
  - intros y. rewrite H1. rewrite (proj1 (set_add_spec (id l) y ids)).
    split.
    + intros [[->|?]|(l' & ? & ?)]; [right|by left|right].
      * exists l. split; [apply list_elem_of_here|done].
      * exists l'. split; [by apply list_elem_of_further|done].
    + intros [?|(l' & [->|?]%elem_of_cons & <-)]; [by left; right| |].
      * by left; left.
      * right. by exists l'.
  - intros Hids. apply H2. by apply (proj2 (set_add_spec (id l) "" ids)).
Qed.

Lemma first_owner_line (t : Z) (content : list RawLine) (o : string * string) :
  first_owner t content = Some o →
  ∃ l, l ∈ decoded_lines content ∧ ll_processId l = o.1
       ∧ ll_threadId l = o.2.
Proof.
  unfold first_owner. intros H.
  assert (o ∈ omap (owner_of t) content) as Hin.
  { destruct (omap _ content); [done|]. injection H as ->.
    apply list_elem_of_here. }
  apply list_elem_of_omap in Hin as (r & Hr & Ho).
  unfold owner_of, starting_owner in Ho.
  destruct (truthy_str (rawLine r)) eqn:Hraw; simpl in Ho; [|done].
  destruct (includes _ _); [|done].
  destruct (decoded r) as [l|] eqn:Hl; [|done].
  exists l. split.
  - apply list_elem_of_omap. exists r. split; [done|].
    unfold decoded_line. by rewrite Hraw.
  - destruct (ll_msg l), (ll_details l) as [d|]; try done.
    destruct (_ && _); [|done].
    destruct (d_task_id d) as [t'|]; [|done].
    destruct (truthy_num t'); [|done].
    destruct (Z.eqb t' t); [|done]. by injection Ho as <-.
Qed.

(** X17.  After [parseFile] the registries hold, each once, the process
    ids and the thread ids of the non-blank decoded lines, and nothing
    else; the ids [getProcessIds] and [getThreadIds] return are among
    them. *)
Theorem registries_hold_line_ids (content : list RawLine) (p : Parser) :
  (NoDup (processIds (parseFile content p))
   ∧ NoDup (threadIds (parseFile content p)))
  ∧ (∀ id, id ∈ processIds (parseFile content p)
           ↔ ∃ l, l ∈ decoded_lines content ∧ ll_processId l = id)
  ∧ (∀ id, id ∈ threadIds (parseFile content p)
           ↔ ∃ l, l ∈ decoded_lines content ∧ ll_threadId l = id)
  ∧ (∀ id, id ∈ getProcessIds (parseFile content p) →
           id ∈ processIds (parseFile content p))
  ∧ (∀ id, id ∈ getThreadIds (parseFile content p) →
           id ∈ threadIds (parseFile content p)).
Proof.
  assert (processIds (parseFile content p)
          = registered ll_processId (decoded_lines content) []
          ∧ threadIds (parseFile content p)
            = registered ll_threadId (decoded_lines content) [])
    as [EP ET].
  { unfold parseFile.
    set (p0 := {| events := events p; processIds := []; threadIds := [];
                  taskProcessMap := []; taskThreadMap := [] |}).
    destruct (fold_parse_lines_fields content [] p0) as (_ & E2 & E3).
    destruct (fold_left parse_line_step content ([], p0)) as [a1 q1].
    by simpl in *. }
  destruct (registered_spec ll_processId (decoded_lines content) [])
    as [HP1 HP2].
  destruct (registered_spec ll_threadId (decoded_lines content) [])
    as [HT1 HT2].
  assert (∀ id, id ∈ processIds (parseFile content p)
                ↔ ∃ l, l ∈ decoded_lines content ∧ ll_processId l = id)
    as HP.
  { intros id. rewrite EP, HP1, elem_of_nil. tauto. }
  assert (∀ id, id ∈ threadIds (parseFile content p)
                ↔ ∃ l, l ∈ decoded_lines content ∧ ll_threadId l = id)
    as HT.
  { intros id. rewrite ET, HT1, elem_of_nil. tauto. }
  split; [|split; [exact HP|split; [exact HT|split]]].
  - rewrite EP, ET. split; [apply HP2|apply HT2]; apply NoDup_nil_2.
  - intros id Hid.
    unfold getProcessIds in Hid.
    rewrite elem_of_sort, elem_of_dedup_first in Hid. destruct Hid as [Hid _].
    apply (proj1 (values_are_owners content p id)) in Hid
      as (t & tid & Ho).
    apply first_owner_line in Ho as (l & Hl & Hpid & _).
    apply HP. by exists l.
  - intros id Hid.
    unfold getThreadIds in Hid.
    rewrite elem_of_sort, elem_of_dedup_first in Hid. destruct Hid as [Hid _].
    apply (proj2 (values_are_owners content p id)) in Hid
      as (t & pid & Ho).
    apply first_owner_line in Ho as (l & Hl & _ & Htid).
    apply HT. by exists l.
Qed.

End ParseFileExtras.

(** ** The filters of [App.vue] *)

Section AppExtras.
Import JS Types LogParser Owners TaskInv Recon App SampleLog.

Lemma is_id_passes tasks parser pid tid task :
  is_id (getTaskProcessId (t_task_id task) parser) pid = true →
  is_id (getTaskThreadId (t_task_id task) parser) tid = true →
  task ∈ tasks → task ∈ filteredTasks tasks parser pid tid.
Proof.
  intros Hp Ht Hin. unfold filteredTasks.
  apply list_elem_of_In, filter_In. split; [by apply list_elem_of_In|].
  unfold passes. rewrite Hp, Ht. simpl. by rewrite !andb_false_r.
Qed.

(** X18.  The select boxes offer no dead choice: a process id offered
    while a thread is selected, chosen together with that thread, leaves at
    least one task in [filteredTasks]; and likewise a thread id offered
    while a process is selected. *)
Theorem offered_ids_match_a_task
    (tasks : list TaskInfo) (parser : Parser)
    (availableProcessIds availableThreadIds : list string) :
  (∀ pid tid, tid ≠ "" →
              pid ∈ validProcessIds tasks parser availableProcessIds tid →
              filteredTasks tasks parser pid tid ≠ [])
  ∧ (∀ pid tid, pid ≠ "" →
                tid ∈ validThreadIds tasks parser availableThreadIds pid →
                filteredTasks tasks parser pid tid ≠ []).
Proof.
  split; intros pid tid Hne.
  - unfold validProcessIds. destruct (String.eqb_spec tid ""); [done|].
    simpl. intros [_ Hsome]%list_elem_of_In%filter_In.
    apply existsb_exists in Hsome as (task & Hin & [Hp Ht]%andb_true_iff).
    intros E.
    assert (task ∈ filteredTasks tasks parser pid tid) as H
      by (apply is_id_passes; [done..|by apply list_elem_of_In]).
    rewrite E in H. by apply elem_of_nil in H.
  - unfold validThreadIds. destruct (String.eqb_spec pid ""); [done|].
    simpl. intros [_ Hsome]%list_elem_of_In%filter_In.
    apply existsb_exists in Hsome as (task & Hin & [Ht Hp]%andb_true_iff).
    intros E.
    assert (task ∈ filteredTasks tasks parser pid tid) as H
      by (apply is_id_passes; [done..|by apply list_elem_of_In]).
    rewrite E in H. by apply elem_of_nil in H.
Qed.

Lemma notification_owner (r : RawLine) (event : EventNotification) (id : Z) :
  notification r = Some event →
  ev_message event = "Tasker.Task.Starting" →
  d_task_id (ev_details event) = Some id → id ≠ 0 →
  is_Some (owner_of id r).
Proof.
  unfold notification, owner_of, starting_owner, parseEventNotification.
  destruct (truthy_str (rawLine r) && includes (rawLine r) marker); [|done].
  destruct (decoded r) as [l|]; [|done].
  destruct (includes (ll_message l) marker); simpl; [|done].
  destruct (ll_msg l) as [msg|]; [|done].
  destruct (truthy_str msg); simpl; [|done].
  destruct (String.eqb_spec msg "Tasker.Task.Starting") as [->|Hne].
  - destruct (ll_details l) as [d|]; [|done].
    intros Hev _ Hid Hnz.
    destruct (d_task_id d) as [t|] eqn:Ht.
    + destruct (truthy_num t) eqn:Htr; simpl in Hev; injection Hev as <-;
        simpl in Hid; rewrite Ht in Hid; injection Hid as ->;
        unfold truthy_num in Htr.
      * rewrite Z.eqb_refl. by eexists.
      * destruct (Z.eqb_spec id 0); done.
    + simpl in Hev. injection Hev as <-. simpl in Hid. congruence.
  - simpl. intros [= <-]. simpl. by intros ->.
Qed.

Lemma first_owner_Some (id : Z) (content : list RawLine) (r : RawLine) :
  r ∈ content → is_Some (owner_of id r) → is_Some (first_owner id content).
Proof.
  intros Hin [o Ho]. unfold first_owner.
  assert (o ∈ omap (owner_of id) content) as H
    by (apply list_elem_of_omap; by exists r).
  destruct (omap _ content); [by apply elem_of_nil in H|by eexists].
Qed.

(** X19.  After [parseFile], every task [getTasks] returns has a recorded
    owner, and its process and thread ids are among those [getProcessIds]
    and [getThreadIds] return. *)
Theorem returned_tasks_have_owners
    (getTime : string → option Z) (content : list RawLine) (p : Parser)
    (t : TaskInfo) :
  t ∈ (getTasks getTime (parseFile content p)).1 →
  ∃ pid tid,
    getTaskProcessId (t_task_id t) (parseFile content p) = Some pid
    ∧ getTaskThreadId (t_task_id t) (parseFile content p) = Some tid
    ∧ pid ∈ getProcessIds (parseFile content p)
    ∧ tid ∈ getThreadIds (parseFile content p).
Proof.
  intros (t0 & Hin & ->)%getTasks_elem. simpl.
  pose proof (discover_tasks_origin getTime (events (parseFile content p)))
    as Hall.
  rewrite Forall_forall in Hall.
  destruct (Hall t0 Hin) as (Hnz & i & event & _ & Hi & Hmsg & Hid).
  apply list_elem_of_lookup_2 in Hi. rewrite parseFile_events_eq in Hi.
  apply list_elem_of_omap in Hi as (r & Hr & Hnote).
  destruct (first_owner_Some (t_task_id t0) content r Hr
              (notification_owner r event _ Hnote Hmsg Hid Hnz))
    as [[pid tid] Ho].
  destruct (parseFile_owners content p) as [_ Hget].
  destruct (Hget (t_task_id t0)) as [HP HT]. rewrite Ho in HP, HT.
  exists pid, tid. split; [done|]. split; [done|].
  unfold getProcessIds, getThreadIds.
  rewrite !elem_of_sort, !elem_of_dedup_first. split.
  - split; [|apply not_elem_of_nil]. by apply (map_get_values _ _ _ HP).
  - split; [|apply not_elem_of_nil]. by apply (map_get_values _ _ _ HT).
Qed.

End AppExtras.

Section AppWitnesses.
Import JS Types LogParser App SampleLog SampleApp.

Lemma offered_ids_match_a_task_witness :
  ("Tx1" ≠ ""
   ∧ "Px1" ∈ validProcessIds [task_7] relayed_parser ["Px1"; "Px2"] "Tx1")
  ∧ filteredTasks [task_7] relayed_parser "Px1" "Tx1" ≠ [].
Proof.
  assert (H1 : "Tx1" ≠ "") by discriminate.
  assert (H2 : "Px1" ∈ validProcessIds [task_7] relayed_parser
                         ["Px1"; "Px2"] "Tx1").
  { vm_compute. apply list_elem_of_here. }
  split; [split; [exact H1|exact H2]|].
  exact (proj1 (offered_ids_match_a_task [task_7] relayed_parser
                  ["Px1"; "Px2"] []) "Px1" "Tx1" H1 H2).
Defined.

Lemma relayed_tasks :
  (getTasks Sample.clock relayed_parser).1 = [task_7].
Proof. vm_compute. reflexivity. Qed.

Lemma returned_tasks_have_owners_witness :
  task_7 ∈ (getTasks Sample.clock
              (parseFile (relayed_log ++ relay) new_parser)).1
  ∧ ∃ pid tid,
      getTaskProcessId (t_task_id task_7)
        (parseFile (relayed_log ++ relay) new_parser) = Some pid
      ∧ getTaskThreadId (t_task_id task_7)
          (parseFile (relayed_log ++ relay) new_parser) = Some tid
      ∧ pid ∈ getProcessIds (parseFile (relayed_log ++ relay) new_parser)
      ∧ tid ∈ getThreadIds (parseFile (relayed_log ++ relay) new_parser).
Proof.
  assert (H : task_7 ∈ (getTasks Sample.clock
                          (parseFile (relayed_log ++ relay) new_parser)).1).
  { change (parseFile (relayed_log ++ relay) new_parser) with relayed_parser.
    rewrite relayed_tasks. apply list_elem_of_here. }
  split; [exact H|].
  exact (returned_tasks_have_owners Sample.clock (relayed_log ++ relay)
           new_parser task_7 H).
Defined.

End AppWitnesses.

(** ** The line decoder *)

Section StringFacts.
Import JS Decoder.

Lemma append_cons c (a b : string) : String c a +:+ b = String c (a +:+ b).
Proof. reflexivity. Qed.

Lemma append_nil_l (s : string) : EmptyString +:+ s = s.
Proof. reflexivity. Qed.



Lemma string_length_append (a b : string) :
  String.length (a +:+ b) = (String.length a + String.length b)%nat.
Proof.
  induction a as [|x a IH]; [done|]. rewrite append_cons. simpl.
  by rewrite IH.
Qed.





Lemma substring_prefix (t s : string) :
  String.substring 0 (String.length t) (t +:+ s) = t.
Proof.
  induction t as [|c t IH]; [by destruct s|].
  rewrite append_cons. simpl. by rewrite IH.
Qed.

Lemma substring_full (s : string) :
  String.substring 0 (String.length s) s = s.
Proof. induction s as [|c s IH]; simpl; [done|]. by rewrite IH. Qed.

Lemma substring_suffix (t s : string) :
  String.substring (String.length t) (String.length s) (t +:+ s) = s.
Proof.
  induction t as [|c t IH]; [apply substring_full|].
  by rewrite append_cons.
Qed.









Lemma split_at_append c (g r : string) :
  lacks c g = true → split_at c (g +:+ String c r) = Some (g, r).
Proof.
  induction g as [|x g IH].
  - intros _. rewrite append_nil_l. simpl. by rewrite Ascii.eqb_refl.
  - simpl. intros [Hx Hg]%andb_true_iff. apply negb_true_iff in Hx.
    rewrite ?append_cons. simpl. by rewrite Hx, IH.
Qed.

Lemma split_at_lacks c (s : string) :
  lacks c s = true → split_at c s = None.
Proof.
  induction s as [|x s IH]; simpl; [done|].
  intros [Hx Hs]%andb_true_iff. apply negb_true_iff in Hx.
  by rewrite Hx, IH.
Qed.

End StringFacts.


Section ExtractFacts.
Import JS Decoder.

Lemma scan_to_close_stop (s : string) : scan_to_close 0 0 s = (0, O).
Proof. by destruct s. Qed.

Lemma scan_to_close_append (t s : string) d b d' b' :
  depths_after d b t = Some (d', b') →
  scan_to_close d b (t +:+ s)
  = (fst (scan_to_close d' b' s),
     (String.length t + snd (scan_to_close d' b' s))%nat).
Proof.
  revert d b. induction t as [|c t IH]; intros d b.
  - intros [= -> ->]. rewrite append_nil_l. simpl.
    by destruct (scan_to_close d' b' s).
  - rewrite append_cons. cbn [depths_after scan_to_close].
    destruct ((0 <? d) || (0 <? b)); [|done].
    destruct (step_depth c d b) as [d1 b1]. intros H.
    rewrite (IH _ _ H). done.
Qed.

Lemma enclosed_depths (t : string) :
  enclosed t = true → depths_after 1 0 t = Some (1, 0).
Proof.
  unfold enclosed. destruct (depths_after 1 0 t) as [[d b]|]; [|done].
  intros [->%Z.eqb_eq ->%Z.eqb_eq]%andb_true_iff. done.
Qed.

Lemma extract_params_skip (t s : string) k :
  extract_params (String.length t + k) (t +:+ s) = extract_params k s.
Proof.
  induction t as [|c t IH]; [done|]. rewrite append_cons. apply IH.
Qed.



Lemma extract_params_bracketed (t rest : string) :
  enclosed t = true →
  extract_params 0 ("[" +:+ t +:+ "]" +:+ rest)
  = t :: extract_params 0 rest.
Proof.
  intros Ht%enclosed_depths.
  rewrite append_cons, append_nil_l.
  cbn [extract_params]. rewrite Ascii.eqb_refl.
  rewrite (scan_to_close_append _ _ _ _ _ _ Ht).
  rewrite append_cons, append_nil_l.
  assert (scan_to_close 1 0 (String "]" rest) = (0, 1%nat)) as ->.
  { cbn. by rewrite scan_to_close_stop. }
  cbn [fst snd]. rewrite Z.eqb_refl.
  replace (String.length t + 1 - 1)%nat with (String.length t) by lia.
  rewrite substring_prefix. f_equal.
  by rewrite extract_params_skip.
Qed.

(** X20.  A bracketed text whose own brackets and braces are closed when it
    ends, and not before, is extracted whole as one parameter, whatever it
    holds, and the extraction goes on after its closing bracket. *)
Theorem bracketed_text_is_one_parameter (t rest : string) :
  enclosed t = true →
  extract_params 0 ("[" +:+ t +:+ "]" +:+ rest)
  = t :: extract_params 0 rest.
Proof. apply extract_params_bracketed. Qed.

End ExtractFacts.

Section MessageFacts.
Import JS Decoder.
Variable JSON_parse : string → option JValue.











End MessageFacts.

Section StatusFacts.
Import JS Decoder.
Variable JSON_parse : string → option JValue.


Lemma digit_not_char c x :
  is_digit c = true → is_digit x = false → Ascii.eqb c x = false.
Proof.
  intros Hc Hx. destruct (Ascii.eqb_spec c x) as [->|]; [|done].
  by rewrite Hc in Hx.
Qed.









End StatusFacts.

Section ValueFacts.
Import JS Decoder.
Variable JSON_parse : string → option JValue.

Lemma digits_value_acc (s : string) acc :
  digits_value acc s
  = acc * 10 ^ Z.of_nat (String.length s) + digits_value 0 s.
Proof.
  revert acc. induction s as [|c s IH]; intros acc.
  - simpl. lia.
  - cbn [digits_value String.length].
    rewrite (IH (acc * 10 + digit_value c)), (IH (0 * 10 + digit_value c)).
    rewrite Nat2Z.inj_succ, Z.pow_succ_r by lia. lia.
Qed.

Lemma pretty_N_char_digit (x : N) :
  (x < 10)%N →
  is_digit (pretty_N_char x) = true
  ∧ digit_value (pretty_N_char x) = Z.of_N x.
Proof.
  intros Hx.
  assert (x = 0 ∨ x = 1 ∨ x = 2 ∨ x = 3 ∨ x = 4 ∨ x = 5 ∨ x = 6 ∨ x = 7
          ∨ x = 8 ∨ x = 9)%N as H by lia.
  repeat destruct H as [->|H]; try subst x; by compute.
Qed.

(** The digits [pretty] writes before [s]. *)
Lemma pretty_N_go_digits (x : N) (s : string) :
  all_digits s = true →
  all_digits (pretty_N_go x s) = true
  ∧ digits_value 0 (pretty_N_go x s)
    = Z.of_N x * 10 ^ Z.of_nat (String.length s) + digits_value 0 s
  ∧ ((0 < x)%N → pretty_N_go x s ≠ EmptyString).
Proof.
  revert s. induction (N.lt_wf_0 x) as [x _ IH]. intros s Hs.
  assert (x = 0 ∨ 0 < x)%N as [->|Hx] by lia.
  { rewrite pretty_N_go_0. split; [done|]. split.
    - change (Z.of_N 0) with 0. lia.
    - intros H. exfalso. lia. }
  rewrite pretty_N_go_step by done.
  destruct (pretty_N_char_digit (x `mod` 10)) as [Hd Hv].
  { by apply N.mod_lt. }
  destruct (IH (x `div` 10)%N) with
    (s := String (pretty_N_char (x `mod` 10)) s) as (H1 & H2 & H3).
  { by apply N.div_lt. }
  { simpl. by rewrite Hd, Hs. }
  split; [done|]. split.
  - rewrite H2. cbn [digits_value String.length].
    rewrite (digits_value_acc s), Hv.
    rewrite Nat2Z.inj_succ, Z.pow_succ_r by lia.
    rewrite (N.div_mod x 10) at 3 by done.
    rewrite N2Z.inj_add, N2Z.inj_mul. change (Z.of_N 10) with 10. lia.
  - intros _. destruct (N.eq_0_gt_0_cases (x `div` 10)) as [->|Hq].
    + by rewrite pretty_N_go_0.
    + by apply H3.
Qed.

Lemma pretty_pos_digits (p : positive) :
  digits (pretty (Z.pos p)) = true
  ∧ digits_value 0 (pretty (Z.pos p)) = Z.pos p.
Proof.
  change (pretty (Z.pos p)) with (pretty_N_go (N.pos p) EmptyString).
  destruct (pretty_N_go_digits (N.pos p) EmptyString) as (H1 & H2 & H3);
    [done|].
  split.
  - unfold digits. rewrite H1, andb_true_r.
    apply negb_true_iff, String.eqb_neq, H3. lia.
  - rewrite H2. simpl. lia.
Qed.

Lemma digits_head (s : string) :
  digits s = true → ∃ c s', s = String c s' ∧ is_digit c = true.
Proof.
  destruct s as [|c s']; [done|]. unfold digits. simpl.
  intros [Hc _]%andb_true_iff. eauto.
Qed.

(** A text of digits, with or without sign, is read as a number. *)
Lemma parseValue_int (s : string) :
  is_int_literal s = true → parseValue JSON_parse s = VInt (parse_int s).
Proof.
  intros H. unfold parseValue. rewrite H.
  assert (∃ c s', s = String c s'
                  ∧ (c = "-"%char ∨ is_digit c = true)) as (c & s' & -> & Hc).
  { unfold is_int_literal in H. destruct s as [|c s']; [done|].
    exists c, s'. split; [done|].
    destruct (Ascii.eqb_spec c "-"%char) as [->|Hne]; [by left|right].
    assert (unsigned (String c s') = String c s') as Hu.
    { unfold unsigned.
      destruct c as [[] [] [] [] [] [] [] []]; try done. }
    rewrite Hu in H. by destruct (digits_head _ H) as (? & ? & [= <- <-] & ?). }
  assert (starts_with "{" (String c s') = false
          ∧ starts_with "[" (String c s') = false
          ∧ String.eqb (String c s') "true" = false
          ∧ String.eqb (String c s') "false" = false) as (-> & -> & -> & ->).
  { destruct Hc as [->|Hc]; [done|].
    cbn [starts_with String.eqb].
    rewrite !(digit_not_char c) by done. done. }
  done.
Qed.

(** X24.  An integer written in decimal, as a template literal writes it,
    is read back by [parseValue] as that integer (one a double holds
    exactly). *)
Theorem integer_text_round_trip (z : Z) :
  Z.abs z <= 2 ^ 53 →
  parseValue JSON_parse (pretty z) = VInt z.
Proof.
  intros _. destruct z as [|p|p].
  - done.
  - destruct (pretty_pos_digits p) as [Hd Hv].
    rewrite parseValue_int.
    + f_equal. unfold parse_int.
      destruct (digits_head _ Hd) as (c & s' & Hs & Hc).
      rewrite Hs in *. 
      assert (negative (String c s') = false
              ∧ unsigned (String c s') = String c s') as [-> ->]; [|done].
      destruct (Ascii.eqb_spec c "-"%char) as [->|Hne]; [done|].
      unfold negative, unsigned.
      destruct c as [[] [] [] [] [] [] [] []]; try done.
    + unfold is_int_literal.
      destruct (digits_head _ Hd) as (c & s' & Hs & Hc).
      rewrite Hs in *.
      assert (unsigned (String c s') = String c s') as ->; [|done].
      destruct (Ascii.eqb_spec c "-"%char) as [->|Hne]; [done|].
      unfold unsigned.
      destruct c as [[] [] [] [] [] [] [] []]; try done.
  - destruct (pretty_pos_digits p) as [Hd Hv].
    change (pretty (Z.neg p)) with ("-" +:+ pretty (Z.pos p)).
    rewrite append_cons, append_nil_l.
    rewrite parseValue_int; [|done].
    unfold parse_int. cbn [negative unsigned]. rewrite Hv. done.
Qed.

Lemma split_at_head c q (s ip fp : string) :
  Ascii.eqb q c = false →
  split_at c (String q s) = Some (ip, fp) → ∃ ip', ip = String q ip'.
Proof.
  intros Hq. simpl. rewrite Hq.
  destruct (split_at c s) as [[l r]|]; [|done].
  intros [= <- <-]. eauto.
Qed.

Lemma ends_with_append c (a : string) :
  ends_with c (a +:+ String c EmptyString) = true.
Proof.
  induction a as [|x a IH].
  - rewrite append_nil_l. simpl. apply Ascii.eqb_refl.
  - rewrite append_cons. cbn [ends_with]. rewrite IH.
    destruct (a +:+ String c EmptyString) eqn:E; [|done].
    by destruct a.
Qed.

(** A text between two quotes of the kind [q] is no literal of another
    kind, and loses the quotes. *)
Lemma parseValue_quoted q (s : string) :
  q = dquote ∨ q = "'"%char →
  parseValue JSON_parse (String q (s +:+ String q EmptyString)) = VStr s.
Proof.
  intros Hq. unfold parseValue.
  set (t := s +:+ String q EmptyString).
  assert (starts_with "{" (String q t) = false
          ∧ starts_with "[" (String q t) = false
          ∧ String.eqb (String q t) "true" = false
          ∧ String.eqb (String q t) "false" = false
          ∧ is_int_literal (String q t) = false
          ∧ unsigned (String q t) = String q t
          ∧ Ascii.eqb q "." = false
          ∧ is_digit q = false) as (-> & -> & -> & -> & -> & Hu & Hdot & Hdig).
  { by destruct Hq as [-> | ->]. }
  cbn [orb].
  assert (dec_literal (String q t) = None) as ->.
  { unfold dec_literal. rewrite Hu.
    destruct (split_at "." (String q t)) as [[ip fp]|] eqn:E; [|done].
    destruct (split_at_head _ _ _ _ _ Hdot E) as [ip' ->].
    unfold digits at 1. simpl. by rewrite Hdig. }
  assert (starts_with q (String q t) = true) as Hs.
  { simpl. apply Ascii.eqb_refl. }
  assert (ends_with q (String q t) = true) as He.
  { apply (ends_with_append q (String q s)). }
  assert (slice_inner (String q t) = s) as Hin.
  { unfold slice_inner, t. cbn [String.length String.substring].
    rewrite string_length_append. simpl.
    replace (String.length s + 1 - 1)%nat with (String.length s) by lia.
    apply substring_prefix. }
  by destruct Hq as [-> | ->]; rewrite Hs, He, Hin.
Qed.

(** X25.  A text between two double quotes, or between two single quotes,
    is returned without them, whatever it holds: it is never read as JSON,
    as a boolean or as a number. *)
Theorem quoted_text_is_unquoted (s : string) :
  parseValue JSON_parse (String dquote (s +:+ String dquote EmptyString))
  = VStr s
  ∧ parseValue JSON_parse (String "'" (s +:+ String "'" EmptyString))
    = VStr s.
Proof. split; apply parseValue_quoted; auto. Qed.

End ValueFacts.

Section LineFacts.
Import JS Types LogParser Decoder.
Variable JSON_parse : string → option JValue.

Lemma bracket_group_field (g r : string) :
  field g = true → bracket_group ("[" +:+ g +:+ "]" +:+ r) = Some (g, r).
Proof.
  intros [Hne Hg]%andb_true_iff. unfold bracket_group.
  rewrite !append_cons, !append_nil_l.
  rewrite (split_at_append _ _ _ Hg).
  apply negb_true_iff in Hne. by rewrite Hne.
Qed.

Lemma optional_group_field (g r : string) :
  field g = true → optional_group ("[" +:+ g +:+ "]" +:+ r) = (Some g, r).
Proof.
  intros Hg. unfold optional_group. by rewrite bracket_group_field.
Qed.

Lemma optional_group_none (r : string) :
  bracket_group r = None → optional_group r = (None, r).
Proof. intros H. unfold optional_group. by rewrite H. Qed.


(** X27.  A line with one optional group only, the message not beginning
    with a bracket group: the group is the source file when it holds
    [.cpp] or [.h], and the function name otherwise; there is no line
    number. *)
Theorem single_group_is_file_or_function
    (ts lv pid tid g msg : string) (lineNum : nat) (p : Parser) :
  Forall (λ g, field g = true) [ts; lv; pid; tid; g] →
  bracket_group msg = None →
  one_line (skip_spaces msg) = true →
  ∃ d, fst (parseLine JSON_parse (groups [ts; lv; pid; tid; g] msg) lineNum p)
       = Some d
       ∧ lineNumber d = None
       ∧ (if includes g ".cpp" || includes g ".h"
          then sourceFile d = Some g ∧ functionName d = None
          else sourceFile d = None ∧ functionName d = Some g).
Proof.
  intros Hf Hnone Hmsg.
  repeat (apply Forall_cons in Hf as [? Hf]).
  unfold parseLine, groups. cbn [fold_right].
  rewrite !bracket_group_field by done.
  rewrite optional_group_field by done.
  rewrite !optional_group_none by done.
  rewrite Hmsg. unfold classify, looks_like_file.
  destruct (includes g ".cpp" || includes g ".h");
    eexists; (split; [reflexivity|]); by cbn.
Qed.

(** X28.  [parseLine] registers ids only for a line it decodes, and then
    the process and the thread of the record it returns; it never touches
    the events or the owner maps. *)
Theorem parseLine_registers_decoded_ids
    (line : string) (lineNum : nat) (p : Parser) :
  match parseLine JSON_parse line lineNum p with
  | (Some d, p') =>
      p' = {| events := events p;
              processIds := set_add (processId d) (processIds p);
              threadIds := set_add (threadId d) (threadIds p);
              taskProcessMap := taskProcessMap p;
              taskThreadMap := taskThreadMap p |}
      ∧ _lineNumber d = lineNum
  | (None, p') => p' = p
  end.
Proof.
  unfold parseLine.
  destruct (bracket_group line) as [[ts r1]|]; [|done].
  destruct (bracket_group r1) as [[lv r2]|]; [|done].
  destruct (bracket_group r2) as [[pid r3]|]; [|done].
  destruct (bracket_group r3) as [[tid r4]|]; [|done].
  destruct (optional_group r4) as [part1 r5].
  destruct (optional_group r5) as [part2 r6].
  destruct (optional_group r6) as [part3 r7].
  destruct (one_line (skip_spaces r7)); [|done].
  by destruct (classify part1 part2 part3) as [[? ?] ?].
Qed.

End LineFacts.

Section DecoderWitnesses.
Import JS Types LogParser Decoder SampleLine.

Lemma bracketed_text_is_one_parameter_witness :
  enclosed "d={[}" = true
  ∧ extract_params 0 ("[" +:+ "d={[}" +:+ "]" +:+ " [x]")
    = "d={[}" :: extract_params 0 " [x]".
Proof.
  assert (H : enclosed "d={[}" = true) by reflexivity.
  split; [exact H|].
  exact (bracketed_text_is_one_parameter "d={[}" " [x]" H).
Defined.




Lemma integer_text_round_trip_witness :
  Z.abs (-42) <= 2 ^ 53 ∧ parseValue no_json (pretty (-42)) = VInt (-42).
Proof.
  assert (H : Z.abs (-42) <= 2 ^ 53) by (vm_compute; discriminate).
  split; [exact H|].
  exact (integer_text_round_trip no_json (-42) H).
Defined.


Lemma single_group_is_file_or_function_witness :
  (Forall (λ g, field g = true) (header ++ ["Utils"])
   ∧ bracket_group " ready" = None
   ∧ one_line (skip_spaces " ready") = true)
  ∧ ∃ d, fst (parseLine no_json (groups (header ++ ["Utils"]) " ready")
                3 new_parser) = Some d
         ∧ lineNumber d = None
         ∧ (if includes "Utils" ".cpp" || includes "Utils" ".h"
            then sourceFile d = Some "Utils" ∧ functionName d = None
            else sourceFile d = None ∧ functionName d = Some "Utils").
Proof.
  assert (H1 : Forall (λ g, field g = true) (header ++ ["Utils"]))
    by (repeat constructor).
  assert (H2 : bracket_group " ready" = None) by reflexivity.
  assert (H3 : one_line (skip_spaces " ready") = true) by reflexivity.
  split; [done|].
  exact (single_group_is_file_or_function no_json
           "2025-01-01 10:00:00.000" "INF" "Px1" "Tx1" "Utils" " ready"
           3 new_parser H1 H2 H3).
Defined.

End DecoderWitnesses.

(** ** The statistics view *)

Section SumFacts.
Import JS.

Lemma add_ms_comm (a b : option Z) : add_ms a b = add_ms b a.
Proof. destruct a, b; simpl; try done. f_equal. lia. Qed.

Lemma add_ms_assoc (a b c : option Z) :
  add_ms (add_ms a b) c = add_ms a (add_ms b c).
Proof. destruct a, b, c; simpl; try done. f_equal. lia. Qed.

Lemma add_ms_zero (a : option Z) : add_ms (Some 0) a = a.
Proof. by destruct a. Qed.

Lemma add_ms_zero_r (a : option Z) : add_ms a (Some 0) = a.
Proof. destruct a; simpl; [f_equal; lia|done]. Qed.

Lemma fold_add_ms_shift (l : list (option Z)) (a b : option Z) :
  fold_left add_ms l (add_ms a b) = add_ms a (fold_left add_ms l b).
Proof.
  revert b. induction l as [|x l IH]; intros b; [done|].
  cbn [fold_left]. by rewrite add_ms_assoc, IH.
Qed.

Lemma fold_add_ms (l : list (option Z)) (a : option Z) :
  fold_left add_ms l a = add_ms a (sum_ms l).
Proof.
  unfold sum_ms. by rewrite <- fold_add_ms_shift, add_ms_zero_r.
Qed.

Lemma sum_ms_cons x (l : list (option Z)) :
  sum_ms (x :: l) = add_ms x (sum_ms l).
Proof.
  unfold sum_ms at 1. cbn [fold_left]. by rewrite fold_add_ms, add_ms_zero.
Qed.

Lemma sum_ms_app (l k : list (option Z)) :
  sum_ms (l ++ k) = add_ms (sum_ms l) (sum_ms k).
Proof.
  induction l as [|x l IH].
  - change (sum_ms []) with (Some 0). by rewrite add_ms_zero.
  - by rewrite <- app_comm_cons, !sum_ms_cons, IH, add_ms_assoc.
Qed.

Lemma sum_ms_perm (l k : list (option Z)) : l ≡ₚ k → sum_ms l = sum_ms k.
Proof.
  induction 1 as [|x l k _ IH|x y l|l k m _ IH1 _ IH2]; [done|..].
  - by rewrite !sum_ms_cons, IH.
  - rewrite !sum_ms_cons, <- !add_ms_assoc. f_equal. apply add_ms_comm.
  - by rewrite IH1.
Qed.

Lemma fold_left_sum {A} (f : A → nat) (l : list A) (n : nat) :
  fold_left (λ sum s, (sum + f s)%nat) l n = (n + sum_list_with f l)%nat.
Proof.
  revert n. induction l as [|x l IH]; intros n; simpl; [lia|].
  rewrite IH. lia.
Qed.

Lemma fold_left_add_ms {A} (f : A → option Z) (l : list A) (a : option Z) :
  fold_left (λ sum s, add_ms sum (f s)) l a = add_ms a (sum_ms (f <$> l)).
Proof.
  revert a. induction l as [|x l IH]; intros a.
  - simpl. destruct a; simpl; [f_equal; lia|done].
  - cbn [fold_left]. rewrite IH, fmap_cons, sum_ms_cons.
    apply add_ms_assoc.
Qed.

Lemma StronglySorted_filter {A} (R : A → A → Prop) (f : A → bool)
    (l : list A) :
  StronglySorted R l → StronglySorted R (List.filter f l).
Proof.
  induction 1 as [|x l Hl IH Hx]; [constructor|].
  cbn [List.filter]. destruct (f x); [|done].
  constructor; [done|].
  rewrite Forall_forall in Hx. apply Forall_forall. intros y Hy.
  apply Hx. apply list_elem_of_In, filter_In in Hy as [Hy _].
  by apply list_elem_of_In.
Qed.

End SumFacts.

Section ViewFacts.
Import JS Types NodeStatisticsAnalyzer AnalyzerInv Samples StatsView.
Import Sample SampleRows.
Variable getTime : string → option Z.
Variable toLowerCase : string → string.

(** The number of durations, and their sum, over the entries of the map
    of [analyze]. *)
Lemma upsert_totals (m : list (string * NodeAcc)) k d st :
  let m' := upsert fresh_node_acc (add_sample d st) k m in
  sum_list_with (λ e, length (acc_durations e.2)) m'
  = S (sum_list_with (λ e, length (acc_durations e.2)) m)
  ∧ sum_ms ((λ e, sum_ms (acc_durations e.2)) <$> m')
    = add_ms (sum_ms ((λ e, sum_ms (acc_durations e.2)) <$> m)) d.
Proof.
  cbv zeta. induction m as [|[k' s] m [IH1 IH2]].
  - cbn. split; [done|]. destruct d; simpl; [f_equal; lia|done].
  - cbn [upsert]. destruct (String.eqb k' k).
    + cbn [sum_list_with fmap list_fmap snd add_sample acc_durations].
      rewrite length_app. split; [simpl; lia|].
      rewrite !sum_ms_cons, sum_ms_app.
      change (sum_ms [d]) with (add_ms (Some 0) d). rewrite add_ms_zero.
      rewrite !add_ms_assoc. f_equal. apply add_ms_comm.
    + cbn [sum_list_with fmap list_fmap snd]. split.
      * change (list_fmap _ _ ?f ?l) with (f <$> l) in *. simpl in *. lia.
      * change (list_fmap _ _ ?f ?l) with (f <$> l) in *.
        rewrite !sum_ms_cons, IH2. by rewrite add_ms_assoc.
Qed.

Lemma record_samples_totals (samples : list Sample) :
  let m := fold_left record_sample samples [] in
  sum_list_with (λ e, length (acc_durations e.2)) m = length samples
  ∧ sum_ms ((λ e, sum_ms (acc_durations e.2)) <$> m)
    = sum_ms (s_duration <$> samples).
Proof.
  cbv zeta.
  assert (∀ m,
    sum_list_with (λ e, length (acc_durations e.2))
      (fold_left record_sample samples m)
    = (sum_list_with (λ e, length (acc_durations e.2)) m
       + length samples)%nat
    ∧ sum_ms ((λ e, sum_ms (acc_durations e.2))
              <$> fold_left record_sample samples m)
      = add_ms (sum_ms ((λ e, sum_ms (acc_durations e.2)) <$> m))
               (sum_ms (s_duration <$> samples))) as H.
  { induction samples as [|s samples IH]; intros m.
    - simpl. split; [lia|].
      destruct (sum_ms _); simpl; [f_equal; lia|done].
    - cbn [fold_left]. destruct (IH (record_sample m s)) as [-> ->].
      destruct (upsert_totals m (s_name s) (s_duration s) (s_status s))
        as [H1 H2]. cbv zeta in H1, H2. unfold record_sample.
      rewrite H1, H2, fmap_cons, sum_ms_cons, add_ms_assoc.
      split; [simpl; lia|done]. }
  destruct (H []) as [-> ->]. split; [done|]. apply add_ms_zero.
Qed.

Lemma node_rows_totals (m : list (string * NodeAcc)) :
  sum_list_with count (omap node_row m)
  = sum_list_with (λ e, length (acc_durations e.2)) m
  ∧ sum_ms (totalDuration <$> omap node_row m)
    = sum_ms ((λ e, sum_ms (acc_durations e.2)) <$> m).
Proof.
  induction m as [|[k s] m [IH1 IH2]]; [done|].
  assert (omap node_row ((k, s) :: m)
          = match node_row (k, s) with
            | Some r => r :: omap node_row m
            | None => omap node_row m
            end) as -> by done.
  rewrite fmap_cons, sum_ms_cons. cbn [sum_list_with snd].
  destruct (node_row (k, s)) as [r|] eqn:E.
  - apply node_row_Some in E as [_ ->].
    rewrite fmap_cons, sum_ms_cons. cbn [sum_list_with count totalDuration].
    by rewrite IH1, IH2.
  - unfold node_row in E. destruct (acc_durations s); [|done].
    rewrite IH1, IH2. change (sum_ms []) with (Some 0).
    by rewrite add_ms_zero.
Qed.

(** The rows of [analyze] together count, and add up, the kept samples. *)
Lemma analyze_totals (tasks : list TaskInfo) :
  sum_list_with count (analyze getTime tasks)
  = length (forest_samples getTime tasks)
  ∧ sum_ms (totalDuration <$> analyze getTime tasks)
    = sum_ms (s_duration <$> forest_samples getTime tasks).
Proof.
  unfold analyze.
  set (rows := omap node_row (fold_left (scan_task getTime) tasks [])).
  pose proof (sort_perm by_avg_desc rows) as Hp.
  rewrite (sum_list_with_Permutation_proper count _ _ Hp).
  rewrite (sum_ms_perm _ _ (fmap_Permutation totalDuration _ _ Hp)).
  unfold rows.
  destruct (node_rows_totals (fold_left (scan_task getTime) tasks []))
    as [-> ->].
  rewrite scan_tasks_samples. apply record_samples_totals.
Qed.

Lemma search_blank {A} (name : A → string) keyword (stats : list A) :
  trim keyword = EmptyString → search toLowerCase name keyword stats = stats.
Proof. intros H. unfold search. by rewrite H. Qed.

Lemma search_sub {A} (name : A → string) keyword (stats : list A) r :
  r ∈ search toLowerCase name keyword stats → r ∈ stats.
Proof.
  unfold search. destruct (truthy_str _); [|done].
  intros [H _]%list_elem_of_In%filter_In. by apply list_elem_of_In.
Qed.

Lemma nodeStatistics_blank tasks keyword :
  trim keyword = EmptyString →
  nodeStatistics getTime toLowerCase tasks keyword = analyze getTime tasks.
Proof.
  intros H. unfold nodeStatistics. rewrite search_blank by done.
  by destruct tasks.
Qed.

(** X29.  With a blank search keyword, the summary of the statistics view
    counts and adds up the kept samples: [totalNodes] is the number of
    samples [analyze] kept, [totalDuration] is the sum of their durations,
    [uniqueNodes] is the number of rows; and there is no summary exactly
    when no sample was kept. *)
Theorem summary_totals_are_the_kept_samples
    (tasks : list TaskInfo) (keyword : string) :
  trim keyword = EmptyString →
  match nodeSummary getTime toLowerCase tasks keyword with
  | Some s =>
      totalNodes s = length (forest_samples getTime tasks)
      ∧ sm_totalDuration s
        = sum_ms (s_duration <$> forest_samples getTime tasks)
      ∧ uniqueNodes s = length (analyze getTime tasks)
      ∧ forest_samples getTime tasks ≠ []
  | None => forest_samples getTime tasks = []
  end.
Proof.
  intros Hk. unfold nodeSummary. rewrite (nodeStatistics_blank _ _ Hk).
  destruct (analyze_totals tasks) as [Hc Hd].
  destruct (analyze getTime tasks) as [|r rows] eqn:E.
  - simpl in Hc. by destruct (forest_samples getTime tasks).
  - cbn [totalNodes sm_totalDuration uniqueNodes].
    rewrite fold_left_sum, fold_left_add_ms, add_ms_zero, Hc, Hd.
    repeat split; try done.
    intros Hnil. 
    assert (r ∈ analyze getTime tasks) as Hin
      by (rewrite E; apply list_elem_of_here).
    unfold analyze in Hin.
    rewrite elem_of_sort, list_elem_of_omap in Hin.
    destruct Hin as [[k stats] [Hin _]].
    destruct (analyze_entry getTime tasks k stats Hin) as [Hne _].
    rewrite Hnil in Hne. by apply Hne.
Qed.

(** X30.  When every timestamp is readable, the slowest node of the
    summary is a row of [analyze] that is shown, and it is at least as
    slow, on average, as every row that is shown, whatever the search
    keyword. *)
Theorem summary_slowest_node
    (tasks : list TaskInfo) (keyword : string) (s : NodeSummary) :
  readable getTime tasks →
  nodeSummary getTime toLowerCase tasks keyword = Some s →
  slowestNode s ∈ analyze getTime tasks
  ∧ ∀ r, r ∈ nodeStatistics getTime toLowerCase tasks keyword →
         slower_or_equal (slowestNode s) r.
Proof.
  intros Hr. unfold nodeSummary.
  assert (StronglySorted slower_or_equal
            (nodeStatistics getTime toLowerCase tasks keyword)) as Hs.
  { unfold nodeStatistics. destruct tasks as [|t tasks]; [constructor|].
    unfold search. destruct (truthy_str _).
    - apply StronglySorted_filter. by apply analyze_descending.
    - by apply analyze_descending. }
  assert (∀ r, r ∈ nodeStatistics getTime toLowerCase tasks keyword →
               r ∈ analyze getTime tasks) as Hsub.
  { intros r. unfold nodeStatistics. destruct tasks as [|t tasks].
    - by intros ?%elem_of_nil.
    - apply search_sub. }
  destruct (nodeStatistics getTime toLowerCase tasks keyword)
    as [|first rows]; [done|].
  intros [= <-]. cbn [slowestNode].
  split; [apply Hsub, list_elem_of_here|].
  apply StronglySorted_inv in Hs as [_ Hfirst].
  intros r [->|Hin]%elem_of_cons.
  - destruct (analyze_average_readable getTime tasks first Hr) as [x Hx].
    { apply Hsub, list_elem_of_here. }
    exists x, x. repeat split; try done. apply Qle_refl.
  - rewrite Forall_forall in Hfirst. by apply Hfirst.
Qed.

End ViewFacts.

Section ViewWitnesses.
Import JS Types NodeStatisticsAnalyzer AnalyzerInv Samples StatsView.
Import Sample SampleRows.

Lemma summary_totals_are_the_kept_samples_witness :
  trim " " = EmptyString
  ∧ match nodeSummary clock (λ s, s) hour_forest " " with
    | Some s =>
        totalNodes s = length (forest_samples clock hour_forest)
        ∧ sm_totalDuration s
          = sum_ms (s_duration <$> forest_samples clock hour_forest)
        ∧ uniqueNodes s = length (analyze clock hour_forest)
        ∧ forest_samples clock hour_forest ≠ []
    | None => forest_samples clock hour_forest = []
    end.
Proof.
  assert (H : trim " " = EmptyString) by reflexivity.
  split; [exact H|].
  exact (summary_totals_are_the_kept_samples clock (λ s, s) hour_forest
           " " H).
Defined.

Lemma summary_slowest_node_witness :
  (readable clock hour_forest
   ∧ nodeSummary clock (λ s, s) hour_forest "A"
     = Some {| totalNodes := count row_A;
               sm_totalDuration := totalDuration row_A;
               sm_avgDuration := avgDuration row_A;
               slowestNode := row_A;
               uniqueNodes := 1 |})
  ∧ row_A ∈ analyze clock hour_forest
  ∧ ∀ r, r ∈ nodeStatistics clock (λ s, s) hour_forest "A" →
         slower_or_equal row_A r.
Proof.
  assert (H : nodeSummary clock (λ s, s) hour_forest "A"
              = Some {| totalNodes := count row_A;
                        sm_totalDuration := totalDuration row_A;
                        sm_avgDuration := avgDuration row_A;
                        slowestNode := row_A;
                        uniqueNodes := 1 |}).
  { unfold nodeSummary, nodeStatistics. cbn [hour_forest].
    change (analyze clock _) with (analyze clock hour_forest).
    rewrite hour_forest_rows. reflexivity. }
  split; [split; [exact hour_forest_readable|exact H]|].
  exact (summary_slowest_node clock (λ s, s) hour_forest "A" _
           hour_forest_readable H).
Defined.

End ViewWitnesses.
